(** * Image compression pipeline: a shallow embedding of the React sources

    The repository ships several revisions of the same [App] component.
    Three of them carry the functions studied here:

    - the revision built around [processImage] (with [getPresetSettings],
      [resizeImage] and [compressToTargetSize]), embedded in
      [Module ProcessImageApp];
    - the revision built around [recompressImage] (with
      [validateDimensions] and a [compressImage] that rounds), embedded in
      [Module RecompressApp];
    - [src/App.tsx], whose [compressImage] encodes once, embedded in
      [Module SingleEncodeApp].

    Modelling conventions.

    - A JavaScript [number] that can be fractional is the rational it
      stands for ([Q]), and the divisions and multiplications by which
      the three revisions scale an image round their result to the
      nearest binary64 number, ties to even, as the language does
      ([binary64], [Number_div], [Number_mul]). The exponent of the
      model is unbounded: overflow and subnormal numbers, far from any
      size computed here, are not modelled.
      Numbers that the sources only ever produce as integers (image
      sizes, the quality slider, byte counts) are [Z].
      Division by zero, which yields [Infinity] or [NaN] in JavaScript,
      is 0 in [Q]: statements about sizes assume an image with positive
      sides, as every decoded JPEG or PNG has.
    - Two quotients are kept as the fractions they stand for. The
      quality argument of [canvas.toBlob] and [canvas.toDataURL] is
      written [q / 100]: the codec is an arbitrary function of it, so
      nothing depends on which number names the quality. The percentage
      of [ImagePreview] is rounded from the exact quotient, not from its
      binary64 value.
    - The browser (codec behind [canvas.toBlob], [canvas.toDataURL],
      [URL.createObjectURL], image decoding) is a record of functions,
      [Browser]; nothing is assumed about it.
    - An [async] function is a computation over the component state that
      ends fulfilled, rejected, or never settles ([Promise]); every call
      of [canvas.toBlob] is appended to a log kept next to the state.
    - [useState] setters are writes to the one component state; a
      function reads the state of the render that created it (its
      closure), passed in explicitly where it matters. *)

From Stdlib Require Import ZArith QArith Qround Qpower Qreduction.
From Stdlib Require Import Lqa Lia Bool List String.
From Stdlib Require Import Strings.Byte Floats.
From Equations Require Import Equations.
Import ListNotations.

Local Open Scope Z_scope.

(** ** JavaScript numbers *)

Definition Qltb (x y : Q) : bool := negb (Qle_bool y x).

(** [Math.min] on two finite numbers. *)
Definition Math_min (a b : Q) : Q := if Qle_bool a b then a else b.

(** *** Binary64 arithmetic

    A finite binary64 number is [m * 2^e] for an integer [m] of at most
    53 bits. [binary64 x] is the one nearest to [x], a tie going to the
    even [m]: the result of every arithmetic operation of the language
    whose exact result is [x]. The operands are taken as given: a
    rational that is no binary64 number stands for no number of the
    language. *)

Definition pow2 (e : Z) : Q := Qpower 2 e.

(** The exponent [e] with [2^e <= x < 2^(e+1)], for a positive [x]. *)
Definition binade (x : Q) : Z :=
  let k := Z.log2 (Qnum x) - Z.log2 (Zpos (Qden x)) in
  if Qle_bool (pow2 k) x then k else k - 1.

(** The nearest integer, a tie going to the even one. *)
Definition rne (x : Q) : Z :=
  let f := Qfloor x in
  match Qcompare (x - inject_Z f) (1 # 2) with
  | Lt => f
  | Gt => f + 1
  | Eq => if Z.even f then f else f + 1
  end.

(** A positive [x] rounded to 53 significant bits. *)
Definition nearest (x : Q) : Q :=
  let e := binade x in
  (inject_Z (rne (x * pow2 (52 - e))) * pow2 (e - 52))%Q.

Definition binary64 (x : Q) : Q :=
  match Qcompare x 0 with
  | Eq => 0%Q
  | Gt => Qred (nearest x)
  | Lt => Qred (- nearest (- x))
  end.

(** Half the distance from 1 to the next binary64 number, 2^-53: the
    largest relative error of one rounding. *)
Definition epsilon : Q := 1 # 9007199254740992.

(** [a / b] and [a * b] as the language computes them. *)
Definition Number_div (a b : Q) : Q := binary64 (a / b).

Definition Number_mul (a b : Q) : Q := binary64 (a * b).

(** The value of a binary64 number of the kernel, to compare [binary64]
    with the arithmetic of the processor. *)
Definition SF2Q (f : spec_float) : option Q :=
  match f with
  | S754_zero _ => Some 0%Q
  | S754_finite s m e =>
      Some ((if s then - inject_Z (Zpos m) else inject_Z (Zpos m)) * pow2 e)%Q
  | S754_infinity _ | S754_nan => None
  end.

Definition Prim2Q (f : float) : option Q := option_map Qred (SF2Q (Prim2SF f)).

Definition float_of_Z (n : Z) : float := PrimFloat.of_uint63 (Uint63.of_Z n).

(** [x] is the value of the binary64 number [f] of the processor. *)
Definition agrees (x : Q) (f : float) : bool :=
  match Prim2Q f with
  | Some q => Qeq_bool x q
  | None => false
  end.

(** [binary64] gives what the processor gives for the two operations of
    [resizeImage] on a side [w] and a bound [W]. *)
Definition agrees_on_ratio (W w : Z) : bool :=
  let ratio := PrimFloat.div (float_of_Z W) (float_of_Z w) in
  agrees (Number_div (inject_Z W) (inject_Z w)) ratio
  && agrees (Number_mul (inject_Z w) (Number_div (inject_Z W) (inject_Z w)))
       (PrimFloat.mul (float_of_Z w) ratio).

(** The same for the three operations of [compressImage] on sides [w]
    and [h] and a bound [W]. *)
Definition agrees_on_aspectRatio (W w h : Z) : bool :=
  let aspectRatio := PrimFloat.div (float_of_Z w) (float_of_Z h) in
  let a := Number_div (inject_Z w) (inject_Z h) in
  agrees a aspectRatio
  && agrees (Number_div (inject_Z W) a)
       (PrimFloat.div (float_of_Z W) aspectRatio)
  && agrees (Number_mul (inject_Z W) a)
       (PrimFloat.mul (float_of_Z W) aspectRatio).

(** *** Functions on numbers *)

(** [Math.round]: the nearest integer, a tie going towards +infinity. *)
Definition Math_round (x : Q) : Q := inject_Z (Qfloor (x + (1 # 2))).

(** Rounding half away from zero, the rule the specification names. *)
Definition round_half_away (x : Q) : Q :=
  if Qltb x 0 then inject_Z (- Qfloor (- x + (1 # 2)))
  else inject_Z (Qfloor (x + (1 # 2))).

(** [Number.isInteger] on a finite number. *)
Definition Number_isInteger (x : Q) : bool := Qeq_bool x (inject_Z (Qfloor x)).

(** A number that is a whole number. *)
Definition whole (x : Q) : Prop := exists n : Z, (x == inject_Z n)%Q.

(** Truthiness of a number: everything but zero (and NaN, not modelled). *)
Definition truthy (x : Q) : bool := negb (Qeq_bool x 0).

(** Conversion of a number to the [unsigned long] of [canvas.width] and
    [canvas.height]: the integer part, modulo 2^32. *)
Definition IntegerPart (x : Q) : Z :=
  if Qltb x 0 then - Qfloor (- x) else Qfloor x.

Definition ToUnsignedLong (x : Q) : Z := (IntegerPart x) mod 2 ^ 32.

(** ** Browser objects *)

Inductive Mime := image_jpeg | image_png.

Record File := {
  file_name : string;
  file_type : string;
  file_size : Z }.

Record HTMLImageElement := {
  img_src : string;
  img_width : Z;
  img_height : Z }.

(** A canvas after [drawImage]: its bitmap size and the image drawn on it. *)
Record Canvas := {
  canvas_width : Z;
  canvas_height : Z;
  canvas_image : HTMLImageElement }.

Record Blob := {
  blob_type : Mime;
  blob_data : list Byte.byte }.

Definition blob_size (b : Blob) : Z := Z.of_nat (List.length (blob_data b)).

Inductive JsError :=
| Error (message : string)
| TypeError (message : string).

Definition message (e : JsError) : string :=
  match e with Error m => m | TypeError m => m end.

(** The collaborators the component calls into. [codec c t q] is the byte
    string [canvas.toBlob] hands to its callback for type [t] and quality
    argument [q], [None] when it hands over [null]. [decodeUrl] and
    [decodeFile] are the outcome of loading a data URL or a file into an
    [Image]: [None] fires [onerror], anything else [onload]. *)
Record Browser := {
  codec : Canvas -> Mime -> Q -> option (list Byte.byte);
  toDataURL : Canvas -> Mime -> Q -> string;
  createObjectURL : Blob -> string;
  decodeUrl : string -> option HTMLImageElement;
  decodeFile : File -> option HTMLImageElement }.

(** One call of [canvas.toBlob]. *)
Record EncodeCall := {
  call_canvas : Canvas;
  call_type : Mime;
  call_quality : Q }.

(** ** Promises and asynchronous computations *)

Inductive Promise (A : Type) :=
| Fulfilled (a : A)
| Rejected (e : JsError)
| Pending.
Arguments Fulfilled {A} a.
Arguments Rejected {A} e.
Arguments Pending {A}.

Module Async.
Section Monad.
(** [W] is the mutable world an asynchronous function runs against. *)
Context {W : Type}.

Definition t (A : Type) : Type := W -> W * Promise A.

Definition ret {A} (a : A) : t A := fun w => (w, Fulfilled a).

Definition throw {A} (e : JsError) : t A := fun w => (w, Rejected e).

(** A promise nobody resolves: what follows an [await] on it never runs. *)
Definition never {A} : t A := fun w => (w, Pending).

Definition bind {A B} (m : t A) (k : A -> t B) : t B :=
  fun w =>
    match m w with
    | (w', Fulfilled a) => k a w'
    | (w', Rejected e) => (w', Rejected e)
    | (w', Pending) => (w', Pending)
    end.

(** [try { m } catch (err) { h err }] *)
Definition try_catch {A} (m : t A) (h : JsError -> t A) : t A :=
  fun w =>
    match m w with
    | (w', Rejected e) => h e w'
    | r => r
    end.

(** [try { m } finally { f }]; [f] does not run while [m] is pending. *)
Definition finally {A} (m : t A) (f : t unit) : t A :=
  fun w =>
    match m w with
    | (w', Pending) => (w', Pending)
    | (w', r) =>
        match f w' with
        | (w'', Fulfilled _) => (w'', r)
        | (w'', Rejected e) => (w'', Rejected e)
        | (w'', Pending) => (w'', Pending)
        end
    end.

Definition modify (f : W -> W) : t unit := fun w => (f w, Fulfilled tt).

Definition await {A} (p : Promise A) : t A := fun w => (w, p).
End Monad.
End Async.

Declare Scope async_scope.
Delimit Scope async_scope with async.
Notation "x <- m ;; k" := (Async.bind m (fun x => k))
  (at level 61, m at next level, right associativity) : async_scope.
Notation "' pat <- m ;; k" :=
  (Async.bind m (fun x => match x with pat => k end))
  (at level 61, pat pattern, m at next level, right associativity)
  : async_scope.
Notation "m ;; k" := (Async.bind m (fun _ => k))
  (at level 61, right associativity) : async_scope.

(** ** Data shared by the three revisions *)

Record ImageData := {
  id_file : File;
  id_dataUrl : string;
  id_width : Z;
  id_height : Z;
  id_size : Z }.

Record CompressedImage := {
  ci_blob : Blob;
  ci_dataUrl : string;
  ci_width : Q;
  ci_height : Q;
  ci_size : Z }.

(** A [targetSize]: a byte count, or [Infinity]. *)
Inductive TargetSize :=
| Bytes (n : Z)
| Infinity.

(** [n <= targetSize] *)
Definition size_le (n : Z) (t : TargetSize) : bool :=
  match t with
  | Bytes m => n <=? m
  | Infinity => true
  end.

(** [targetSize === Infinity] *)
Definition is_Infinity (t : TargetSize) : bool :=
  match t with
  | Infinity => true
  | Bytes _ => false
  end.

Record Size := {
  width : Q;
  height : Q }.

(** The component state of a revision together with the log of
    [canvas.toBlob] calls made so far (most recent first). *)
Record World (S : Type) := {
  ui : S;
  encodeLog : list EncodeCall }.
Arguments ui {S} w.
Arguments encodeLog {S} w.
Arguments Build_World {S} ui encodeLog.

(** [canvas.width = width; canvas.height = height] followed by
    [ctx.drawImage(img, 0, 0, width, height)]. A size that is negative
    or at least 2^31, for which a browser falls back to the default
    canvas of 300 by 150, is taken modulo 2^32 here. *)
Definition canvasOf (img : HTMLImageElement) (size : Size) : Canvas :=
  {| canvas_width := ToUnsignedLong (width size);
     canvas_height := ToUnsignedLong (height size);
     canvas_image := img |}.

(** [w] once the calls [calls] (most recent first) are logged on top. *)
Definition logged {S} (calls : list EncodeCall) (w : World S) : World S :=
  {| ui := ui w; encodeLog := calls ++ encodeLog w |}.

(** What the codec handed to the callback of a logged call. *)
Definition handed (B : Browser) (c : EncodeCall) : option (list byte) :=
  codec B (call_canvas c) (call_type c) (call_quality c).

(** The most recent [toBlob] call on record came back with [null]. *)
Definition lastEncodeNull {S} (B : Browser) (w : World S) : bool :=
  match encodeLog w with
  | c :: _ => match handed B c with None => true | Some _ => false end
  | [] => false
  end.

Definition set_ui {S} (f : S -> S) : Async.t (W := World S) unit :=
  Async.modify (fun w => {| ui := f (ui w); encodeLog := encodeLog w |}).

(** [await new Promise(resolve => canvas.toBlob(r => resolve(r!), type, q))]:
    the promise is fulfilled with whatever the codec hands over, [null]
    included, since the non-null assertion leaves no trace at run time. *)
Definition toBlob {S} (B : Browser) (canvas : Canvas) (type : Mime) (q : Q)
  : Async.t (W := World S) (option Blob) :=
  fun w =>
    ({| ui := ui w;
        encodeLog := {| call_canvas := canvas; call_type := type;
                        call_quality := q |} :: encodeLog w |},
     Fulfilled (option_map (Build_Blob type) (codec B canvas type q))).

(** ** Calls in flight

    A handler that calls an [async] function without awaiting it returns
    as soon as the function reaches its first [await]; the rest of the
    function runs later, when the awaited browser work comes back. The
    functions studied write to the component state only before their
    first [await] ([start]) or after their last one ([resume]), so a run
    of the component is a sequence of these two kinds of step, and the
    calls that are suspended in between are the calls in flight. *)

Module Scheduling.
Section Calls.
Context {S Task : Type}.
Variable start : Task -> Async.t (W := World S) unit.
Variable resume : Task -> Async.t (W := World S) unit.

Record Scheduler := {
  world : World S;
  issued : list Task;        (* every call made so far, in order of issue *)
  settled : list nat }.      (* the calls that have come back *)

(** A call is made and runs up to its first [await]. *)
Definition call (t : Task) (sc : Scheduler) : Scheduler :=
  {| world := fst (start t (world sc));
     issued := issued sc ++ [t];
     settled := settled sc |}.

(** The [n]-th call issued comes back and runs to its end. *)
Definition settle (n : nat) (sc : Scheduler) : Scheduler :=
  match nth_error (issued sc) n with
  | Some t =>
      if existsb (Nat.eqb n) (settled sc) then sc
      else {| world := fst (resume t (world sc));
              issued := issued sc;
              settled := n :: settled sc |}
  | None => sc
  end.

Definition idle (w : World S) : Scheduler :=
  {| world := w; issued := []; settled := [] |}.

(** The [n]-th call is in flight: issued, and not back yet. *)
Definition inFlight (sc : Scheduler) (n : nat) : Prop :=
  (n < List.length (issued sc))%nat /\ ~ In n (settled sc).
End Calls.
End Scheduling.

(** * The revision built around [processImage] *)

Module ProcessImageApp.

Local Open Scope string_scope.
Local Open Scope Z_scope.

Record State := {
  originalImage : option ImageData;
  compressedImage : option CompressedImage;
  isProcessing : bool;
  selectedPreset : string;
  quality : Z;
  customWidth : Q;
  customHeight : Q;
  error : option string;
  dimensionError : option string }.

(** The state the component mounts with (the [useState] defaults). *)
Definition initialState : State :=
  {| originalImage := None; compressedImage := None; isProcessing := false;
     selectedPreset := "etsy"; quality := 80; customWidth := 1920;
     customHeight := 1080; error := None; dimensionError := None |}.

Definition setOriginalImage (v : option ImageData) (s : State) : State :=
  {| originalImage := v; compressedImage := compressedImage s;
     isProcessing := isProcessing s; selectedPreset := selectedPreset s;
     quality := quality s; customWidth := customWidth s;
     customHeight := customHeight s; error := error s;
     dimensionError := dimensionError s |}.

Definition setCompressedImage (v : option CompressedImage) (s : State) : State :=
  {| originalImage := originalImage s; compressedImage := v;
     isProcessing := isProcessing s; selectedPreset := selectedPreset s;
     quality := quality s; customWidth := customWidth s;
     customHeight := customHeight s; error := error s;
     dimensionError := dimensionError s |}.

Definition setIsProcessing (v : bool) (s : State) : State :=
  {| originalImage := originalImage s; compressedImage := compressedImage s;
     isProcessing := v; selectedPreset := selectedPreset s;
     quality := quality s; customWidth := customWidth s;
     customHeight := customHeight s; error := error s;
     dimensionError := dimensionError s |}.

Definition setError (v : option string) (s : State) : State :=
  {| originalImage := originalImage s; compressedImage := compressedImage s;
     isProcessing := isProcessing s; selectedPreset := selectedPreset s;
     quality := quality s; customWidth := customWidth s;
     customHeight := customHeight s; error := v;
     dimensionError := dimensionError s |}.

(** [validateDimensions]: [None] is the source's [null]. *)
Definition validateDimensions (width height : Q) : option string :=
  if Qltb width 1 || Qltb height 1 then
    Some "Width and height must be at least 1 pixel"
  else if Qltb 8000 width || Qltb 8000 height then
    Some "Maximum dimensions are 8000×8000 pixels"
  else if negb (Number_isInteger width) || negb (Number_isInteger height) then
    Some "Dimensions must be whole numbers"
  else None.

Record Settings := {
  maxWidth : Q;
  maxHeight : Q;
  targetSize : TargetSize;
  exactResize : option bool }.

(** [getPresetSettings]; [s] is the state the closure was rendered with,
    read for the custom bounds. *)
Definition getPresetSettings (s : State) (preset : string) : Settings :=
  if String.eqb preset "etsy" then
    {| maxWidth := 2000; maxHeight := 2000;
       targetSize := Bytes (500 * 1024); exactResize := None |}
  else if String.eqb preset "shopee" then
    {| maxWidth := 3000; maxHeight := 3000;
       targetSize := Bytes (2 * 1024 * 1024); exactResize := None |}
  else if String.eqb preset "linkedin" then
    {| maxWidth := 1584; maxHeight := 396;
       targetSize := Bytes (2 * 1024 * 1024); exactResize := Some true |}
  else if String.eqb preset "custom" then
    {| maxWidth := customWidth s; maxHeight := customHeight s;
       targetSize := Infinity; exactResize := None |}
  else
    {| maxWidth := 2000; maxHeight := 2000;
       targetSize := Bytes (500 * 1024); exactResize := None |}.

(** [resizeImage]: the canvas it sizes and draws on, and the pair it
    returns. A missing [exactResize] takes the default [false]. *)
Definition resizeImage (img : HTMLImageElement) (maxWidth maxHeight : Q)
    (exactResize : option bool) : Canvas * Size :=
  let exactResize := match exactResize with Some b => b | None => false end in
  let width := inject_Z (img_width img) in
  let height := inject_Z (img_height img) in
  let '(width, height) :=
    if exactResize then (maxWidth, maxHeight)
    else
      let ratio :=
        Math_min (Number_div maxWidth width) (Number_div maxHeight height) in
      if Qltb ratio 1 then (Number_mul width ratio, Number_mul height ratio)
      else (width, height) in
  let size := {| width := width; height := height |} in
  (canvasOf img size, size).

Record EncodeResult := {
  blob : Blob;
  finalQuality : Z }.

Section Encoder.
Variable B : Browser.
Variable canvas : Canvas.
Variable targetSize : TargetSize.

(** The [do ... while] loop of [compressToTargetSize], entered with
    [currentQuality]. Reading [blob.size] of a [null] blob throws. *)
Equations? compressToTargetSize_loop (currentQuality : Z)
  : Async.t (W := World State) EncodeResult
  by wf (Z.to_nat (currentQuality - 50)) lt :=
  compressToTargetSize_loop currentQuality :=
    (result <- toBlob B canvas image_jpeg (inject_Z currentQuality / 100) ;;
     match result with
     | None => Async.throw (TypeError "Cannot read properties of null (reading 'size')")
     | Some blob =>
         if size_le (blob_size blob) targetSize || (currentQuality <=? 50)
         then Async.ret {| blob := blob; finalQuality := currentQuality |}
         else
           match Z_lt_dec 50 (currentQuality - 5) with
           | left _ => compressToTargetSize_loop (currentQuality - 5)
           | right _ =>
               Async.ret {| blob := blob; finalQuality := currentQuality - 5 |}
           end
     end)%async.
Proof. lia. Qed.

Definition compressToTargetSize (initialQuality : Z)
  : Async.t (W := World State) EncodeResult :=
  compressToTargetSize_loop initialQuality.
End Encoder.

(** Truthiness of an optional numeric argument ([undefined] is falsy). *)
Definition truthy_arg (x : option Q) : bool :=
  match x with
  | Some v => truthy v
  | None => false
  end.

Definition arg_or (x : option Q) (d : Q) : Q :=
  match x with
  | Some v => v
  | None => d
  end.

(** The arguments of one call of [processImage], and the state its
    enclosing render saw ([req_closure], read by [getPresetSettings]). *)
Record Request := {
  req_imageData : ImageData;
  req_preset : string;
  req_qualityValue : Z;
  req_customW : option Q;
  req_customH : option Q;
  req_closure : State }.

(** The [settings] a call of [processImage] works with. *)
Definition requestSettings (r : Request) : Settings :=
  if String.eqb (req_preset r) "custom"
     && truthy_arg (req_customW r) && truthy_arg (req_customH r)
  then {| maxWidth := arg_or (req_customW r) 0;
          maxHeight := arg_or (req_customH r) 0;
          targetSize := Infinity; exactResize := None |}
  else getPresetSettings (req_closure r) (req_preset r).

Section Process.
Variable B : Browser.

(** [img.src = dataUrl; await new Promise(r => img.onload = r)]: only
    [onload] is hooked, so a failed load leaves the promise pending. *)
Definition loadDataUrl (dataUrl : string)
  : Async.t (W := World State) HTMLImageElement :=
  match decodeUrl B dataUrl with
  | Some img => Async.ret img
  | None => Async.never
  end.

(** [URL.createObjectURL(blob)]; it throws on [null]. *)
Definition createObjectURL_of (b : option Blob)
  : Async.t (W := World State) (Blob * string) :=
  match b with
  | Some blob => Async.ret (blob, createObjectURL B blob)
  | None =>
      Async.throw
        (TypeError "Failed to execute 'createObjectURL' on 'URL': Overload resolution failed.")
  end.

(** The output type asked of the codec on the unbudgeted path. *)
Definition outputType (imageData : ImageData) : Mime :=
  if String.eqb (file_type (id_file imageData)) "image/png"
  then image_png else image_jpeg.

(** [processImage] up to its first [await]. *)
Definition processImage_start : Async.t (W := World State) unit :=
  (set_ui (setIsProcessing true) ;;
   set_ui (setError None))%async.

(** [processImage] from the [try] block to the end: all that runs once
    the awaited browser work comes back. *)
Definition processImage_resume (r : Request)
  : Async.t (W := World State) unit :=
  Async.finally
    (Async.try_catch
       (let settings := requestSettings r in
        img <- loadDataUrl (id_dataUrl (req_imageData r)) ;;
        let '(canvas, dimensions) :=
          resizeImage img (maxWidth settings) (maxHeight settings)
            (exactResize settings) in
        blob <-
          (if is_Infinity (targetSize settings) then
             toBlob B canvas (outputType (req_imageData r))
               (inject_Z (req_qualityValue r) / 100)
           else
             result <- compressToTargetSize B canvas (targetSize settings)
                         (req_qualityValue r) ;;
             Async.ret (Some (blob result))) ;;
        '(blob, compressedDataUrl) <- createObjectURL_of blob ;;
        set_ui (setCompressedImage
                  (Some {| ci_blob := blob;
                           ci_dataUrl := compressedDataUrl;
                           ci_width := width dimensions;
                           ci_height := height dimensions;
                           ci_size := blob_size blob |})))%async
       (fun err => set_ui (setError (Some (message err)))))
    (set_ui (setIsProcessing false)).

Definition processImage (r : Request) : Async.t (W := World State) unit :=
  (processImage_start ;; processImage_resume r)%async.
End Process.

(** *** Notions used to state what the functions above do *)

(** The names [getPresetSettings] has a [case] for. *)
Definition knownPresets : list string :=
  ["etsy"; "shopee"; "linkedin"; "custom"].

(** The call [compressToTargetSize] makes at quality [q]. *)
Definition jpegCall (canvas : Canvas) (q : Z) : EncodeCall :=
  {| call_canvas := canvas; call_type := image_jpeg;
     call_quality := inject_Z q / 100 |}.

Definition jpegBlob (data : list byte) : Blob :=
  {| blob_type := image_jpeg; blob_data := data |}.

(** The runs of the quality descent, as a relation between the quality
    the loop is entered with, the calls it logs and how it ends. *)
Inductive descent (B : Browser) (canvas : Canvas) (t : TargetSize)
  : Z -> list EncodeCall -> Promise EncodeResult -> Prop :=
| descent_null q :
    codec B canvas image_jpeg (inject_Z q / 100) = None ->
    descent B canvas t q [jpegCall canvas q]
      (Rejected (TypeError "Cannot read properties of null (reading 'size')"))
| descent_break q data :
    codec B canvas image_jpeg (inject_Z q / 100) = Some data ->
    size_le (blob_size (jpegBlob data)) t || (q <=? 50) = true ->
    descent B canvas t q [jpegCall canvas q]
      (Fulfilled {| blob := jpegBlob data; finalQuality := q |})
| descent_exit q data :
    codec B canvas image_jpeg (inject_Z q / 100) = Some data ->
    size_le (blob_size (jpegBlob data)) t || (q <=? 50) = false ->
    q - 5 <= 50 ->
    descent B canvas t q [jpegCall canvas q]
      (Fulfilled {| blob := jpegBlob data; finalQuality := q - 5 |})
| descent_step q data calls p :
    codec B canvas image_jpeg (inject_Z q / 100) = Some data ->
    size_le (blob_size (jpegBlob data)) t || (q <=? 50) = false ->
    50 < q - 5 ->
    descent B canvas t (q - 5) calls p ->
    descent B canvas t q (calls ++ [jpegCall canvas q]) p.

(** What the resumed part of a call does to the component state. *)
Inductive Effect :=
| Published (c : CompressedImage)
| Failed (msg : string)
| Suspended.

Definition effect (e : Effect) (s : State) : State :=
  match e with
  | Published c => setIsProcessing false (setCompressedImage (Some c) s)
  | Failed msg => setIsProcessing false (setError (Some msg) s)
  | Suspended => s
  end.

Definition settles (e : Effect) : Promise unit :=
  match e with
  | Suspended => Pending
  | _ => Fulfilled tt
  end.

(** The type [processImage] asks the codec for. *)
Definition requestedType (r : Request) : Mime :=
  if is_Infinity (targetSize (requestSettings r))
  then outputType (req_imageData r) else image_jpeg.

End ProcessImageApp.

(** * The revision built around [recompressImage] *)

(** [type Preset = 'etsy' | 'shopee' | 'linkedin' | 'custom'], shared by
    this revision and [src/App.tsx]. *)
Inductive Preset := etsy | shopee | linkedin | custom.

Definition Preset_eqb (a b : Preset) : bool :=
  match a, b with
  | etsy, etsy | shopee, shopee | linkedin, linkedin | custom, custom => true
  | _, _ => false
  end.

Record PresetConfig := {
  name : string;
  targetSize : Z;
  maxWidth : Q;
  maxHeight : Q;
  exactResize : option bool }.

Module RecompressApp.

Local Open Scope string_scope.
Local Open Scope Z_scope.

Definition MAX_DIMENSIONS : Q := 8000.

Definition PRESETS (p : Preset) : PresetConfig :=
  match p with
  | etsy =>
      {| name := "Etsy"; targetSize := 500 * 1024;
         maxWidth := 2000; maxHeight := 2000; exactResize := None |}
  | shopee =>
      {| name := "Shopee"; targetSize := 2 * 1024 * 1024;
         maxWidth := 3000; maxHeight := 3000; exactResize := None |}
  | linkedin =>
      {| name := "LinkedIn Banner"; targetSize := 2 * 1024 * 1024;
         maxWidth := 1584; maxHeight := 396; exactResize := Some true |}
  | custom =>
      {| name := "Custom"; targetSize := 1 * 1024 * 1024;
         maxWidth := 1920; maxHeight := 1080; exactResize := None |}
  end.

Record State := {
  originalImage : option ImageData;
  compressedImage : option CompressedImage;
  selectedPreset : Preset;
  quality : Z;
  isProcessing : bool;
  error : option string;
  customWidth : Q;
  customHeight : Q;
  dimensionError : option string }.

(** The state the component mounts with (the [useState] defaults). *)
Definition initialState : State :=
  {| originalImage := None; compressedImage := None; selectedPreset := etsy;
     quality := 80; isProcessing := false; error := None;
     customWidth := 1920; customHeight := 1080; dimensionError := None |}.

Definition setOriginalImage (v : option ImageData) (s : State) : State :=
  {| originalImage := v; compressedImage := compressedImage s;
     selectedPreset := selectedPreset s; quality := quality s;
     isProcessing := isProcessing s; error := error s;
     customWidth := customWidth s; customHeight := customHeight s;
     dimensionError := dimensionError s |}.

Definition setSelectedPreset (v : Preset) (s : State) : State :=
  {| originalImage := originalImage s; compressedImage := compressedImage s;
     selectedPreset := v; quality := quality s;
     isProcessing := isProcessing s; error := error s;
     customWidth := customWidth s; customHeight := customHeight s;
     dimensionError := dimensionError s |}.

Definition setCustomWidth (v : Q) (s : State) : State :=
  {| originalImage := originalImage s; compressedImage := compressedImage s;
     selectedPreset := selectedPreset s; quality := quality s;
     isProcessing := isProcessing s; error := error s;
     customWidth := v; customHeight := customHeight s;
     dimensionError := dimensionError s |}.

Definition setCustomHeight (v : Q) (s : State) : State :=
  {| originalImage := originalImage s; compressedImage := compressedImage s;
     selectedPreset := selectedPreset s; quality := quality s;
     isProcessing := isProcessing s; error := error s;
     customWidth := customWidth s; customHeight := v;
     dimensionError := dimensionError s |}.

Definition setCompressedImage (v : option CompressedImage) (s : State) : State :=
  {| originalImage := originalImage s; compressedImage := v;
     selectedPreset := selectedPreset s; quality := quality s;
     isProcessing := isProcessing s; error := error s;
     customWidth := customWidth s; customHeight := customHeight s;
     dimensionError := dimensionError s |}.

Definition setIsProcessing (v : bool) (s : State) : State :=
  {| originalImage := originalImage s; compressedImage := compressedImage s;
     selectedPreset := selectedPreset s; quality := quality s;
     isProcessing := v; error := error s;
     customWidth := customWidth s; customHeight := customHeight s;
     dimensionError := dimensionError s |}.

Definition setError (v : option string) (s : State) : State :=
  {| originalImage := originalImage s; compressedImage := compressedImage s;
     selectedPreset := selectedPreset s; quality := quality s;
     isProcessing := isProcessing s; error := v;
     customWidth := customWidth s; customHeight := customHeight s;
     dimensionError := dimensionError s |}.

Definition setDimensionError (v : option string) (s : State) : State :=
  {| originalImage := originalImage s; compressedImage := compressedImage s;
     selectedPreset := selectedPreset s; quality := quality s;
     isProcessing := isProcessing s; error := error s;
     customWidth := customWidth s; customHeight := customHeight s;
     dimensionError := v |}.

(** [validateDimensions]: [None] is the source's [null]. *)
Definition validateDimensions (width height : Q) : option string :=
  if negb (Number_isInteger width) || negb (Number_isInteger height) then
    Some "Width and height must be whole numbers."
  else if Qle_bool width 0 || Qle_bool height 0 then
    Some "Width and height must be positive numbers."
  else if Qltb MAX_DIMENSIONS width || Qltb MAX_DIMENSIONS height then
    Some "Width and height must be less than 8000px."
  else None.

(** The two [if] statements both non-banner branches of [compressImage]
    spell out: cap the width, then cap the height, each time recomputing
    the other axis from the source's aspect ratio. *)
Definition scaleDown (width height aspectRatio maxWidth maxHeight : Q) : Q * Q :=
  let '(width, height) :=
    if Qltb maxWidth width
    then (maxWidth, Math_round (Number_div maxWidth aspectRatio))
    else (width, height) in
  if Qltb maxHeight height
  then (Math_round (Number_mul maxHeight aspectRatio), maxHeight)
  else (width, height).

(** The output size [compressImage] settles on before it draws. *)
Definition resolveSize (img : HTMLImageElement) (preset : Preset)
    (customDimensions : option Size) : Size :=
  let width := inject_Z (img_width img) in
  let height := inject_Z (img_height img) in
  let '(width, height) :=
    match preset, customDimensions with
    | linkedin, _ =>
        (maxWidth (PRESETS linkedin), maxHeight (PRESETS linkedin))
    | custom, Some {| width := maxWidth; height := maxHeight |} =>
        let aspectRatio :=
          Number_div (inject_Z (img_width img)) (inject_Z (img_height img)) in
        scaleDown width height aspectRatio maxWidth maxHeight
    | _, _ =>
        let presetConfig := PRESETS preset in
        let aspectRatio :=
          Number_div (inject_Z (img_width img)) (inject_Z (img_height img)) in
        scaleDown width height aspectRatio
          (maxWidth presetConfig) (maxHeight presetConfig)
    end in
  {| width := width; height := height |}.

Section Compress.
Variable B : Browser.

(** [loadImage]: rejects when the file does not decode. *)
Definition loadImage (file : File)
  : Async.t (W := World State) HTMLImageElement :=
  match decodeFile B file with
  | Some img => Async.ret img
  | None => Async.throw (Error "Failed to load image. The file may be corrupted.")
  end.

(** [compressImage]: one [toBlob] call; a [null] blob rejects. *)
Definition compressImage (img : HTMLImageElement) (preset : Preset)
    (customQuality : Z) (customDimensions : option Size)
  : Async.t (W := World State) CompressedImage :=
  let size := resolveSize img preset customDimensions in
  let canvas := canvasOf img size in
  (blob <- toBlob B canvas image_jpeg (inject_Z customQuality / 100) ;;
   match blob with
   | None =>
       Async.throw (Error "Failed to compress image: canvas.toBlob returned null.")
   | Some blob =>
       let dataUrl := toDataURL B canvas image_jpeg (inject_Z customQuality / 100) in
       Async.ret {| ci_blob := blob; ci_dataUrl := dataUrl;
                    ci_width := width size; ci_height := height size;
                    ci_size := blob_size blob |}
   end)%async.

(** How a block of statements ends: by falling through, or by [return]. *)
Inductive Flow := Continue | Return.

(** [recompressImage] up to its first [await], for a call that got past
    [if (!originalImage) return]. *)
Definition recompressImage_start : Async.t (W := World State) unit :=
  (set_ui (setIsProcessing true) ;;
   set_ui (setError None) ;;
   set_ui (setDimensionError None))%async.

(** [recompressImage] from the [try] block to the end, called from a
    render that saw state [s] with [originalImage] set. *)
Definition recompressImage_resume (s : State) (originalImage : ImageData)
  : Async.t (W := World State) unit :=
  (flow <-
     Async.try_catch
       (img <- loadImage (id_file originalImage) ;;
        checked <-
          (if Preset_eqb (selectedPreset s) custom then
             match validateDimensions (customWidth s) (customHeight s) with
             | Some validationError =>
                 set_ui (setDimensionError (Some validationError)) ;;
                 set_ui (setIsProcessing false) ;;
                 Async.ret (Return, None)
             | None =>
                 Async.ret (Continue,
                            Some {| width := customWidth s;
                                    height := customHeight s |})
             end
           else Async.ret (Continue, None)) ;;
        match checked with
        | (Return, _) => Async.ret Return
        | (Continue, customDimensions) =>
            compressed <- compressImage img (selectedPreset s) (quality s)
                            customDimensions ;;
            set_ui (setCompressedImage (Some compressed)) ;;
            Async.ret Continue
        end)
       (fun err =>
          set_ui (setError (Some "Failed to reprocess image. Please try again.")) ;;
          Async.ret Continue) ;;
   match flow with
   | Return => Async.ret tt
   | Continue => set_ui (setIsProcessing false)
   end)%async.

(** [recompressImage], called from a render that saw state [s]. *)
Definition recompressImage (s : State) : Async.t (W := World State) unit :=
  match originalImage s with
  | None => Async.ret tt
  | Some originalImage =>
      (recompressImage_start ;; recompressImage_resume s originalImage)%async
  end.
End Compress.

(** *** Notions used to state what the functions above do *)

(** Custom bounds the specification calls invalid: on either axis
    non-positive, not a whole number, or beyond the hard maximum. *)
Definition invalidAxis (x : Q) : Prop :=
  (x <= 0)%Q \/ ~ whole x \/ (MAX_DIMENSIONS < x)%Q.

Definition invalidBounds (W H : Q) : Prop := invalidAxis W \/ invalidAxis H.

(** The custom bounds [recompressImage] passes on once they validated. *)
Definition passedDimensions (s : State) : option Size :=
  if Preset_eqb (selectedPreset s) custom
  then Some {| width := customWidth s; height := customHeight s |}
  else None.

(** *** Editing the custom dimensions

    Two places call [recompressImage] after an edit of a dimension
    field. The effect on [[selectedPreset, customWidth, customHeight]]
    runs after the render that follows the edit and calls it at once,
    unless the component is processing or the bounds do not validate.
    The timeout [handleCustomDimensionChange] schedules calls it a second
    later, with no such test, from the closure of the render in which
    the edit was made. The events below are those of the two fields and
    the completions of calls; [handleFile], [handlePresetChange],
    [handleQualityChange] and [resetApp] are not among them. *)

Inductive Dimension := Width | Height.

Inductive Event :=
| CustomDimensionChange (dimension : Dimension) (numValue : Z)
                             (* a field fires [onChange]; [numValue] is
                                [parseInt(value) || 0] *)
| TimeoutFires               (* the pending timeout elapses *)
| Settle (n : nat).          (* the n-th call issued comes back *)

(** A call in flight: the render it closes over and its [originalImage]. *)
Definition Call : Type := State * ImageData.

Record Page := {
  calls : @Scheduling.Scheduler State Call;
  timeout : option State }.   (* the pending timeout: the render its
                                 callback closes over *)

Section Editing.
Variable B : Browser.

(** A call of the [recompressImage] of render [s]. *)
Definition callRecompressImage (s : State)
    (sc : @Scheduling.Scheduler State Call) : @Scheduling.Scheduler State Call :=
  match originalImage s with
  | None => sc
  | Some originalImage =>
      Scheduling.call (fun _ => recompressImage_start) (s, originalImage) sc
  end.

(** The [n]-th call of [recompressImage] comes back. *)
Definition comesBack (n : nat) (sc : @Scheduling.Scheduler State Call)
  : @Scheduling.Scheduler State Call :=
  Scheduling.settle (fun c : Call => recompressImage_resume B (fst c) (snd c))
    n sc.

(** The body of the effect, run after a render that saw state [s]. *)
Definition recompressEffect (s : State)
    (sc : @Scheduling.Scheduler State Call) : @Scheduling.Scheduler State Call :=
  match originalImage s with
  | None => sc
  | Some _ =>
      if isProcessing s then sc
      else if Preset_eqb (selectedPreset s) custom then
        match validateDimensions (customWidth s) (customHeight s) with
        | Some validationError =>
            {| Scheduling.world :=
                 fst (set_ui (setDimensionError (Some validationError))
                        (Scheduling.world sc));
               Scheduling.issued := Scheduling.issued sc;
               Scheduling.settled := Scheduling.settled sc |}
        | None => callRecompressImage s sc
        end
      else callRecompressImage s sc
  end.

(** The state writes of [handleCustomDimensionChange], run from a render
    that saw state [s]. *)
Definition editState (s : State) (dimension : Dimension) (numValue : Z)
    (now : State) : State :=
  let now := match dimension with
             | Width => setCustomWidth (inject_Z numValue) now
             | Height => setCustomHeight (inject_Z numValue) now
             end in
  match dimensionError s with
  | Some _ => setDimensionError None now
  | None => now
  end.

Definition sameDimensions (a b : State) : bool :=
  Qeq_bool (customWidth a) (customWidth b)
  && Qeq_bool (customHeight a) (customHeight b).

Definition dispatch (p : Page) (e : Event) : Page :=
  let s := ui (Scheduling.world (calls p)) in
  match e with
  | CustomDimensionChange dimension numValue =>
      if isProcessing s then p          (* the fields are disabled *)
      else
        let s' := editState s dimension numValue s in
        let sc := {| Scheduling.world :=
                       {| ui := s';
                          encodeLog := encodeLog (Scheduling.world (calls p)) |};
                     Scheduling.issued := Scheduling.issued (calls p);
                     Scheduling.settled := Scheduling.settled (calls p) |} in
        {| calls := if sameDimensions s s' then sc else recompressEffect s' sc;
           timeout :=
             match originalImage s with
             | Some _ =>
                 if Preset_eqb (selectedPreset s) custom && (0 <? numValue)
                 then Some s else None
             | None => None
             end |}
  | TimeoutFires =>
      match timeout p with
      | Some s0 =>
          {| calls := if Preset_eqb (selectedPreset s0) custom
                      then callRecompressImage s0 (calls p) else calls p;
             timeout := None |}
      | None => p
      end
  | Settle n => {| calls := comesBack n (calls p); timeout := timeout p |}
  end.

Definition run (p : Page) (es : list Event) : Page := fold_left dispatch es p.
End Editing.

Definition idle (s : State) : Page :=
  {| calls := Scheduling.idle {| ui := s; encodeLog := [] |};
     timeout := None |}.

(** What the component shows as the current compressed image. *)
Definition current (p : Page) : option CompressedImage :=
  compressedImage (ui (Scheduling.world (calls p))).

(** What the resumed part of a call does to the component state. *)
Inductive Effect :=
| Published (c : CompressedImage)
| Failed
| Refused (validationError : string).

Definition effect (e : Effect) (s : State) : State :=
  match e with
  | Published c => setIsProcessing false (setCompressedImage (Some c) s)
  | Failed =>
      setIsProcessing false
        (setError (Some "Failed to reprocess image. Please try again.") s)
  | Refused validationError =>
      setIsProcessing false (setDimensionError (Some validationError) s)
  end.

(** The requests [compressImage] resolves by fitting the source within
    bounds [(W, H)]: the two marketplace presets with their table entry,
    and the custom preset with the dimensions handed in, which every
    caller validates first (without them it falls back on its entry). *)
Inductive fitsWithin : Preset -> option Size -> Q -> Q -> Prop :=
| fits_etsy d : fitsWithin etsy d 2000 2000
| fits_shopee d : fitsWithin shopee d 3000 3000
| fits_custom W H :
    validateDimensions W H = None ->
    fitsWithin custom (Some {| width := W; height := H |}) W H
| fits_custom_default : fitsWithin custom None 1920 1080.

End RecompressApp.

(** * [src/App.tsx]: a single encode per request *)

Module SingleEncodeApp.

Local Open Scope string_scope.
Local Open Scope Z_scope.

Definition PRESETS (p : Preset) : PresetConfig :=
  match p with
  | etsy =>
      {| name := "Etsy"; targetSize := 500 * 1024;
         maxWidth := 2000; maxHeight := 2000; exactResize := None |}
  | shopee =>
      {| name := "Shopee"; targetSize := 2 * 1024 * 1024;
         maxWidth := 3000; maxHeight := 3000; exactResize := None |}
  | linkedin =>
      {| name := "LinkedIn Banner"; targetSize := 8 * 1024 * 1024;
         maxWidth := 1584; maxHeight := 396; exactResize := Some true |}
  | custom =>
      {| name := "Custom"; targetSize := 1 * 1024 * 1024;
         maxWidth := 1920; maxHeight := 1080; exactResize := None |}
  end.

Record State := {
  originalImage : option ImageData;
  compressedImage : option CompressedImage;
  selectedPreset : Preset;
  quality : Z;
  isProcessing : bool;
  error : option string }.

(** The state the component mounts with (the [useState] defaults). *)
Definition initialState : State :=
  {| originalImage := None; compressedImage := None; selectedPreset := etsy;
     quality := 80; isProcessing := false; error := None |}.

Definition setOriginalImage (v : option ImageData) (s : State) : State :=
  {| originalImage := v; compressedImage := compressedImage s;
     selectedPreset := selectedPreset s; quality := quality s;
     isProcessing := isProcessing s; error := error s |}.

Definition setCompressedImage (v : option CompressedImage) (s : State) : State :=
  {| originalImage := originalImage s; compressedImage := v;
     selectedPreset := selectedPreset s; quality := quality s;
     isProcessing := isProcessing s; error := error s |}.

Definition setSelectedPreset (v : Preset) (s : State) : State :=
  {| originalImage := originalImage s; compressedImage := compressedImage s;
     selectedPreset := v; quality := quality s;
     isProcessing := isProcessing s; error := error s |}.

Definition setIsProcessing (v : bool) (s : State) : State :=
  {| originalImage := originalImage s; compressedImage := compressedImage s;
     selectedPreset := selectedPreset s; quality := quality s;
     isProcessing := v; error := error s |}.

Definition setError (v : option string) (s : State) : State :=
  {| originalImage := originalImage s; compressedImage := compressedImage s;
     selectedPreset := selectedPreset s; quality := quality s;
     isProcessing := isProcessing s; error := v |}.

(** The output size [compressImage] settles on; [Math.round] is not
    applied. *)
Definition resolveSize (img : HTMLImageElement) (preset : Preset) : Size :=
  let presetConfig := PRESETS preset in
  let width := inject_Z (img_width img) in
  let height := inject_Z (img_height img) in
  let '(width, height) :=
    if Preset_eqb preset linkedin then
      (maxWidth presetConfig, maxHeight presetConfig)
    else
      let aspectRatio := Number_div width height in
      let '(width, height) :=
        if Qltb (maxWidth presetConfig) width
        then (maxWidth presetConfig,
              Number_div (maxWidth presetConfig) aspectRatio)
        else (width, height) in
      if Qltb (maxHeight presetConfig) height
      then (Number_mul (maxHeight presetConfig) aspectRatio,
            maxHeight presetConfig)
      else (width, height) in
  {| width := width; height := height |}.

Section Compress.
Variable B : Browser.

Definition loadImage (file : File)
  : Async.t (W := World State) HTMLImageElement :=
  match decodeFile B file with
  | Some img => Async.ret img
  | None => Async.throw (Error "Failed to load image")
  end.

(** [compressImage]: the promise is resolved inside [if (blob)] and
    nowhere else, and no [reject] is taken from the executor. *)
Definition compressImage (img : HTMLImageElement) (preset : Preset)
    (customQuality : Z) : Async.t (W := World State) CompressedImage :=
  let size := resolveSize img preset in
  let canvas := canvasOf img size in
  (blob <- toBlob B canvas image_jpeg (inject_Z customQuality / 100) ;;
   match blob with
   | Some blob =>
       let dataUrl := toDataURL B canvas image_jpeg (inject_Z customQuality / 100) in
       Async.ret {| ci_blob := blob; ci_dataUrl := dataUrl;
                    ci_width := width size; ci_height := height size;
                    ci_size := blob_size blob |}
   | None => Async.never
   end)%async.

(** [handlePresetChange], called from a render that saw state [s]. *)
Definition handlePresetChange (s : State) (preset : Preset)
  : Async.t (W := World State) unit :=
  (set_ui (setSelectedPreset preset) ;;
   match originalImage s with
   | None => Async.ret tt
   | Some originalImage =>
       set_ui (setIsProcessing true) ;;
       Async.try_catch
         (img <- loadImage (id_file originalImage) ;;
          compressed <- compressImage img preset (quality s) ;;
          set_ui (setCompressedImage (Some compressed)))
         (fun err => set_ui (setError (Some "Failed to reprocess image."))) ;;
       set_ui (setIsProcessing false)
   end)%async.
End Compress.

End SingleEncodeApp.

(** * Concrete inputs *)

Module Samples.

Local Open Scope string_scope.
Local Open Scope Z_scope.

Definition zeros (n : Z) : list byte := repeat x00 (Z.to_nat n).

(** A browser in which every load yields [img]; its codec hands over
    [null] for a canvas without area, ten bytes per quality point for a
    JPEG and a flat 2000 bytes for a PNG. *)
Definition browserWith (img : HTMLImageElement) : Browser :=
  {| codec := fun c t q =>
       if (canvas_width c =? 0) || (canvas_height c =? 0) then None
       else match t with
            | image_jpeg => Some (zeros (Qfloor (q * 1000)))
            | image_png => Some (zeros 2000)
            end;
     toDataURL := fun _ _ _ => "data:image/jpeg;base64,";
     createObjectURL := fun _ => "blob:compressed";
     decodeUrl := fun _ => Some img;
     decodeFile := fun _ => Some img |}.

Definition photo : HTMLImageElement :=
  {| img_src := "blob:photo"; img_width := 4000; img_height := 3000 |}.

(** One pixel high: scaling it to 2000 wide leaves a quarter of a pixel. *)
Definition ribbon : HTMLImageElement :=
  {| img_src := "blob:ribbon"; img_width := 8000; img_height := 1 |}.

Definition scan : HTMLImageElement :=
  {| img_src := "blob:scan"; img_width := 4000; img_height := 3001 |}.

Definition thumbnail : HTMLImageElement :=
  {| img_src := "blob:thumbnail"; img_width := 800; img_height := 600 |}.

(** Sources whose scaled sides are not binary64 numbers. *)
Definition panorama : HTMLImageElement :=
  {| img_src := "blob:panorama"; img_width := 2141; img_height := 1000 |}.

Definition poster : HTMLImageElement :=
  {| img_src := "blob:poster"; img_width := 2080; img_height := 1027 |}.

Definition sliver : HTMLImageElement :=
  {| img_src := "blob:sliver"; img_width := 1; img_height := 98 |}.

Definition portrait : HTMLImageElement :=
  {| img_src := "blob:portrait"; img_width := 1206; img_height := 2400 |}.

Definition jpegFile : File :=
  {| file_name := "photo.jpg"; file_type := "image/jpeg";
     file_size := 3000000 |}.

Definition pngFile : File :=
  {| file_name := "photo.png"; file_type := "image/png";
     file_size := 3000000 |}.

Definition dataOf (f : File) (img : HTMLImageElement) : ImageData :=
  {| id_file := f; id_dataUrl := img_src img; id_width := img_width img;
     id_height := img_height img; id_size := file_size f |}.

Definition smallCanvas : Canvas :=
  {| canvas_width := 2000; canvas_height := 1500; canvas_image := photo |}.

(** [processImage] revision: an image is loaded, nothing is published. *)
Definition loaded : ProcessImageApp.State :=
  ProcessImageApp.setOriginalImage (Some (dataOf jpegFile photo))
    ProcessImageApp.initialState.

Definition request (f : File) (img : HTMLImageElement) (preset : string)
    (q : Z) : ProcessImageApp.Request :=
  {| ProcessImageApp.req_imageData := dataOf f img;
     ProcessImageApp.req_preset := preset;
     ProcessImageApp.req_qualityValue := q;
     ProcessImageApp.req_customW := None;
     ProcessImageApp.req_customH := None;
     ProcessImageApp.req_closure := loaded |}.

(** What [processImage] publishes in the sample browser for a JPEG
    source at quality [q] when [resizeImage] returns [w] by [h]: ten
    bytes per quality point. *)
Definition processed (w h : Q) (q : Z) : CompressedImage :=
  {| ci_blob := {| blob_type := image_jpeg; blob_data := zeros (10 * q) |};
     ci_dataUrl := "blob:compressed";
     ci_width := w;
     ci_height := h;
     ci_size := 10 * q |}.

(** [recompressImage] revision: the photo is loaded, the custom preset is
    selected and an earlier result is on display. *)
Definition earlier : CompressedImage :=
  {| ci_blob := {| blob_type := image_jpeg; blob_data := zeros 640 |};
     ci_dataUrl := "data:image/jpeg;base64,"; ci_width := 1440;
     ci_height := 1080; ci_size := 640 |}.

Definition customising (img : HTMLImageElement) (W H : Q)
  : RecompressApp.State :=
  RecompressApp.setCustomHeight H
    (RecompressApp.setCustomWidth W
       (RecompressApp.setSelectedPreset custom
          (RecompressApp.setCompressedImage (Some earlier)
             (RecompressApp.setOriginalImage (Some (dataOf jpegFile img))
                RecompressApp.initialState)))).

(** The same with nothing on display yet. *)
Definition customisingFirst (img : HTMLImageElement) (W H : Q)
  : RecompressApp.State :=
  RecompressApp.setCompressedImage None (customising img W H).

(** What the sample browser makes of the photo at quality 80 when
    [compressImage] resolves it to [w] by [h]. *)
Definition customResult (w h : Q) : CompressedImage :=
  {| ci_blob := {| blob_type := image_jpeg; blob_data := zeros 800 |};
     ci_dataUrl := "data:image/jpeg;base64,";
     ci_width := w; ci_height := h; ci_size := 800 |}.

(** [src/App.tsx]: an image is loaded and an earlier result is on display. *)
Definition showing (img : HTMLImageElement) : SingleEncodeApp.State :=
  SingleEncodeApp.setCompressedImage (Some earlier)
    (SingleEncodeApp.setOriginalImage (Some (dataOf jpegFile img))
       SingleEncodeApp.initialState).

Definition fresh {S} (s : S) : World S := {| ui := s; encodeLog := [] |}.

End Samples.

(** * The event handlers

    The functions studied so far are called from the handlers the
    components pass to [ImageUploader], [CompressionControls] and
    [ImagePreview]. A handler reads the state of the render that created
    it, passed in as [s]; what it writes goes to the current state.
    Calls of [trackEvent] and [logError] and the bookkeeping of object
    URLs ([URL.revokeObjectURL] and the two state variables that hold the
    URLs to revoke) write nothing the model holds and are left out. *)

(** A call of an [async] function that is not awaited: the caller goes
    on at once and never learns the outcome. The writes of the call are
    accounted for in full, as they stand once the call has settled with
    no other handler run in between. *)
Definition unawaited {W A : Type} (m : Async.t (W := W) A)
  : Async.t (W := W) unit :=
  fun w => (fst (m w), Fulfilled tt).

(** The link a download handler builds and clicks. *)
Record Download := {
  href : string;
  download : string }.

(** ** The handlers of the [processImage] revision *)

Module ProcessImageHandlers.
Import ProcessImageApp.

Local Open Scope string_scope.
Local Open Scope Z_scope.

Definition setSelectedPreset (v : string) (s : State) : State :=
  {| originalImage := originalImage s; compressedImage := compressedImage s;
     isProcessing := isProcessing s; selectedPreset := v;
     quality := quality s; customWidth := customWidth s;
     customHeight := customHeight s; error := error s;
     dimensionError := dimensionError s |}.

Definition setQuality (v : Z) (s : State) : State :=
  {| originalImage := originalImage s; compressedImage := compressedImage s;
     isProcessing := isProcessing s; selectedPreset := selectedPreset s;
     quality := v; customWidth := customWidth s;
     customHeight := customHeight s; error := error s;
     dimensionError := dimensionError s |}.

Definition setCustomWidth (v : Q) (s : State) : State :=
  {| originalImage := originalImage s; compressedImage := compressedImage s;
     isProcessing := isProcessing s; selectedPreset := selectedPreset s;
     quality := quality s; customWidth := v;
     customHeight := customHeight s; error := error s;
     dimensionError := dimensionError s |}.

Definition setCustomHeight (v : Q) (s : State) : State :=
  {| originalImage := originalImage s; compressedImage := compressedImage s;
     isProcessing := isProcessing s; selectedPreset := selectedPreset s;
     quality := quality s; customWidth := customWidth s;
     customHeight := v; error := error s;
     dimensionError := dimensionError s |}.

Definition setDimensionError (v : option string) (s : State) : State :=
  {| originalImage := originalImage s; compressedImage := compressedImage s;
     isProcessing := isProcessing s; selectedPreset := selectedPreset s;
     quality := quality s; customWidth := customWidth s;
     customHeight := customHeight s; error := error s;
     dimensionError := v |}.

(** ['width' | 'height'] *)
Inductive Dimension := Width | Height.

(** [validateFile]: [None] is the source's [null]. *)
Definition validateFile (file : File) : option string :=
  let validTypes := ["image/jpeg"; "image/jpg"; "image/png"] in
  if negb (existsb (String.eqb (file_type file)) validTypes) then
    Some "Please select a JPG or PNG image file."
  else
    let maxSize := 10 * 1024 * 1024 in
    if maxSize <? file_size file then
      Some "File size must be less than 10MB."
    else None.

(** [useCallback(f, [selectedPreset, quality])]: the render whose [f] is
    in use after a render that saw state [now], given the render whose
    [f] was in use before. The dependencies are compared with
    [Object.is]; the custom dimensions are not among them. *)
Definition memoised (before now : State) : State :=
  if String.eqb (selectedPreset before) (selectedPreset now)
     && (quality before =? quality now)
  then before else now.

Section Handlers.
Variable B : Browser.

(** [FileReader.readAsDataURL]: the data URL handed to [onload], [None]
    when the reader fires [onerror]. *)
Variable readAsDataURL : File -> option string.

(** [loadImage]: the file is read, then decoded, then measured. *)
Definition loadImage (file : File) : Async.t (W := World State) ImageData :=
  match readAsDataURL file with
  | None => Async.throw (Error "Failed to read file.")
  | Some dataUrl =>
      match decodeUrl B dataUrl with
      | None => Async.throw (Error "Failed to load image.")
      | Some img =>
          if (8000 <? img_width img) || (8000 <? img_height img) then
            Async.throw
              (Error "Image dimensions must not exceed 8000×8000 pixels.")
          else
            Async.ret {| id_file := file; id_dataUrl := dataUrl;
                         id_width := img_width img;
                         id_height := img_height img;
                         id_size := file_size file |}
      end
  end.

(** A call [processImage(imageData, preset, qualityValue, customW, customH)]
    made by a handler of render [s]. *)
Definition processImageCall (s : State) (imageData : ImageData)
    (preset : string) (qualityValue : Z) (customW customH : option Q)
  : Async.t (W := World State) unit :=
  processImage B
    {| req_imageData := imageData; req_preset := preset;
       req_qualityValue := qualityValue; req_customW := customW;
       req_customH := customH; req_closure := s |}.

(** [handleFileSelect]. It is wrapped in
    [useCallback(..., [selectedPreset, quality])], so [s] is the render
    in which one of the two last changed (see [memoised]). *)
Definition handleFileSelect (s : State) (file : File)
  : Async.t (W := World State) unit :=
  match validateFile file with
  | Some fileError => set_ui (setError (Some fileError))
  | None =>
      (set_ui (setError None) ;;
       set_ui (setCompressedImage None) ;;
       Async.try_catch
         (imageData <- loadImage file ;;
          set_ui (setOriginalImage (Some imageData)) ;;
          processImageCall s imageData (selectedPreset s) (quality s)
            None None)
         (fun err => set_ui (setError (Some (message err)))))%async
  end.

Definition handlePresetChange (s : State) (preset : string)
  : Async.t (W := World State) unit :=
  (set_ui (setSelectedPreset preset) ;;
   match originalImage s with
   | Some originalImage =>
       unawaited (processImageCall s originalImage preset (quality s)
                    None None)
   | None => Async.ret tt
   end)%async.

Definition handleQualityChange (s : State) (newQuality : Z)
  : Async.t (W := World State) unit :=
  (set_ui (setQuality newQuality) ;;
   match originalImage s with
   | Some originalImage =>
       unawaited (processImageCall s originalImage (selectedPreset s)
                    newQuality None None)
   | None => Async.ret tt
   end)%async.

(** [handleCustomDimensionChange]; [numValue] is [parseInt(value) || 0],
    an integer whatever the field holds. *)
Definition handleCustomDimensionChange (s : State) (dimension : Dimension)
    (numValue : Z) : Async.t (W := World State) unit :=
  let numValue := inject_Z numValue in
  let newWidth :=
    match dimension with Width => numValue | Height => customWidth s end in
  let newHeight :=
    match dimension with Height => numValue | Width => customHeight s end in
  let error := validateDimensions newWidth newHeight in
  (match dimension with
   | Width => set_ui (setCustomWidth numValue)
   | Height => set_ui (setCustomHeight numValue)
   end ;;
   set_ui (setDimensionError error) ;;
   match error, originalImage s with
   | None, Some originalImage =>
       unawaited (processImageCall s originalImage (selectedPreset s)
                    (quality s) (Some newWidth) (Some newHeight))
   | _, _ => Async.ret tt
   end)%async.

Definition handleUploadNew : Async.t (W := World State) unit :=
  (set_ui (setOriginalImage None) ;;
   set_ui (setCompressedImage None) ;;
   set_ui (setError None) ;;
   set_ui (setDimensionError None))%async.

(** *** A session: the events of the page and the calls in flight

    The handlers above account for a call of [processImage] in full, as
    if nothing else ran before it settled. In a session a call is left
    in flight at its first [await] and comes back with a later event,
    so that calls can overlap. What is rendered decides which events
    can occur:

    - [ImageUploader] is rendered while there is no [originalImage],
      and is never disabled;
    - [CompressionControls] and the "Upload New Image" button are
      rendered while there is one. The preset buttons, the quality
      slider and the dimension fields (which show under the custom
      preset only) carry [disabled={isProcessing}]; the button does
      not.

    An event whose control is not rendered or is disabled leaves the
    page as it is. [handleFileSelect] is taken from its first line to
    the first [await] of the [processImage] it calls in one step: what
    could run while the file is read and decoded is left out. *)

Inductive Event :=
| PresetChange (preset : string)
| QualityChange (newQuality : Z)
| CustomDimensionChange (dimension : Dimension) (numValue : Z)
| UploadNew
| FileSelect (file : File)
| Settle (n : nat).          (* the n-th call issued comes back *)

Definition Scheduler : Type := @Scheduling.Scheduler State Request.

(** The calls of [processImage], and the render whose
    [handleFileSelect] is in use (see [memoised]). *)
Record Page := {
  calls : Scheduler;
  fileSelect : State }.

(** Writes a handler makes itself. *)
Definition write (f : State -> State) (sc : Scheduler) : Scheduler :=
  {| Scheduling.world :=
       {| ui := f (ui (Scheduling.world sc));
          encodeLog := encodeLog (Scheduling.world sc) |};
     Scheduling.issued := Scheduling.issued sc;
     Scheduling.settled := Scheduling.settled sc |}.

(** A call of [processImage] left in flight: it runs up to its first
    [await], and the rest runs when it comes back. *)
Definition issue (r : Request) (sc : Scheduler) : Scheduler :=
  Scheduling.call (fun _ => processImage_start) r sc.

Definition controlsEnabled (s : State) : bool :=
  match originalImage s with
  | Some _ => negb (isProcessing s)
  | None => false
  end.

(** The page after the handler of an event has run, [None] when the
    event cannot occur. [s] is the current render, whose handlers the
    controls call. *)
Definition fire (p : Page) (e : Event) : option Scheduler :=
  let sc := calls p in
  let s := ui (Scheduling.world sc) in
  match e with
  | PresetChange preset =>
      if controlsEnabled s then
        let sc := write (setSelectedPreset preset) sc in
        match originalImage s with
        | Some originalImage =>
            Some (issue {| req_imageData := originalImage;
                           req_preset := preset;
                           req_qualityValue := quality s;
                           req_customW := None; req_customH := None;
                           req_closure := s |} sc)
        | None => Some sc
        end
      else None
  | QualityChange newQuality =>
      if controlsEnabled s then
        let sc := write (setQuality newQuality) sc in
        match originalImage s with
        | Some originalImage =>
            Some (issue {| req_imageData := originalImage;
                           req_preset := selectedPreset s;
                           req_qualityValue := newQuality;
                           req_customW := None; req_customH := None;
                           req_closure := s |} sc)
        | None => Some sc
        end
      else None
  | CustomDimensionChange dimension numValue =>
      if controlsEnabled s && String.eqb (selectedPreset s) "custom" then
        let numValue := inject_Z numValue in
        let newWidth :=
          match dimension with Width => numValue | Height => customWidth s end in
        let newHeight :=
          match dimension with Height => numValue | Width => customHeight s end in
        let error := validateDimensions newWidth newHeight in
        let sc :=
          write (setDimensionError error)
            (write match dimension with
                   | Width => setCustomWidth numValue
                   | Height => setCustomHeight numValue
                   end sc) in
        match error, originalImage s with
        | None, Some originalImage =>
            Some (issue {| req_imageData := originalImage;
                           req_preset := selectedPreset s;
                           req_qualityValue := quality s;
                           req_customW := Some newWidth;
                           req_customH := Some newHeight;
                           req_closure := s |} sc)
        | _, _ => Some sc
        end
      else None
  | UploadNew =>
      match originalImage s with
      | Some _ =>
          Some (write (setDimensionError None)
                  (write (setError None)
                     (write (setCompressedImage None)
                        (write (setOriginalImage None) sc))))
      | None => None
      end
  | FileSelect file =>
      match originalImage s with
      | Some _ => None
      | None =>
          match validateFile file with
          | Some fileError => Some (write (setError (Some fileError)) sc)
          | None =>
              let sc := write (setCompressedImage None)
                          (write (setError None) sc) in
              match snd (loadImage file (Scheduling.world sc)) with
              | Fulfilled imageData =>
                  let s := fileSelect p in
                  Some (issue {| req_imageData := imageData;
                                 req_preset := selectedPreset s;
                                 req_qualityValue := quality s;
                                 req_customW := None; req_customH := None;
                                 req_closure := s |}
                          (write (setOriginalImage (Some imageData)) sc))
              | Rejected err => Some (write (setError (Some (message err))) sc)
              | Pending => Some sc
              end
          end
      end
  | Settle n => Some (Scheduling.settle (processImage_resume B) n sc)
  end.

Definition dispatch (p : Page) (e : Event) : Page :=
  match fire p e with
  | Some sc =>
      {| calls := sc;
         fileSelect := memoised (fileSelect p) (ui (Scheduling.world sc)) |}
  | None => p
  end.

Definition run (p : Page) (es : list Event) : Page :=
  fold_left dispatch es p.

(** The page as the component mounts. *)
Definition mount : Page :=
  {| calls := Scheduling.idle {| ui := initialState; encodeLog := [] |};
     fileSelect := initialState |}.

(** What the component shows as the current compressed image. *)
Definition current (p : Page) : option CompressedImage :=
  compressedImage (ui (Scheduling.world (calls p))).

(** The events of the controls that are disabled while processing. *)
Definition isControl (e : Event) : bool :=
  match e with
  | PresetChange _ | QualityChange _ | CustomDimensionChange _ _ => true
  | UploadNew | FileSelect _ | Settle _ => false
  end.

(** The handler an event calls, taken in full as above. *)
Definition handlerOf (p : Page) (e : Event)
  : Async.t (W := World State) unit :=
  let s := ui (Scheduling.world (calls p)) in
  match e with
  | PresetChange preset => handlePresetChange s preset
  | QualityChange newQuality => handleQualityChange s newQuality
  | CustomDimensionChange dimension numValue =>
      handleCustomDimensionChange s dimension numValue
  | UploadNew => handleUploadNew
  | FileSelect file => handleFileSelect (fileSelect p) file
  | Settle _ => Async.ret tt
  end.

(** Every call on record as settled has been issued. *)
Definition wellFormed (sc : Scheduler) : Prop :=
  forall n, In n (Scheduling.settled sc) ->
            (n < List.length (Scheduling.issued sc))%nat.
End Handlers.

(** [handleDownload]: the link it clicks, [None] when it returns early. *)
Definition handleDownload (s : State) : option Download :=
  match compressedImage s, originalImage s with
  | Some compressedImage, Some originalImage =>
      Some {| href := ci_dataUrl compressedImage;
              download := "compressed_" ++ file_name (id_file originalImage) |}
  | _, _ => None
  end.

(** *** Notions used to state what the functions above do *)

(** The attempts of a quality descent entered at [q] that made [n]
    calls, most recent first: [q], [q - 5], [q - 10], ... *)
Definition attempts (canvas : Canvas) (q : Z) (n : nat) : list EncodeCall :=
  rev (map (fun k => jpegCall canvas (q - 5 * Z.of_nat k)) (seq 0 n)).

(** The codec answered the call with a blob larger than [t]. *)
Definition overBudget (B : Browser) (t : TargetSize) (c : EncodeCall) : bool :=
  match handed B c with
  | Some data => negb (size_le (blob_size (jpegBlob data)) t)
  | None => false
  end.

(** No side of the canvas is zero. *)
Definition hasArea (c : Canvas) : bool :=
  negb ((canvas_width c =? 0) || (canvas_height c =? 0)).

End ProcessImageHandlers.

(** ** The handlers of the [recompressImage] revision *)

Module RecompressHandlers.
Import RecompressApp.

Local Open Scope string_scope.
Local Open Scope Z_scope.

Definition MAX_FILE_SIZE : Z := 10 * 1024 * 1024.

Definition setQuality (v : Z) (s : State) : State :=
  {| originalImage := originalImage s; compressedImage := compressedImage s;
     selectedPreset := selectedPreset s; quality := v;
     isProcessing := isProcessing s; error := error s;
     customWidth := customWidth s; customHeight := customHeight s;
     dimensionError := dimensionError s |}.

(** Matching under the [i] flag: a letter of the subject matches the
    letter of the pattern in either case. Without the [u] flag no
    character outside ASCII folds to an ASCII letter. *)
Definition foldCase (c : Ascii.ascii) : Ascii.ascii :=
  let n := Ascii.nat_of_ascii c in
  if (65 <=? n)%nat && (n <=? 90)%nat then Ascii.ascii_of_nat (n + 32) else c.

Fixpoint foldCases (s : string) : string :=
  match s with
  | EmptyString => EmptyString
  | String c rest => String (foldCase c) (foldCases rest)
  end.

(** [type.match(/^image\/(jpeg|jpg|png)$/i)] is not [null]. *)
Definition matchesImageType (type : string) : bool :=
  existsb (String.eqb (foldCases type))
    ["image/jpeg"; "image/jpg"; "image/png"].

Section Handlers.
Variable B : Browser.

(** [URL.createObjectURL(file)] *)
Variable fileObjectURL : File -> string.

(** Number formatting, left to the browser: [x.toFixed(1)] and the
    decimal numeral of an integer in a template literal. *)
Variable toFixed1 : Q -> string.
Variable numeral : Z -> string.

Definition validateFile (file : File) : option string :=
  if negb (matchesImageType (file_type file)) then
    Some "Please upload only JPG or PNG images. Other formats are not supported."
  else if MAX_FILE_SIZE <? file_size file then
    Some ("File size must be less than 10MB. Your file is "
          ++ toFixed1 (inject_Z (file_size file) / (1024 * 1024)) ++ "MB.")
  else None.

(** [handleFile], called from a render that saw state [s]. *)
Definition handleFile (s : State) (file : File)
  : Async.t (W := World State) unit :=
  (set_ui (setError None) ;;
   set_ui (setDimensionError None) ;;
   set_ui (setCompressedImage None) ;;
   match validateFile file with
   | Some validationError => set_ui (setError (Some validationError))
   | None =>
       Async.try_catch
         (img <- loadImage B file ;;
          if Qltb MAX_DIMENSIONS (inject_Z (img_width img))
             || Qltb MAX_DIMENSIONS (inject_Z (img_height img)) then
            let errorMsg :=
              "Image dimensions must be less than 8000×8000 pixels. Your image is "
              ++ numeral (img_width img) ++ "×" ++ numeral (img_height img)
              ++ "px." in
            set_ui (setError (Some errorMsg))
          else
            let imageData :=
              {| id_file := file; id_dataUrl := fileObjectURL file;
                 id_width := img_width img; id_height := img_height img;
                 id_size := file_size file |} in
            set_ui (setOriginalImage (Some imageData)) ;;
            set_ui (setIsProcessing true) ;;
            checked <-
              (if Preset_eqb (selectedPreset s) custom then
                 match validateDimensions (customWidth s) (customHeight s) with
                 | Some validationError =>
                     set_ui (setDimensionError (Some validationError)) ;;
                     set_ui (setIsProcessing false) ;;
                     Async.ret (Return, None)
                 | None =>
                     Async.ret (Continue,
                                Some {| width := customWidth s;
                                        height := customHeight s |})
                 end
               else Async.ret (Continue, None)) ;;
            match checked with
            | (Return, _) => Async.ret tt
            | (Continue, customDimensions) =>
                compressed <- compressImage B img (selectedPreset s)
                                (quality s) customDimensions ;;
                set_ui (setCompressedImage (Some compressed)) ;;
                set_ui (setIsProcessing false)
            end)
         (fun err =>
            set_ui (setError
                      (Some "Failed to process image. Please try again with a different file.")) ;;
            set_ui (setIsProcessing false))
   end)%async.

(** [handleQualityChange], called from a render that saw state [s]: the
    [recompressImage] it awaits is the one of that render. *)
Definition handleQualityChange (s : State) (newQuality : Z)
  : Async.t (W := World State) unit :=
  (set_ui (setQuality newQuality) ;;
   match originalImage s with
   | Some _ => recompressImage B s
   | None => Async.ret tt
   end)%async.
End Handlers.

(** The state writes of [handlePresetChange]. *)
Definition presetChanged (preset : Preset) (s : State) : State :=
  let s := setError None (setDimensionError None (setSelectedPreset preset s)) in
  if negb (Preset_eqb preset custom) then
    let presetConfig := PRESETS preset in
    setCustomHeight (maxHeight presetConfig)
      (setCustomWidth (maxWidth presetConfig) s)
  else setCustomHeight 1080 (setCustomWidth 1920 s).

(** [handlePresetChange]: the pending timeout is cleared and the state
    written; the function itself starts no recompression. *)
Definition handlePresetChange (preset : Preset) (p : Page) : Page :=
  {| calls :=
       {| Scheduling.world :=
            {| ui := presetChanged preset (ui (Scheduling.world (calls p)));
               encodeLog := encodeLog (Scheduling.world (calls p)) |};
          Scheduling.issued := Scheduling.issued (calls p);
          Scheduling.settled := Scheduling.settled (calls p) |};
     timeout := None |}.

(** [downloadImage]: the link it clicks, [None] when it does nothing. *)
Definition downloadImage (B : Browser) (s : State) : option Download :=
  match compressedImage s, originalImage s with
  | Some compressedImage, Some originalImage =>
      Some {| href := createObjectURL B (ci_blob compressedImage);
              download := "compressed_" ++ file_name (id_file originalImage) |}
  | _, _ => None
  end.

(** *** Notions used to state what the functions above do *)

(** The invariant the disabled controls and the guard of the effect
    maintain: every call but the last has come back, and so has the
    last once processing is over. *)
Definition serialised (p : Page) : Prop :=
  (isProcessing (ui (Scheduling.world (calls p))) = false ->
   forall n, (n < List.length (Scheduling.issued (calls p)))%nat ->
             In n (Scheduling.settled (calls p))) /\
  (forall n, (S n < List.length (Scheduling.issued (calls p)))%nat ->
             In n (Scheduling.settled (calls p))).

Definition isTimeout (e : Event) : bool :=
  match e with
  | TimeoutFires => true
  | _ => false
  end.

(** Custom dimensions as every caller of [compressImage] hands them in:
    validated, or absent. *)
Definition validated (customDimensions : option Size) : Prop :=
  match customDimensions with
  | Some size => validateDimensions (width size) (height size) = None
  | None => True
  end.

End RecompressHandlers.

(** ** The quality slider of [src/App.tsx]

    The preset buttons and the slider of [src/App.tsx] carry no
    [disabled] attribute: they fire whether or not a request is in
    progress. *)

Module SingleEncodeHandlers.
Import SingleEncodeApp.

Local Open Scope string_scope.
Local Open Scope Z_scope.

Definition MAX_FILE_SIZE : Z := 10 * 1024 * 1024.
Definition MAX_DIMENSIONS : Z := 8000.

Definition setQuality (v : Z) (s : State) : State :=
  {| originalImage := originalImage s; compressedImage := compressedImage s;
     selectedPreset := selectedPreset s; quality := v;
     isProcessing := isProcessing s; error := error s |}.

(** A call [handleQualityChange(newQuality)] in flight: the render it
    closes over and its argument. *)
Definition Call : Type := State * Z.

Section Handlers.
Variable B : Browser.

(** [handleQualityChange] up to its first [await]. *)
Definition handleQualityChange_start (c : Call)
  : Async.t (W := World State) unit :=
  (set_ui (setQuality (snd c)) ;;
   match originalImage (fst c) with
   | Some _ => set_ui (setIsProcessing true)
   | None => Async.ret tt
   end)%async.

(** [handleQualityChange] from the [try] block to the end. *)
Definition handleQualityChange_resume (c : Call)
  : Async.t (W := World State) unit :=
  match originalImage (fst c) with
  | Some originalImage =>
      (Async.try_catch
         (img <- loadImage B (id_file originalImage) ;;
          compressed <- compressImage B img (selectedPreset (fst c)) (snd c) ;;
          set_ui (setCompressedImage (Some compressed)))
         (fun err => set_ui (setError (Some "Failed to reprocess image."))) ;;
       set_ui (setIsProcessing false))%async
  | None => Async.ret tt
  end.

(** [handleQualityChange], called from a render that saw state [s]. *)
Definition handleQualityChange (s : State) (newQuality : Z)
  : Async.t (W := World State) unit :=
  (handleQualityChange_start (s, newQuality) ;;
   handleQualityChange_resume (s, newQuality))%async.

(** [URL.createObjectURL(file)] *)
Variable fileObjectURL : File -> string.

(** [formatFileSize], whose digits come from [Math.log] and [toFixed]:
    the text it returns is left open. *)
Variable formatFileSize : Z -> string.

Definition validateFile (file : File) : option string :=
  if negb (RecompressHandlers.matchesImageType (file_type file)) then
    Some "Please upload only JPG or PNG images."
  else if MAX_FILE_SIZE <? file_size file then
    Some ("File size must be less than " ++ formatFileSize MAX_FILE_SIZE ++ ".")
  else None.

(** [handleFile], called from a render that saw state [s]. *)
Definition handleFile (s : State) (file : File)
  : Async.t (W := World State) unit :=
  (set_ui (setError None) ;;
   set_ui (setCompressedImage None) ;;
   match validateFile file with
   | Some validationError => set_ui (setError (Some validationError))
   | None =>
       Async.try_catch
         (img <- loadImage B file ;;
          if (MAX_DIMENSIONS <? img_width img)
             || (MAX_DIMENSIONS <? img_height img) then
            set_ui (setError
                      (Some "Image dimensions must be less than 8000×8000 pixels."))
          else
            let imageData :=
              {| id_file := file; id_dataUrl := fileObjectURL file;
                 id_width := img_width img; id_height := img_height img;
                 id_size := file_size file |} in
            set_ui (setOriginalImage (Some imageData)) ;;
            set_ui (setIsProcessing true) ;;
            compressed <- compressImage B img (selectedPreset s) (quality s) ;;
            set_ui (setCompressedImage (Some compressed)) ;;
            set_ui (setIsProcessing false))
         (fun err =>
            set_ui (setError (Some "Failed to process image. Please try again.")) ;;
            set_ui (setIsProcessing false))
   end)%async.

Inductive Event :=
| QualityChange (newQuality : Z)   (* the slider fires [onChange] *)
| Settle (n : nat).                (* the n-th call issued comes back *)

Definition Scheduler : Type := @Scheduling.Scheduler State Call.

Definition dispatch (sc : Scheduler) (e : Event) : Scheduler :=
  match e with
  | QualityChange newQuality =>
      Scheduling.call handleQualityChange_start
        (ui (Scheduling.world sc), newQuality) sc
  | Settle n => Scheduling.settle handleQualityChange_resume n sc
  end.

Definition run (sc : Scheduler) (es : list Event) : Scheduler :=
  fold_left dispatch es sc.
End Handlers.

(** What the component shows as the current compressed image. *)
Definition current (sc : Scheduler) : option CompressedImage :=
  compressedImage (ui (Scheduling.world sc)).

(** What [compressImage] resolves with for image [img] under [preset]
    at quality [q] when the codec hands over [data]. *)
Definition encoded (B : Browser) (img : HTMLImageElement) (preset : Preset)
    (q : Z) (data : list byte) : CompressedImage :=
  let canvas := canvasOf img (resolveSize img preset) in
  {| ci_blob := {| blob_type := image_jpeg; blob_data := data |};
     ci_dataUrl := toDataURL B canvas image_jpeg (inject_Z q / 100);
     ci_width := width (resolveSize img preset);
     ci_height := height (resolveSize img preset);
     ci_size := blob_size {| blob_type := image_jpeg; blob_data := data |} |}.

End SingleEncodeHandlers.

(** ** [ImagePreview] *)

Module ImagePreview.


End ImagePreview.

(** ** More concrete inputs *)

Module Uploads.

Local Open Scope string_scope.
Local Open Scope Z_scope.

(** A reader that hands every file over as the same data URL. *)
Definition reader (file : File) : option string := Some "data:image/jpeg;base64,".

Definition textFile : File :=
  {| file_name := "notes.txt"; file_type := "text/plain"; file_size := 120 |}.

(** The [processImage] revision with the photo loaded and the custom
    preset selected. *)
Definition customSelected : ProcessImageApp.State :=
  ProcessImageHandlers.setSelectedPreset "custom" Samples.loaded.

(** The render that followed the click on the custom preset, in which
    [processImage] had just started: the last render in which the preset
    or the quality changed. *)
Definition customClicked : ProcessImageApp.State :=
  ProcessImageApp.setIsProcessing true customSelected.

(** The same component later on: the width field was set to 500, the
    photo was processed within 500 by 1080, and "Upload New Image" was
    clicked. Neither the preset nor the quality changed on the way. *)
Definition editedThenCleared : World ProcessImageApp.State :=
  fst (ProcessImageHandlers.handleUploadNew
         (fst (ProcessImageHandlers.handleCustomDimensionChange
                 (Samples.browserWith Samples.photo) customSelected
                 ProcessImageHandlers.Width 500
                 (Samples.fresh customSelected)))).

(** The [recompressImage] revision with the photo loaded. *)
Definition recompressing : RecompressApp.State :=
  RecompressApp.setOriginalImage (Some (Samples.dataOf Samples.jpegFile Samples.photo))
    RecompressApp.initialState.

End Uploads.
(** * Facts about binary64 rounding *)

Section Binary64.
Local Open Scope Q_scope.

Lemma pow2_pos (e : Z) : 0 < pow2 e.
Proof. apply Qpower_0_lt. reflexivity. Qed.

Lemma pow2_add (a b : Z) : pow2 (a + b) == pow2 a * pow2 b.
Proof. apply Qpower_plus. discriminate. Qed.

Lemma pow2_le (a b : Z) : (a <= b)%Z -> pow2 a <= pow2 b.
Proof. intros H. apply Qpower_le_compat_l; [exact H | discriminate]. Qed.

Lemma pow2_lt (a b : Z) : (a < b)%Z -> pow2 a < pow2 b.
Proof. intros H. apply Qpower_lt_compat_l; [exact H | reflexivity]. Qed.

Lemma pow2_lt_inv (a b : Z) : pow2 a < pow2 b -> (a < b)%Z.
Proof. intros H. apply (Qpower_lt_compat_l_inv 2); [exact H | reflexivity]. Qed.

Lemma pow2_Z (n : Z) : (0 <= n)%Z -> pow2 n == inject_Z (2 ^ n).
Proof. intros H. unfold pow2. rewrite Zpower_Qpower by exact H. reflexivity. Qed.

Lemma pow2_split (a b : Z) : pow2 (a - b) * pow2 b == pow2 a.
Proof. rewrite <- pow2_add. replace (a - b + b)%Z with a by ring. reflexivity. Qed.

(** [binade x] is the exponent of the binade of a positive [x]. *)
Lemma binade_spec (x : Q) :
  0 < x -> pow2 (binade x) <= x /\ x < pow2 (binade x + 1).
Proof.
  intros Hx. destruct x as [n d]. unfold binade. cbn [Qnum Qden].
  assert (Hn : (0 < n)%Z).
  { unfold Qlt in Hx. cbn in Hx. lia. }
  set (a := Z.log2 n). set (b := Z.log2 (Zpos d)).
  destruct (Z.log2_spec n Hn) as [Ha1 Ha2]. fold a in Ha1, Ha2.
  destruct (Z.log2_spec (Zpos d) eq_refl) as [Hb1 Hb2]. fold b in Hb1, Hb2.
  assert (Ha0 : (0 <= a)%Z) by apply Z.log2_nonneg.
  assert (Hb0 : (0 <= b)%Z) by apply Z.log2_nonneg.
  assert (Hx' : n # d == inject_Z n / inject_Z (Zpos d)) by apply Qmake_Qdiv.
  assert (Hd : 0 < inject_Z (Zpos d)) by reflexivity.
  assert (A1 : pow2 a <= inject_Z n).
  { rewrite pow2_Z by exact Ha0. rewrite <- Zle_Qle. exact Ha1. }
  assert (A2 : inject_Z n < pow2 (a + 1)).
  { rewrite pow2_Z by lia. rewrite <- Zlt_Qlt. replace (a + 1)%Z with (Z.succ a) by lia. exact Ha2. }
  assert (B1 : pow2 b <= inject_Z (Zpos d)).
  { rewrite pow2_Z by exact Hb0. rewrite <- Zle_Qle. exact Hb1. }
  assert (B2 : inject_Z (Zpos d) < pow2 (b + 1)).
  { rewrite pow2_Z by lia. rewrite <- Zlt_Qlt. replace (b + 1)%Z with (Z.succ b) by lia. exact Hb2. }
  assert (U : n # d < pow2 (a - b + 1)).
  { rewrite Hx'. apply Qlt_shift_div_r; [exact Hd|].
    pose proof (pow2_split (a + 1) b) as E.
    replace (a + 1 - b)%Z with (a - b + 1)%Z in E by ring.
    pose proof (pow2_pos (a - b + 1)) as P. nra. }
  assert (L : pow2 (a - b - 1) < n # d).
  { rewrite Hx'. apply Qlt_shift_div_l; [exact Hd|].
    pose proof (pow2_split a (b + 1)) as E.
    replace (a - (b + 1))%Z with (a - b - 1)%Z in E by ring.
    pose proof (pow2_pos (a - b - 1)) as P. nra. }
  destruct (Qle_bool (pow2 (a - b)) (n # d)) eqn:E.
  - apply Qle_bool_iff in E. split; [exact E | exact U].
  - split; [apply Qlt_le_weak; exact L|].
    replace (a - b - 1 + 1)%Z with (a - b)%Z by ring.
    apply Qnot_le_lt. intros C. apply Qle_bool_iff in C. congruence.
Qed.

Lemma binade_unique (x : Q) (e : Z) :
  pow2 e <= x -> x < pow2 (e + 1) -> binade x = e.
Proof.
  intros H1 H2.
  assert (Hx : 0 < x) by (pose proof (pow2_pos e); lra).
  destruct (binade_spec x Hx) as [B1 B2].
  assert (L1 : (binade x < e + 1)%Z) by (apply pow2_lt_inv; lra).
  assert (L2 : (e < binade x + 1)%Z) by (apply pow2_lt_inv; lra).
  lia.
Qed.

Lemma binade_le (x y : Q) : 0 < x -> x <= y -> (binade x <= binade y)%Z.
Proof.
  intros Hx Hxy.
  destruct (binade_spec x Hx) as [B1 _].
  destruct (binade_spec y) as [_ C2]; [lra|].
  assert (L : (binade x < binade y + 1)%Z) by (apply pow2_lt_inv; lra).
  lia.
Qed.

Lemma binade_comp (x y : Q) : 0 < x -> x == y -> binade x = binade y.
Proof.
  intros Hx E. symmetry. destruct (binade_spec x Hx) as [B1 B2].
  apply binade_unique; lra.
Qed.

(** ** Rounding to the nearest integer, ties to even *)

Lemma rne_cases (x : Q) :
  (rne x = Qfloor x /\ x - inject_Z (Qfloor x) <= 1 # 2
     /\ (x - inject_Z (Qfloor x) == 1 # 2 -> Z.even (Qfloor x) = true))
  \/ (rne x = (Qfloor x + 1)%Z /\ 1 # 2 <= x - inject_Z (Qfloor x)
     /\ (x - inject_Z (Qfloor x) == 1 # 2 -> Z.even (Qfloor x) = false)).
Proof.
  unfold rne. set (f := Qfloor x).
  destruct (Qcompare_spec (x - inject_Z f) (1 # 2)) as [E | L | G].
  - destruct (Z.even f) eqn:Ev.
    + left. split; [reflexivity | split; [lra | intros _; reflexivity]].
    + right. split; [reflexivity | split; [lra | intros _; reflexivity]].
  - left. split; [reflexivity | split; [lra | intros C; lra]].
  - right. split; [reflexivity | split; [lra | intros C; lra]].
Qed.

Lemma rne_near (x : Q) :
  x - (1 # 2) <= inject_Z (rne x) /\ inject_Z (rne x) <= x + (1 # 2).
Proof.
  pose proof (Qfloor_le x) as F1. pose proof (Qlt_floor x) as F2.
  rewrite inject_Z_plus in F2.
  change (inject_Z 1) with 1 in F2.
  destruct (rne_cases x) as [(-> & H & _) | (-> & H & _)].
  - split; lra.
  - rewrite inject_Z_plus. change (inject_Z 1) with 1. split; lra.
Qed.

Lemma rne_le (x y : Q) : x <= y -> (rne x <= rne y)%Z.
Proof.
  intros Hxy.
  pose proof (Qfloor_resp_le x y Hxy) as F.
  destruct (rne_cases x) as [(-> & Hx & Ex) | (-> & Hx & Ex)];
    destruct (rne_cases y) as [(-> & Hy & Ey) | (-> & Hy & Ey)]; try lia.
  destruct (Z.eq_dec (Qfloor x) (Qfloor y)) as [E | N]; [|lia].
  exfalso. rewrite E in Hx, Ex.
  assert (A : x - inject_Z (Qfloor y) == 1 # 2) by lra.
  assert (B : y - inject_Z (Qfloor y) == 1 # 2) by lra.
  specialize (Ex A). specialize (Ey B). congruence.
Qed.

Lemma rne_comp (x y : Q) : x == y -> rne x = rne y.
Proof.
  intros E. apply Z.le_antisymm; apply rne_le; lra.
Qed.

Lemma rne_Z (n : Z) : rne (inject_Z n) = n.
Proof.
  destruct (rne_cases (inject_Z n)) as [(-> & _) | (_ & H & _)].
  - apply Qfloor_Z.
  - rewrite Qfloor_Z in H. lra.
Qed.

(** ** The nearest binary64 number *)

Lemma nearest_mantissa (x : Q) :
  0 < x ->
  pow2 52 <= x * pow2 (52 - binade x) /\ x * pow2 (52 - binade x) < pow2 53.
Proof.
  intros Hx. destruct (binade_spec x Hx) as [B1 B2].
  pose proof (pow2_pos (52 - binade x)) as P.
  pose proof (pow2_split 52 (binade x)) as E1.
  pose proof (pow2_add (52 - binade x) (binade x + 1)) as E2.
  replace (52 - binade x + (binade x + 1))%Z with 53%Z in E2 by ring.
  split; nra.
Qed.

Lemma nearest_range (x : Q) :
  0 < x -> pow2 (binade x) <= nearest x /\ nearest x <= pow2 (binade x + 1).
Proof.
  intros Hx. destruct (nearest_mantissa x Hx) as [M1 M2].
  unfold nearest. set (m := x * pow2 (52 - binade x)) in *.
  assert (R1 : (2 ^ 52 <= rne m)%Z).
  { rewrite <- (rne_Z (2 ^ 52)). apply rne_le. rewrite <- pow2_Z by lia. exact M1. }
  assert (R2 : (rne m <= 2 ^ 53)%Z).
  { rewrite <- (rne_Z (2 ^ 53)). apply rne_le. rewrite <- pow2_Z by lia. lra. }
  rewrite Zle_Qle in R1, R2. rewrite <- pow2_Z in R1, R2 by lia.
  pose proof (pow2_pos (binade x - 52)) as P.
  pose proof (pow2_add 52 (binade x - 52)) as E1.
  replace (52 + (binade x - 52))%Z with (binade x) in E1 by ring.
  pose proof (pow2_add 53 (binade x - 52)) as E2.
  replace (53 + (binade x - 52))%Z with (binade x + 1)%Z in E2 by ring.
  split; nra.
Qed.

Lemma nearest_pos (x : Q) : 0 < x -> 0 < nearest x.
Proof.
  intros Hx. destruct (nearest_range x Hx) as [R _].
  pose proof (pow2_pos (binade x)). lra.
Qed.

Lemma nearest_le (x y : Q) : 0 < x -> x <= y -> nearest x <= nearest y.
Proof.
  intros Hx Hxy. assert (Hy : 0 < y) by lra.
  pose proof (binade_le x y Hx Hxy) as B.
  destruct (Z.eq_dec (binade x) (binade y)) as [E | N].
  - unfold nearest. rewrite E.
    pose proof (pow2_pos (52 - binade y)) as P1.
    pose proof (pow2_pos (binade y - 52)) as P2.
    assert (M : (rne (x * pow2 (52 - binade y)) <= rne (y * pow2 (52 - binade y)))%Z).
    { apply rne_le. nra. }
    rewrite Zle_Qle in M. nra.
  - destruct (nearest_range x Hx) as [_ R1].
    destruct (nearest_range y Hy) as [R2 _].
    assert (L : pow2 (binade x + 1) <= pow2 (binade y)) by (apply pow2_le; lia).
    lra.
Qed.

Lemma nearest_comp (x y : Q) : 0 < x -> x == y -> nearest x == nearest y.
Proof.
  intros Hx E. apply Qle_antisym; apply nearest_le; lra.
Qed.

(** The relative error of rounding is at most 2^-53. *)
Lemma nearest_error (x : Q) :
  0 < x -> x * (1 - epsilon) <= nearest x /\ nearest x <= x * (1 + epsilon).
Proof.
  intros Hx. destruct (binade_spec x Hx) as [B1 _].
  unfold nearest. set (e := binade x) in *. set (m := x * pow2 (52 - e)).
  destruct (rne_near m) as [N1 N2].
  pose proof (pow2_pos (e - 52)) as P. pose proof (pow2_pos (52 - e)) as P'.
  pose proof (pow2_split 52 e) as E1.
  pose proof (pow2_add (52 - e) (e - 52)) as E2.
  replace (52 - e + (e - 52))%Z with 0%Z in E2 by ring.
  change (pow2 0) with 1 in E2.
  assert (E3 : pow2 52 == 4503599627370496) by reflexivity.
  assert (X : m * pow2 (e - 52) == x).
  { unfold m. rewrite <- Qmult_assoc, <- E2. ring. }
  assert (H : pow2 (e - 52) * (1 # 2) <= x * epsilon).
  { unfold epsilon.
    assert (pow2 (e - 52) * 4503599627370496 == pow2 e).
    { rewrite <- E3. pose proof (pow2_split e 52). lra. }
    lra. }
  split; nra.
Qed.

Lemma nearest_exact (x : Q) (k : Z) :
  0 < x -> x * pow2 (52 - binade x) == inject_Z k -> nearest x == x.
Proof.
  intros Hx E. unfold nearest. rewrite (rne_comp _ _ E), rne_Z, <- E.
  rewrite <- Qmult_assoc, <- pow2_add.
  replace (52 - binade x + (binade x - 52))%Z with 0%Z by ring.
  change (pow2 0) with 1. ring.
Qed.

Lemma nearest_Z (n : Z) :
  (0 < n < 2 ^ 53)%Z -> nearest (inject_Z n) == inject_Z n.
Proof.
  intros [H1 H2].
  assert (Hx : 0 < inject_Z n) by (rewrite <- (Zlt_Qlt 0); exact H1).
  destruct (binade_spec _ Hx) as [B1 _].
  assert (L : (binade (inject_Z n) < 53)%Z).
  { apply pow2_lt_inv. rewrite (pow2_Z 53) by lia.
    rewrite Zlt_Qlt in H2. lra. }
  apply (nearest_exact _ (n * 2 ^ (52 - binade (inject_Z n)))); [exact Hx|].
  rewrite inject_Z_mult, pow2_Z by lia. reflexivity.
Qed.

(** ** [binary64] *)

Lemma binary64_0 : binary64 0 = 0.
Proof. reflexivity. Qed.

Lemma binary64_pos_eq (x : Q) : 0 < x -> binary64 x == nearest x.
Proof.
  intros Hx. unfold binary64.
  assert (C : Qcompare x 0 = Gt) by (apply Qgt_alt; exact Hx).
  rewrite C. apply Qred_correct.
Qed.

Lemma binary64_neg_eq (x : Q) : x < 0 -> binary64 x == - nearest (- x).
Proof.
  intros Hx. unfold binary64.
  assert (C : Qcompare x 0 = Lt) by (apply Qlt_alt; exact Hx).
  rewrite C. apply Qred_correct.
Qed.

Lemma binary64_zero_eq (x : Q) : x == 0 -> binary64 x = 0.
Proof.
  intros Hx. unfold binary64.
  assert (C : Qcompare x 0 = Eq) by (apply Qeq_alt; exact Hx).
  rewrite C. reflexivity.
Qed.

Lemma binary64_opp (x : Q) : binary64 (- x) == - binary64 x.
Proof.
  destruct (Q_dec x 0) as [[L | G] | E].
  - rewrite (binary64_neg_eq x L), (binary64_pos_eq (- x)) by lra. ring.
  - rewrite (binary64_pos_eq x G), (binary64_neg_eq (- x)) by lra.
    rewrite (nearest_comp (- - x) x) by lra. reflexivity.
  - rewrite (binary64_zero_eq x E), (binary64_zero_eq (- x)) by lra. reflexivity.
Qed.

Lemma binary64_pos (x : Q) : 0 < x -> 0 < binary64 x.
Proof. intros Hx. rewrite binary64_pos_eq by exact Hx. apply nearest_pos, Hx. Qed.

Lemma binary64_nonneg (x : Q) : 0 <= x -> 0 <= binary64 x.
Proof.
  intros Hx. destruct (Qle_lt_or_eq _ _ Hx) as [L | E].
  - apply Qlt_le_weak, binary64_pos, L.
  - rewrite (binary64_zero_eq x) by lra. lra.
Qed.

(** Rounding is monotone. *)
Lemma binary64_le (x y : Q) : x <= y -> binary64 x <= binary64 y.
Proof.
  intros Hxy.
  destruct (Q_dec x 0) as [[Lx | Gx] | Ex].
  - destruct (Q_dec y 0) as [[Ly | Gy] | Ey].
    + rewrite (binary64_neg_eq x Lx), (binary64_neg_eq y Ly).
      assert (nearest (- y) <= nearest (- x)) by (apply nearest_le; lra). lra.
    + rewrite (binary64_neg_eq x Lx).
      pose proof (nearest_pos (- x)). pose proof (binary64_pos y Gy). lra.
    + rewrite (binary64_neg_eq x Lx), (binary64_zero_eq y Ey).
      pose proof (nearest_pos (- x)). lra.
  - rewrite (binary64_pos_eq x Gx), (binary64_pos_eq y) by lra.
    apply nearest_le; assumption.
  - rewrite (binary64_zero_eq x Ex). apply binary64_nonneg. lra.
Qed.

Lemma binary64_comp (x y : Q) : x == y -> binary64 x == binary64 y.
Proof. intros E. apply Qle_antisym; apply binary64_le; lra. Qed.

#[export] Instance binary64_Proper : Proper (Qeq ==> Qeq) binary64.
Proof. intros x y E. apply binary64_comp, E. Qed.

(** Whole numbers below 2^53 in size are binary64 numbers. *)
Lemma binary64_Z (n : Z) :
  (- 2 ^ 53 < n < 2 ^ 53)%Z -> binary64 (inject_Z n) == inject_Z n.
Proof.
  intros [H1 H2]. destruct (Z.lt_trichotomy n 0) as [L | [E | G]].
  - assert (Hn : inject_Z n == - inject_Z (- n)) by (rewrite inject_Z_opp; ring).
    rewrite Hn at 1. rewrite binary64_opp.
    rewrite binary64_pos_eq by (rewrite <- (Zlt_Qlt 0); lia).
    rewrite nearest_Z by lia. rewrite inject_Z_opp. ring.
  - subst n. reflexivity.
  - rewrite binary64_pos_eq by (rewrite <- (Zlt_Qlt 0); lia).
    apply nearest_Z. lia.
Qed.

(** The relative error of rounding is at most 2^-53. *)
Lemma binary64_error (x : Q) :
  0 <= x -> x * (1 - epsilon) <= binary64 x /\ binary64 x <= x * (1 + epsilon).
Proof.
  intros Hx. destruct (Qle_lt_or_eq _ _ Hx) as [L | E].
  - rewrite binary64_pos_eq by exact L. apply nearest_error, L.
  - rewrite (binary64_zero_eq x) by lra. unfold epsilon. split; lra.
Qed.

End Binary64.

(** [binary64] against the arithmetic of the processor, on the
    operations of [resizeImage] for 400 widths above a bound of 2000
    and 300 sides under bounds of 1920 and 1080, and on those of
    [compressImage] for 300 heights of sources 2080 and 1 wide. *)
Example binary64_agrees_with_the_processor :
  forallb (agrees_on_ratio 2000) (map Z.of_nat (seq 2001 400)) = true /\
  forallb (fun w => agrees_on_ratio 1920 w && agrees_on_ratio 1080 w)
    (map Z.of_nat (seq 1 300)) = true /\
  forallb (fun h => agrees_on_aspectRatio 2000 2080 h
                    && agrees_on_aspectRatio 49 1 h)
    (map Z.of_nat (seq 1 300)) = true.
Proof. vm_compute. repeat split. Qed.




(** * Facts about numbers *)

Section Numbers.
Local Open Scope Q_scope.

Lemma Qltb_true (x y : Q) : Qltb x y = true <-> x < y.
Proof.
  unfold Qltb. rewrite negb_true_iff, <- not_true_iff_false, Qle_bool_iff.
  split; [apply Qnot_le_lt | apply Qlt_not_le].
Qed.

Lemma Qltb_false (x y : Q) : Qltb x y = false <-> y <= x.
Proof.
  unfold Qltb. rewrite negb_false_iff. apply Qle_bool_iff.
Qed.

Lemma Math_min_le_l (a b : Q) : Math_min a b <= a.
Proof.
  unfold Math_min. destruct (Qle_bool a b) eqn:E; [lra |].
  apply not_true_iff_false in E. rewrite Qle_bool_iff in E. lra.
Qed.

Lemma Math_min_le_r (a b : Q) : Math_min a b <= b.
Proof.
  unfold Math_min. destruct (Qle_bool a b) eqn:E.
  - now apply Qle_bool_iff.
  - lra.
Qed.

Lemma Math_min_glb (a b c : Q) : c <= a -> c <= b -> c <= Math_min a b.
Proof. unfold Math_min. now destruct (Qle_bool a b). Qed.

(** An integer at or above [x] is at or above [Math.round x]. *)
Lemma Math_round_le_Z (x : Q) (n : Z) :
  x <= inject_Z n -> Math_round x <= inject_Z n.
Proof.
  intros Hx. unfold Math_round. rewrite <- Zle_Qle.
  assert (H : (Qfloor (x + (1 # 2)) < n + 1)%Z).
  { rewrite Zlt_Qlt. pose proof (Qfloor_le (x + (1 # 2))).
    rewrite inject_Z_plus. change (inject_Z 1) with 1. lra. }
  lia.
Qed.

Lemma Math_round_le_half (x : Q) (n : Z) :
  x < inject_Z n + (1 # 2) -> Math_round x <= inject_Z n.
Proof.
  intros Hx. unfold Math_round. rewrite <- Zle_Qle.
  assert (H : (Qfloor (x + (1 # 2)) < n + 1)%Z).
  { rewrite Zlt_Qlt. pose proof (Qfloor_le (x + (1 # 2))).
    rewrite inject_Z_plus. change (inject_Z 1) with 1. lra. }
  lia.
Qed.

(** [Math.round x] goes past an integer only if [x] passes it by a half. *)
Lemma Math_round_gt_Z (x : Q) (n : Z) :
  inject_Z n < Math_round x -> inject_Z n + (1 # 2) <= x.
Proof.
  unfold Math_round. rewrite <- Zlt_Qlt. intros H.
  assert (H1 : (n + 1 <= Qfloor (x + (1 # 2)))%Z) by lia.
  rewrite Zle_Qle, inject_Z_plus in H1. change (inject_Z 1) with 1 in H1.
  pose proof (Qfloor_le (x + (1 # 2))). lra.
Qed.

Lemma Math_round_nonneg (x : Q) : 0 <= x -> 0 <= Math_round x.
Proof.
  intros Hx. unfold Math_round. change 0 with (inject_Z 0).
  rewrite <- Zle_Qle. apply (Qfloor_resp_le 0). lra.
Qed.

(** [Math.round x] is at least one exactly from one half on. *)
Lemma Math_round_pos (x : Q) : 1 <= Math_round x <-> (1 # 2) <= x.
Proof.
  unfold Math_round. change 1 with (inject_Z 1). rewrite <- Zle_Qle. split.
  - intros H. rewrite Zle_Qle in H. pose proof (Qfloor_le (x + (1 # 2))).
    change (inject_Z 1) with 1 in *. lra.
  - intros H. apply (Qfloor_resp_le 1). lra.
Qed.

(** On non-negative numbers the two rounding rules agree. *)
Lemma Math_round_half_away (x : Q) : 0 <= x -> Math_round x = round_half_away x.
Proof.
  intros Hx. unfold round_half_away.
  destruct (Qltb x 0) eqn:E; [| reflexivity].
  apply Qltb_true in E. lra.
Qed.

Lemma Number_isInteger_true (x : Q) :
  Number_isInteger x = true <-> exists n : Z, x == inject_Z n.
Proof.
  unfold Number_isInteger. rewrite Qeq_bool_iff. split.
  - intros H. now exists (Qfloor x).
  - intros [n Hn]. rewrite Hn at 2. rewrite Qfloor_Z. exact Hn.
Qed.

End Numbers.


(** * [validateDimensions] *)

Section Validation.
Import RecompressApp.
Local Open Scope Q_scope.

Lemma Number_isInteger_false (x : Q) :
  Number_isInteger x = false <-> ~ whole x.
Proof.
  rewrite <- not_true_iff_false. unfold whole.
  now rewrite Number_isInteger_true.
Qed.

Lemma Qle_bool_false (x y : Q) : Qle_bool x y = false <-> y < x.
Proof.
  rewrite <- not_true_iff_false, Qle_bool_iff.
  split; [apply Qnot_le_lt | apply Qlt_not_le].
Qed.

(** What [validateDimensions] lets through. *)
Lemma validateDimensions_accepts (W H : Q) :
  validateDimensions W H = None <->
  (whole W /\ whole H) /\ (0 < W /\ 0 < H) /\
  (W <= MAX_DIMENSIONS /\ H <= MAX_DIMENSIONS).
Proof.
  unfold validateDimensions.
  destruct (Number_isInteger W) eqn:Iw;
    [apply Number_isInteger_true in Iw | apply Number_isInteger_false in Iw];
  (destruct (Number_isInteger H) eqn:Ih;
    [apply Number_isInteger_true in Ih | apply Number_isInteger_false in Ih]);
  cbn [negb orb]; try (split; [discriminate | tauto]).
  destruct (Qle_bool W 0) eqn:Zw;
    [apply Qle_bool_iff in Zw | apply Qle_bool_false in Zw];
  (destruct (Qle_bool H 0) eqn:Zh;
    [apply Qle_bool_iff in Zh | apply Qle_bool_false in Zh]);
  cbn [orb]; try (split; [discriminate | intros (_ & [? ?] & _); lra]).
  destruct (Qltb MAX_DIMENSIONS W) eqn:Mw;
    [apply Qltb_true in Mw | apply Qltb_false in Mw];
  (destruct (Qltb MAX_DIMENSIONS H) eqn:Mh;
    [apply Qltb_true in Mh | apply Qltb_false in Mh]);
  cbn [orb]; try (split; [discriminate | intros (_ & _ & [? ?]); lra]).
  split; [intros _ | reflexivity]. repeat split; assumption.
Qed.

(** What it turns away is what the specification calls invalid. *)
Lemma validateDimensions_rejects (W H : Q) :
  invalidBounds W H <-> validateDimensions W H <> None.
Proof.
  rewrite validateDimensions_accepts.
  unfold invalidBounds, invalidAxis. split.
  - intros [[Hx | [Hx | Hx]] | [Hx | [Hx | Hx]]] [[? ?] [[? ?] [? ?]]];
      try contradiction; lra.
  - intros Hn.
    destruct (Qlt_le_dec 0 W) as [Hw | Hw]; [| now left; left].
    destruct (Qlt_le_dec 0 H) as [Hh | Hh]; [| now right; left].
    destruct (Qlt_le_dec MAX_DIMENSIONS W) as [Mw | Mw];
      [now left; right; right |].
    destruct (Qlt_le_dec MAX_DIMENSIONS H) as [Mh | Mh];
      [now right; right; right |].
    destruct (Number_isInteger W) eqn:Iw;
      [| apply Number_isInteger_false in Iw; now left; right; left].
    destruct (Number_isInteger H) eqn:Ih;
      [| apply Number_isInteger_false in Ih; now right; right; left].
    apply Number_isInteger_true in Iw, Ih.
    exfalso. apply Hn. repeat split; assumption.
Qed.

End Validation.

(** * [resizeImage] *)

Section Fit.
Local Open Scope Q_scope.
Import ProcessImageApp.

Variable img : HTMLImageElement.
Hypothesis Hw : (0 < img_width img)%Z.
Hypothesis Hh : (0 < img_height img)%Z.

Let w : Q := inject_Z (img_width img).
Let h : Q := inject_Z (img_height img).

Lemma source_width_pos : 0 < w.
Proof. subst w. change 0 with (inject_Z 0). now rewrite <- Zlt_Qlt. Qed.

Lemma source_height_pos : 0 < h.
Proof. subst h. change 0 with (inject_Z 0). now rewrite <- Zlt_Qlt. Qed.

Lemma resizeImage_fit_size (W H : Q) (e : option bool) :
  e = None \/ e = Some false ->
  let ratio := Math_min (Number_div W w) (Number_div H h) in
  snd (resizeImage img W H e) =
    if Qltb ratio 1
    then {| width := Number_mul w ratio; height := Number_mul h ratio |}
    else {| width := w; height := h |}.
Proof.
  intros [-> | ->]; unfold resizeImage;
    cbn -[Math_min Qltb ToUnsignedLong Number_div Number_mul];
    fold w h; now destruct (Qltb _ 1).
Qed.

Lemma resizeImage_canvas (W H : Q) (e : option bool) :
  fst (resizeImage img W H e) = canvasOf img (snd (resizeImage img W H e)).
Proof.
  unfold resizeImage. cbv zeta.
  now destruct (if match e with Some b => b | None => false end then _ else _).
Qed.

(** The ratio is the smaller of two rounded quotients. *)
Lemma ratio_nonneg (W H : Q) :
  0 <= W -> 0 <= H -> 0 <= Math_min (Number_div W w) (Number_div H h).
Proof.
  intros PW PH. pose proof source_width_pos. pose proof source_height_pos.
  apply Math_min_glb; apply binary64_nonneg; apply Qle_shift_div_l; lra.
Qed.

Lemma ratio_le (W H : Q) :
  0 <= W -> 0 <= H ->
  w * Math_min (Number_div W w) (Number_div H h) <= W * (1 + epsilon) /\
  h * Math_min (Number_div W w) (Number_div H h) <= H * (1 + epsilon).
Proof.
  intros PW PH.
  pose proof source_width_pos as Pw. pose proof source_height_pos as Ph.
  pose proof (Math_min_le_l (Number_div W w) (Number_div H h)) as Ml.
  pose proof (Math_min_le_r (Number_div W w) (Number_div H h)) as Mr.
  set (r := Math_min _ _) in *. unfold Number_div in Ml, Mr.
  assert (Qw : 0 <= W / w) by (apply Qle_shift_div_l; lra).
  assert (Qh : 0 <= H / h) by (apply Qle_shift_div_l; lra).
  destruct (binary64_error (W / w) Qw) as [_ Ew].
  destruct (binary64_error (H / h) Qh) as [_ Eh].
  assert (Cw : w * (W / w) == W) by (field; lra).
  assert (Ch : h * (H / h) == H) by (field; lra).
  unfold epsilon in *. split; nra.
Qed.

(** A source within the bounds is left as it is. *)
Lemma resizeImage_no_upscale (W H : Q) (e : option bool) :
  e = None \/ e = Some false ->
  w <= W -> h <= H ->
  snd (resizeImage img W H e) = {| width := w; height := h |}.
Proof.
  intros He HW HH. rewrite (resizeImage_fit_size W H e He). cbv zeta.
  pose proof source_width_pos as Pw. pose proof source_height_pos as Ph.
  assert (E : Qltb (Math_min (Number_div W w) (Number_div H h)) 1 = false).
  { apply Qltb_false. apply Math_min_glb; unfold Number_div.
    - change 1 with (binary64 1). apply binary64_le.
      apply Qle_shift_div_l; lra.
    - change 1 with (binary64 1). apply binary64_le.
      apply Qle_shift_div_l; lra. }
  now rewrite E.
Qed.

(** Within non-negative bounds the size returned is non-negative and
    not larger than the source. *)
Lemma resizeImage_range (W H : Q) (e : option bool) :
  e = None \/ e = Some false ->
  0 <= W -> 0 <= H ->
  (img_width img < 2 ^ 53)%Z -> (img_height img < 2 ^ 53)%Z ->
  (0 <= width (snd (resizeImage img W H e)) <= w) /\
  (0 <= height (snd (resizeImage img W H e)) <= h).
Proof.
  intros He PW PH Bw Bh. rewrite (resizeImage_fit_size W H e He). cbv zeta.
  pose proof source_width_pos as Pw. pose proof source_height_pos as Ph.
  pose proof (ratio_nonneg W H PW PH) as Pr.
  set (ratio := Math_min _ _) in *.
  destruct (Qltb ratio 1) eqn:E; cbn [width height].
  - apply Qltb_true in E. unfold Number_mul.
    assert (Ew : binary64 w == w) by (apply binary64_Z; lia).
    assert (Eh : binary64 h == h) by (apply binary64_Z; lia).
    assert (Lw : binary64 (w * ratio) <= binary64 w) by (apply binary64_le; nra).
    assert (Lh : binary64 (h * ratio) <= binary64 h) by (apply binary64_le; nra).
    assert (Nw : 0 <= binary64 (w * ratio)) by (apply binary64_nonneg; nra).
    assert (Nh : 0 <= binary64 (h * ratio)) by (apply binary64_nonneg; nra).
    repeat split; lra.
  - repeat split; lra.
Qed.

(** Each side returned exceeds its bound by two roundings at most: the
    one of the quotient and the one of the product. *)
Lemma resizeImage_scaled_near (W H : Q) :
  0 <= W -> 0 <= H ->
  let ratio := Math_min (Number_div W w) (Number_div H h) in
  Number_mul w ratio <= W * (1 + epsilon) * (1 + epsilon) /\
  Number_mul h ratio <= H * (1 + epsilon) * (1 + epsilon).
Proof.
  intros PW PH ratio.
  pose proof source_width_pos as Pw. pose proof source_height_pos as Ph.
  pose proof (ratio_nonneg W H PW PH) as Pr.
  destruct (ratio_le W H PW PH) as [Rw Rh]. fold ratio in Pr, Rw, Rh.
  unfold Number_mul.
  assert (Xw : 0 <= w * ratio) by nra.
  assert (Xh : 0 <= h * ratio) by nra.
  destruct (binary64_error (w * ratio) Xw) as [_ Ew].
  destruct (binary64_error (h * ratio) Xh) as [_ Eh].
  unfold epsilon in *. split; nra.
Qed.

(** With whole bounds, a source that is not scaled is within them. *)
Lemma ratio_ge_1 (W H : Q) (Wz Hz : Z) :
  W == inject_Z Wz -> H == inject_Z Hz ->
  (img_width img < 2 ^ 53)%Z -> (img_height img < 2 ^ 53)%Z ->
  1 <= Math_min (Number_div W w) (Number_div H h) -> w <= W /\ h <= H.
Proof.
  intros HW HH Bw Bh Hr.
  pose proof source_width_pos as Pw. pose proof source_height_pos as Ph.
  pose proof (Math_min_le_l (Number_div W w) (Number_div H h)) as Ml.
  pose proof (Math_min_le_r (Number_div W w) (Number_div H h)) as Mr.
  assert (K : forall (x : Z) (X : Q) (Xz : Z),
             (0 < x < 2 ^ 53)%Z -> X == inject_Z Xz ->
             1 <= Number_div X (inject_Z x) -> inject_Z x <= X).
  { intros x X Xz [Px Bx] HX H1. rewrite HX. rewrite <- Zle_Qle.
    destruct (Z_lt_le_dec Xz x) as [L | L]; [exfalso | exact L].
    unfold Number_div in H1.
    assert (Px' : 0 < inject_Z x) by (rewrite <- (Zlt_Qlt 0); exact Px).
    assert (Bx' : inject_Z x < 9007199254740992).
    { change 9007199254740992 with (inject_Z (2 ^ 53)).
      rewrite <- Zlt_Qlt. exact Bx. }
    assert (L' : X + 1 <= inject_Z x).
    { rewrite HX. change 1 with (inject_Z 1).
      rewrite <- inject_Z_plus, <- Zle_Qle. lia. }
    destruct (Qlt_le_dec X 0) as [N | N].
    - assert (Le : binary64 (X / inject_Z x) <= binary64 0).
      { apply binary64_le. apply Qle_shift_div_r; lra. }
      rewrite binary64_0 in Le. lra.
    - assert (Q0 : 0 <= X / inject_Z x) by (apply Qle_shift_div_l; lra).
      destruct (binary64_error _ Q0) as [_ E].
      assert (C : inject_Z x * (X / inject_Z x) == X) by (field; lra).
      unfold epsilon in E. nra. }
  split.
  - apply (K (img_width img) W Wz); [lia | exact HW | fold w; lra].
  - apply (K (img_height img) H Hz); [lia | exact HH | fold h; lra].
Qed.

Lemma ToUnsignedLong_floor (x : Q) :
  0 <= x -> x < inject_Z (2 ^ 32) -> ToUnsignedLong x = Qfloor x.
Proof.
  intros Hx Hlt. unfold ToUnsignedLong, IntegerPart.
  assert (E : Qltb x 0 = false) by now apply Qltb_false.
  rewrite E. apply Z.mod_small. split.
  - apply (Qfloor_resp_le 0 x Hx).
  - rewrite Zlt_Qlt. apply Qle_lt_trans with x; [apply Qfloor_le | exact Hlt].
Qed.

(** The bitmap that is encoded is the canvas, whose sides are the
    integer parts of the pair returned. Within whole bounds below 2^32
    the canvas fits the bounds, also when the pair returned does not. *)
Lemma resizeImage_canvas_within (W H : Q) (Wz Hz : Z) (e : option bool) :
  e = None \/ e = Some false ->
  W == inject_Z Wz -> H == inject_Z Hz ->
  (0 <= Wz < 2 ^ 32)%Z -> (0 <= Hz < 2 ^ 32)%Z ->
  (img_width img < 2 ^ 32)%Z -> (img_height img < 2 ^ 32)%Z ->
  (canvas_width (fst (resizeImage img W H e)) <= Wz)%Z /\
  (canvas_height (fst (resizeImage img W H e)) <= Hz)%Z.
Proof.
  intros He HW HH [PWz BWz] [PHz BHz] Bw Bh.
  pose proof source_width_pos as Pw. pose proof source_height_pos as Ph.
  assert (PW : 0 <= W) by (rewrite HW, <- (Zle_Qle 0); exact PWz).
  assert (PH : 0 <= H) by (rewrite HH, <- (Zle_Qle 0); exact PHz).
  assert (BW : W < 4294967296).
  { rewrite HW. change 4294967296 with (inject_Z (2 ^ 32)).
    rewrite <- Zlt_Qlt. exact BWz. }
  assert (BH : H < 4294967296).
  { rewrite HH. change 4294967296 with (inject_Z (2 ^ 32)).
    rewrite <- Zlt_Qlt. exact BHz. }
  assert (Bw' : w < inject_Z (2 ^ 32)) by (subst w; now rewrite <- Zlt_Qlt).
  assert (Bh' : h < inject_Z (2 ^ 32)) by (subst h; now rewrite <- Zlt_Qlt).
  destruct (resizeImage_range W H e He PW PH) as [[Lw Uw] [Lh Uh]]; [lia | lia |].
  rewrite resizeImage_canvas. unfold canvasOf. cbn [canvas_width canvas_height].
  rewrite !ToUnsignedLong_floor by lra.
  revert Lw Uw Lh Uh. rewrite (resizeImage_fit_size W H e He). cbv zeta.
  destruct (resizeImage_scaled_near W H PW PH) as [Nw Nh].
  pose proof (ratio_ge_1 W H Wz Hz HW HH) as G.
  set (ratio := Math_min _ _) in *.
  destruct (Qltb ratio 1) eqn:E; cbn [width height]; intros Lw Uw Lh Uh.
  - assert (Fw : Number_mul w ratio < inject_Z (Wz + 1)).
    { rewrite inject_Z_plus, <- HW. change (inject_Z 1) with 1.
      unfold epsilon in Nw. nra. }
    assert (Fh : Number_mul h ratio < inject_Z (Hz + 1)).
    { rewrite inject_Z_plus, <- HH. change (inject_Z 1) with 1.
      unfold epsilon in Nh. nra. }
    pose proof (Qfloor_le (Number_mul w ratio)) as F1.
    pose proof (Qfloor_le (Number_mul h ratio)) as F2.
    assert (Gw : inject_Z (Qfloor (Number_mul w ratio)) < inject_Z (Wz + 1)) by lra.
    assert (Gh : inject_Z (Qfloor (Number_mul h ratio)) < inject_Z (Hz + 1)) by lra.
    rewrite <- Zlt_Qlt in Gw, Gh. lia.
  - apply Qltb_false in E. destruct G as [Gw Gh]; [lia | lia | exact E |].
    subst w h. rewrite !Qfloor_Z. rewrite HW, HH in *.
    rewrite <- Zle_Qle in Gw, Gh. lia.
Qed.

(** The pair returned exceeds whole bounds by two roundings at most. *)
Lemma resizeImage_near_bounds (W H : Q) (Wz Hz : Z) (e : option bool) :
  e = None \/ e = Some false ->
  W == inject_Z Wz -> H == inject_Z Hz ->
  (0 <= Wz)%Z -> (0 <= Hz)%Z ->
  (img_width img < 2 ^ 53)%Z -> (img_height img < 2 ^ 53)%Z ->
  width (snd (resizeImage img W H e)) <= W * (1 + epsilon) * (1 + epsilon) /\
  height (snd (resizeImage img W H e)) <= H * (1 + epsilon) * (1 + epsilon).
Proof.
  intros He HW HH PWz PHz Bw Bh.
  rewrite (resizeImage_fit_size W H e He). cbv zeta.
  assert (PW : 0 <= W) by (rewrite HW, <- (Zle_Qle 0); lia).
  assert (PH : 0 <= H) by (rewrite HH, <- (Zle_Qle 0); lia).
  destruct (resizeImage_scaled_near W H PW PH) as [Nw Nh].
  pose proof (ratio_ge_1 W H Wz Hz HW HH Bw Bh) as G.
  destruct (Qltb _ 1) eqn:E; cbn [width height]; [split; assumption |].
  apply Qltb_false in E. destruct (G E) as [Gw Gh].
  unfold epsilon. split; nra.
Qed.
End Fit.

(** With or without [exactResize]: the canvas fits whole bounds below
    2^32, and the pair returned exceeds them by two roundings at most. *)
Lemma resizeImage_encoded_within (img : HTMLImageElement) (W H : Q)
    (Wz Hz : Z) (e : option bool) :
  (0 < img_width img < 2 ^ 32)%Z -> (0 < img_height img < 2 ^ 32)%Z ->
  (W == inject_Z Wz)%Q -> (H == inject_Z Hz)%Q ->
  (0 <= Wz < 2 ^ 32)%Z -> (0 <= Hz < 2 ^ 32)%Z ->
  ((canvas_width (fst (ProcessImageApp.resizeImage img W H e)) <= Wz)%Z /\
   (canvas_height (fst (ProcessImageApp.resizeImage img W H e)) <= Hz)%Z) /\
  (width (snd (ProcessImageApp.resizeImage img W H e))
     <= W * (1 + epsilon) * (1 + epsilon) /\
   height (snd (ProcessImageApp.resizeImage img W H e))
     <= H * (1 + epsilon) * (1 + epsilon))%Q.
Proof.
  intros [Hw Bw] [Hh Bh] HW HH BW BH.
  assert (PW : (0 <= W)%Q) by (rewrite HW, <- (Zle_Qle 0); lia).
  assert (PH : (0 <= H)%Q) by (rewrite HH, <- (Zle_Qle 0); lia).
  assert (Ex : e = Some true \/ (e = None \/ e = Some false)).
  { destruct e as [[|] |]; auto. }
  destruct Ex as [-> | He].
  - unfold ProcessImageApp.resizeImage, canvasOf.
    cbn [fst snd width height canvas_width canvas_height].
    assert (BW' : (W < inject_Z (2 ^ 32))%Q) by (rewrite HW, <- Zlt_Qlt; lia).
    assert (BH' : (H < inject_Z (2 ^ 32))%Q) by (rewrite HH, <- Zlt_Qlt; lia).
    rewrite !ToUnsignedLong_floor by assumption.
    rewrite HW at 1. rewrite HH at 1. rewrite !Qfloor_Z.
    unfold epsilon. repeat split; (lia || nra).
  - split.
    + apply (resizeImage_canvas_within img Hw Hh W H Wz Hz e He HW HH BW BH Bw Bh).
    + apply (resizeImage_near_bounds img Hw Hh W H Wz Hz e He HW HH); lia.
Qed.


(** * [scaleDown] and [resolveSize] *)

Section ScaleDown.
Local Open Scope Q_scope.
Import RecompressApp.

Variable img : HTMLImageElement.
Hypothesis Hw : (0 < img_width img)%Z.
Hypothesis Hh : (0 < img_height img)%Z.

Let w : Q := inject_Z (img_width img).
Let h : Q := inject_Z (img_height img).

(** The aspect ratio [compressImage] computes. *)
Let a : Q := Number_div w h.

(** Bounds that are whole numbers, as the presets' are and as
    [validateDimensions] demands of custom ones. *)
Variables (W H : Q) (Wz Hz : Z).
Hypothesis HW : W == inject_Z Wz.
Hypothesis HH : H == inject_Z Hz.

Lemma aspectRatio_pos : 0 < a.
Proof.
  pose proof (source_width_pos img Hw) as Pw.
  pose proof (source_height_pos img Hh) as Ph.
  cbv zeta in Pw, Ph. fold w in Pw. fold h in Ph.
  subst a. unfold Number_div.
  apply binary64_pos. apply Qlt_shift_div_l; lra.
Qed.

Lemma aspectRatio_near :
  w * (1 - epsilon) <= a * h /\ a * h <= w * (1 + epsilon).
Proof.
  pose proof (source_width_pos img Hw) as Pw.
  pose proof (source_height_pos img Hh) as Ph.
  cbv zeta in Pw, Ph. fold w in Pw. fold h in Ph.
  assert (Q0 : 0 <= w / h) by (apply Qle_shift_div_l; lra).
  destruct (binary64_error _ Q0) as [E1 E2]. fold (Number_div w h) in E1, E2.
  fold a in E1, E2.
  assert (C : w / h * h == w) by (field; lra).
  unfold epsilon in *. split; nra.
Qed.

(** Within whole bounds up to 2^50 both sides fit the bounds. *)
Lemma scaleDown_within :
  (0 <= Wz <= 2 ^ 50)%Z -> (0 <= Hz <= 2 ^ 50)%Z ->
  fst (scaleDown w h a W H) <= W /\
  snd (scaleDown w h a W H) <= H.
Proof.
  intros BW BH.
  pose proof (source_width_pos img Hw) as Pw.
  pose proof (source_height_pos img Hh) as Ph.
  cbv zeta in Pw, Ph. fold w in Pw. fold h in Ph.
  pose proof aspectRatio_pos as Pa.
  destruct aspectRatio_near as [A1 A2].
  assert (PW : 0 <= W) by (rewrite HW, <- (Zle_Qle 0); lia).
  assert (PH : 0 <= H) by (rewrite HH, <- (Zle_Qle 0); lia).
  assert (UW : W <= 1125899906842624).
  { rewrite HW. change 1125899906842624 with (inject_Z (2 ^ 50)).
    rewrite <- Zle_Qle. lia. }
  assert (EW : binary64 W == W) by (rewrite HW; apply binary64_Z; lia).
  assert (EH : binary64 H == H) by (rewrite HH; apply binary64_Z; lia).
  unfold scaleDown. destruct (Qltb W w) eqn:E1.
  - destruct (Qltb H (Math_round (Number_div W a))) eqn:E2; cbn [fst snd].
    + split; [| lra]. rewrite HW. apply Math_round_le_Z. rewrite <- HW.
      apply Qltb_true in E2. rewrite HH in E2.
      apply Math_round_gt_Z in E2. rewrite <- HH in E2.
      unfold Number_div in E2. unfold Number_mul.
      assert (L : H * a <= W).
      { apply Qnot_lt_le. intros C.
        assert (D : W / a <= H) by (apply Qle_shift_div_r; lra).
        apply binary64_le in D. lra. }
      apply binary64_le in L. lra.
    + apply Qltb_false in E2. split; lra.
  - apply Qltb_false in E1.
    destruct (Qltb H h) eqn:E2; cbn [fst snd].
    + split; [| lra]. rewrite HW. apply Math_round_le_half. rewrite <- HW.
      apply Qltb_true in E2. unfold Number_mul.
      assert (X : 0 <= H * a) by nra.
      destruct (binary64_error _ X) as [_ E].
      assert (Y : H * a * h <= w * (1 + epsilon) * h) by nra.
      apply Qmult_le_r in Y; [| exact Ph].
      assert (Y' : H * a <= W * (1 + epsilon)).
      { unfold epsilon in *. nra. }
      assert (Y'' : binary64 (H * a) <= W * (1 + epsilon) * (1 + epsilon)).
      { unfold epsilon in *. nra. }
      unfold epsilon in *. lra.
    + apply Qltb_false in E2. split; lra.
Qed.

Lemma whole_inject_Z (n : Z) : whole (inject_Z n).
Proof. now exists n. Qed.

Lemma whole_Math_round (x : Q) : whole (Math_round x).
Proof. apply whole_inject_Z. Qed.

(** Every axis [scaleDown] rescales is rounded half away from zero. *)
Lemma scaleDown_rounding :
  0 <= W -> 0 <= H ->
  scaleDown w h a W H = (w, h) \/
  scaleDown w h a W H = (W, round_half_away (Number_div W a)) \/
  scaleDown w h a W H = (round_half_away (Number_mul H a), H).
Proof.
  intros PW PH. pose proof aspectRatio_pos as Pa.
  assert (R1 : 0 <= Number_div W a).
  { apply binary64_nonneg. apply Qle_shift_div_l; lra. }
  assert (R2 : 0 <= Number_mul H a).
  { apply binary64_nonneg. apply Qmult_le_0_compat; lra. }
  rewrite <- (Math_round_half_away _ R1), <- (Math_round_half_away _ R2).
  unfold scaleDown. destruct (Qltb W w).
  - destruct (Qltb H (Math_round (Number_div W a))); auto.
  - destruct (Qltb H h); auto.
Qed.

Lemma scaleDown_whole :
  whole (fst (scaleDown w h a W H)) /\
  whole (snd (scaleDown w h a W H)).
Proof.
  assert (IW : whole W) by now exists Wz.
  assert (IH : whole H) by now exists Hz.
  assert (Iw : whole w) by apply whole_inject_Z.
  assert (Ih : whole h) by apply whole_inject_Z.
  unfold scaleDown. destruct (Qltb W w).
  - destruct (Qltb H (Math_round (Number_div W a))); cbn [fst snd];
      split; solve [assumption | apply whole_Math_round].
  - destruct (Qltb H h); cbn [fst snd];
      split; solve [assumption | apply whole_Math_round].
Qed.

Lemma scaleDown_nonneg :
  0 <= W -> 0 <= H ->
  0 <= fst (scaleDown w h a W H) /\
  0 <= snd (scaleDown w h a W H).
Proof.
  intros PW PH.
  pose proof (source_width_pos img Hw) as Pw.
  pose proof (source_height_pos img Hh) as Ph.
  cbv zeta in Pw, Ph. fold w in Pw. fold h in Ph.
  pose proof aspectRatio_pos as Pa.
  assert (R1 : 0 <= Number_div W a).
  { apply binary64_nonneg. apply Qle_shift_div_l; lra. }
  assert (R2 : 0 <= Number_mul H a).
  { apply binary64_nonneg. apply Qmult_le_0_compat; lra. }
  apply Math_round_nonneg in R1, R2.
  unfold scaleDown. destruct (Qltb W w).
  - destruct (Qltb H (Math_round (Number_div W a))); cbn [fst snd]; split; lra.
  - destruct (Qltb H h); cbn [fst snd]; split; lra.
Qed.

(** No axis comes out as zero when the exactly scaled sides are at
    least one pixel. *)
Lemma scaleDown_positive :
  (1 <= Wz < 2 ^ 53)%Z -> (1 <= Hz < 2 ^ 53)%Z ->
  w <= W * h -> h <= H * w ->
  1 <= fst (scaleDown w h a W H) /\
  1 <= snd (scaleDown w h a W H).
Proof.
  intros BW BH Dw Dh.
  pose proof (source_width_pos img Hw) as Pw.
  pose proof (source_height_pos img Hh) as Ph.
  cbv zeta in Pw, Ph. fold w in Pw. fold h in Ph.
  pose proof aspectRatio_pos as Pa.
  destruct aspectRatio_near as [A1 A2].
  assert (PW : 1 <= W) by (rewrite HW, <- (Zle_Qle 1); lia).
  assert (PH : 1 <= H) by (rewrite HH, <- (Zle_Qle 1); lia).
  assert (EW : binary64 W == W) by (rewrite HW; apply binary64_Z; lia).
  assert (Lw : 1 <= w).
  { subst w. change 1 with (inject_Z 1). rewrite <- Zle_Qle. lia. }
  assert (Lh : 1 <= h).
  { subst h. change 1 with (inject_Z 1). rewrite <- Zle_Qle. lia. }
  assert (R1 : 1 <= Math_round (Number_div W a)).
  { apply Math_round_pos. unfold Number_div.
    assert (T : a <= W).
    { subst a. unfold Number_div. rewrite <- EW. apply binary64_le.
      apply Qle_shift_div_r; lra. }
    assert (U : binary64 1 <= binary64 (W / a)).
    { apply binary64_le. apply Qle_shift_div_l; lra. }
    change (binary64 1) with 1 in U. lra. }
  assert (R2 : 1 <= Math_round (Number_mul H a)).
  { apply Math_round_pos. unfold Number_mul.
    assert (T : (1 # 2) <= H * a).
    { unfold epsilon in A1.
      assert (T0 : H * (w * (1 - (1 # 9007199254740992))) <= H * (a * h)).
      { apply Qmult_le_l; [lra | exact A1]. }
      assert (T1 : h * (1 # 2) <= H * a * h) by nra.
      setoid_replace (h * (1 # 2)) with ((1 # 2) * h) in T1 by ring.
      apply Qmult_le_r in T1; [exact T1 | exact Ph]. }
    apply binary64_le in T. change (binary64 (1 # 2)) with (1 # 2) in T.
    exact T. }
  unfold scaleDown. destruct (Qltb W w).
  - destruct (Qltb H (Math_round (Number_div W a))); cbn [fst snd]; split; lra.
  - destruct (Qltb H h); cbn [fst snd]; split; lra.
Qed.

Lemma scaleDown_no_upscale :
  w <= W -> h <= H -> scaleDown w h a W H = (w, h).
Proof.
  intros Lw Lh. unfold scaleDown.
  assert (E1 : Qltb W w = false) by now apply Qltb_false.
  assert (E2 : Qltb H h = false) by now apply Qltb_false.
  now rewrite E1, E2.
Qed.
End ScaleDown.


Section ResolveSize.
Local Open Scope Q_scope.
Import RecompressApp.

(** The bounds of a fit are whole numbers from 1 on. *)
Lemma fitsWithin_bounds p d W H :
  fitsWithin p d W H ->
  (exists Wz Hz, W == inject_Z Wz /\ H == inject_Z Hz) /\ 1 <= W /\ 1 <= H.
Proof.
  destruct 1 as [d | d | W H Hv |].
  1, 2, 4: split; [eexists _, _; split; apply inject_Z_injective; reflexivity
                   | split; discriminate].
  apply validateDimensions_accepts in Hv
    as ([[Wz HW] [Hz HH]] & [PW PH] & _).
  split; [now exists Wz, Hz |].
  rewrite HW, HH in *. change 0 with (inject_Z 0) in PW, PH.
  change 1 with (inject_Z 1). rewrite <- Zlt_Qlt in PW, PH.
  rewrite <- !Zle_Qle. lia.
Qed.

Lemma fitsWithin_whole p d W H :
  fitsWithin p d W H ->
  exists Wz Hz, W == inject_Z Wz /\ H == inject_Z Hz /\
                (1 <= Wz <= 8000)%Z /\ (1 <= Hz <= 8000)%Z.
Proof.
  destruct 1 as [d | d | W H Hv |].
  - exists 2000%Z, 2000%Z. repeat split; (reflexivity || lia).
  - exists 3000%Z, 3000%Z. repeat split; (reflexivity || lia).
  - apply validateDimensions_accepts in Hv
      as ([[Wz HW] [Hz HH]] & [PW PH] & [UW UH]).
    exists Wz, Hz. rewrite HW, HH in *.
    change 0 with (inject_Z 0) in PW, PH.
    change MAX_DIMENSIONS with (inject_Z 8000) in UW, UH.
    rewrite <- Zlt_Qlt in PW, PH. rewrite <- Zle_Qle in UW, UH.
    repeat split; (reflexivity || lia).
  - exists 1920%Z, 1080%Z. repeat split; (reflexivity || lia).
Qed.

(** The size a fit resolves to is [scaleDown]'s. *)
Lemma resolveSize_fit img p d W H :
  fitsWithin p d W H ->
  let w := inject_Z (img_width img) in
  let h := inject_Z (img_height img) in
  resolveSize img p d =
  {| width := fst (scaleDown w h (Number_div w h) W H);
     height := snd (scaleDown w h (Number_div w h) W H) |}.
Proof.
  destruct 1; unfold resolveSize; cbn [PRESETS maxWidth maxHeight];
    now destruct (scaleDown _ _ _ _ _).
Qed.

(** The size [compressImage] resolves fits the bounds. *)
Lemma resolveSize_within img p d W H :
  (0 < img_width img)%Z -> (0 < img_height img)%Z ->
  fitsWithin p d W H ->
  width (resolveSize img p d) <= W /\ height (resolveSize img p d) <= H.
Proof.
  intros Hw Hh Hf. rewrite (resolveSize_fit img p d W H Hf). cbv zeta.
  cbn [width height].
  destruct (fitsWithin_whole p d W H Hf) as (Wz & Hz & HW & HH & BW & BH).
  apply (scaleDown_within img Hw Hh W H Wz Hz HW HH); lia.
Qed.
End ResolveSize.


(** * The quality descent of [compressToTargetSize] *)

Section Descent.
Import ProcessImageApp.

Lemma logged_app {S} (c1 c2 : list EncodeCall) (w : World S) :
  logged c1 (logged c2 w) = logged (c1 ++ c2) w.
Proof. unfold logged. cbn. now rewrite app_assoc. Qed.

Lemma toBlob_logged {S} B canvas type q (w : World S) :
  toBlob B canvas type q w =
  (logged [{| call_canvas := canvas; call_type := type; call_quality := q |}] w,
   Fulfilled (option_map (Build_Blob type) (codec B canvas type q))).
Proof. reflexivity. Qed.

(** The loop always comes back, and does so along a [descent]. *)
Lemma compressToTargetSize_loop_descent B canvas t q :
  exists calls p,
    descent B canvas t q calls p /\
    forall w, compressToTargetSize_loop B canvas t q w = (logged calls w, p).
Proof.
  induction q as [q IH] using (well_founded_induction (Z.lt_wf 50)).
  rewrite compressToTargetSize_loop_equation_1.
  destruct (codec B canvas image_jpeg (inject_Z q / 100)) as [data |] eqn:Ec.
  - destruct (size_le (blob_size (jpegBlob data)) t || (q <=? 50)) eqn:Eb.
    + eexists _, _. split; [eapply descent_break; eassumption |].
      intros w. unfold Async.bind. rewrite toBlob_logged, Ec. cbn [option_map].
      fold (jpegBlob data). rewrite Eb. reflexivity.
    + destruct (Z_lt_dec 50 (q - 5)) as [Hlt | Hge].
      * destruct (IH (q - 5)) as (calls & p & Hd & Hrun); [lia |].
        exists (calls ++ [jpegCall canvas q]), p.
        split; [eapply descent_step; eassumption |].
        intros w. unfold Async.bind. rewrite toBlob_logged, Ec. cbn [option_map].
        fold (jpegBlob data). rewrite Eb, Hrun, logged_app. reflexivity.
      * eexists _, _. split; [eapply descent_exit; try eassumption; lia |].
        intros w. unfold Async.bind. rewrite toBlob_logged, Ec. cbn [option_map].
        fold (jpegBlob data). rewrite Eb. reflexivity.
  - eexists _, _. split; [eapply descent_null; eassumption |].
    intros w. unfold Async.bind. rewrite toBlob_logged, Ec. reflexivity.
Qed.

(** What every descent has in common. *)
Lemma descent_calls B canvas t q calls p :
  descent B canvas t q calls p ->
  calls <> [] /\
  Forall (fun c => call_canvas c = canvas /\ call_type c = image_jpeg) calls.
Proof.
  induction 1 as [q Hc | q data Hc Hb | q data Hc Hb Hq
                 | q data calls p Hc Hb Hq Hd [IHn IHf]].
  1-3: split; [discriminate | repeat constructor].
  split.
  - destruct calls; discriminate.
  - apply Forall_app. split; [assumption | repeat constructor].
Qed.

(** How a descent ends: never pending; rejected only when the codec
    handed [null] to the most recent call; fulfilled with the JPEG blob
    of the most recent call, which the codec produced either at the
    returned quality or, when the loop was left through its [while]
    test, five points above it. *)
Lemma descent_end B canvas t q calls p :
  descent B canvas t q calls p ->
  match p with
  | Fulfilled r =>
      blob_type (blob r) = image_jpeg /\
      finalQuality r <= q /\
      (exists c rest, calls = c :: rest /\
         handed B c = Some (blob_data (blob r))) /\
      (codec B canvas image_jpeg (inject_Z (finalQuality r) / 100)
         = Some (blob_data (blob r)) \/
       (finalQuality r <= 50 /\
        size_le (blob_size (blob r)) t = false /\
        codec B canvas image_jpeg (inject_Z (finalQuality r + 5) / 100)
          = Some (blob_data (blob r))))
  | Rejected e =>
      exists c rest, calls = c :: rest /\ handed B c = None
  | Pending => False
  end.
Proof.
  induction 1 as [q Hc | q data Hc Hb | q data Hc Hb Hq
                 | q data calls p Hc Hb Hq Hd IH].
  - exists (jpegCall canvas q), []. split; [reflexivity | exact Hc].
  - cbn. repeat split; [lia | | now left].
    exists (jpegCall canvas q), []. split; [reflexivity | exact Hc].
  - cbn. apply orb_false_iff in Hb as [Hs _].
    repeat split; [lia | |].
    + exists (jpegCall canvas q), []. split; [reflexivity | exact Hc].
    + right. repeat split; [assumption .. |].
      replace (q - 5 + 5) with q by lia. assumption.
  - destruct p as [r | e |]; [| | assumption].
    + destruct IH as (Ht & Hle & (c & rest & -> & Hh) & Hq').
      repeat split; [assumption | lia | | assumption].
      exists c, (rest ++ [jpegCall canvas q]). split; [reflexivity | assumption].
    + destruct IH as (c & rest & -> & Hn).
      exists c, (rest ++ [jpegCall canvas q]). split; [reflexivity | assumption].
Qed.

(** ** One call of [processImage] *)

Lemma processImage_resume_effect B r :
  exists e calls,
    (forall w, processImage_resume B r w =
               ({| ui := effect e (ui w); encodeLog := calls ++ encodeLog w |},
                settles e)) /\
    Forall (fun c => call_type c = requestedType r) calls /\
    match e with
    | Published c =>
        decodeUrl B (id_dataUrl (req_imageData r)) <> None /\
        blob_type (ci_blob c) = requestedType r /\
        exists call rest, calls = call :: rest /\
          handed B call = Some (blob_data (ci_blob c))
    | Failed _ =>
        decodeUrl B (id_dataUrl (req_imageData r)) <> None /\
        exists call rest, calls = call :: rest /\ handed B call = None
    | Suspended =>
        decodeUrl B (id_dataUrl (req_imageData r)) = None /\ calls = []
    end.
Proof.
  unfold processImage_resume, requestedType.
  unfold Async.finally, Async.try_catch, Async.bind, loadDataUrl.
  destruct (decodeUrl B (id_dataUrl (req_imageData r))) as [img |] eqn:El.
  2:{ exists Suspended, []. repeat split; [| constructor].
      intros [s l]. reflexivity. }
  cbv beta iota delta [Async.ret].
  destruct (resizeImage img (maxWidth (requestSettings r))
              (maxHeight (requestSettings r)) (exactResize (requestSettings r)))
    as [canvas dimensions].
  destruct (is_Infinity (targetSize (requestSettings r))) eqn:Ei.
  - destruct (codec B canvas (outputType (req_imageData r))
                (inject_Z (req_qualityValue r) / 100)) as [data |] eqn:Ec.
    + eexists (Published _), [_]. split; [| split].
      * intros w. rewrite toBlob_logged, Ec. reflexivity.
      * repeat constructor.
      * split; [discriminate |]. split; [reflexivity |].
        eexists _, []. split; [reflexivity | exact Ec].
    + eexists (Failed _), [_]. split; [| split].
      * intros w. rewrite toBlob_logged, Ec. reflexivity.
      * repeat constructor.
      * split; [discriminate |]. eexists _, []. split; [reflexivity | exact Ec].
  - unfold compressToTargetSize.
    destruct (compressToTargetSize_loop_descent B canvas
                (targetSize (requestSettings r)) (req_qualityValue r))
      as (calls & p & Hd & Hrun).
    pose proof (descent_calls _ _ _ _ _ _ Hd) as [_ Hty].
    pose proof (descent_end _ _ _ _ _ _ Hd) as Hend.
    assert (Hty' : Forall (fun c => call_type c = image_jpeg) calls).
    { eapply Forall_impl; [| exact Hty]. now intros c [_ ?]. }
    destruct p as [res | e |]; [| | contradiction].
    + destruct Hend as (Ht & _ & Hh & _).
      eexists (Published _), calls. split; [| split].
      * intros w. rewrite Hrun. cbn. reflexivity.
      * exact Hty'.
      * split; [discriminate |]. split; [exact Ht | exact Hh].
    + eexists (Failed _), calls. split; [| split].
      * intros w. rewrite Hrun. cbn. reflexivity.
      * exact Hty'.
      * split; [discriminate | exact Hend].
Qed.
End Descent.

(** * [recompressImage] *)

Section Recompress.
Import RecompressApp.
Local Open Scope Q_scope.

(** A request with bounds that do not validate never reaches the codec
    and leaves the published image alone. *)
Lemma recompressImage_invalid B (s : State) (w : World State) msg :
  selectedPreset s = custom ->
  validateDimensions (customWidth s) (customHeight s) = Some msg ->
  encodeLog (fst (recompressImage B s w)) = encodeLog w /\
  compressedImage (ui (fst (recompressImage B s w))) = compressedImage (ui w) /\
  (forall original img,
     originalImage s = Some original ->
     decodeFile B (id_file original) = Some img ->
     dimensionError (ui (fst (recompressImage B s w))) = Some msg /\
     isProcessing (ui (fst (recompressImage B s w))) = false /\
     snd (recompressImage B s w) = Fulfilled tt).
Proof.
  intros Hp Hv. unfold recompressImage, recompressImage_start,
    recompressImage_resume.
  destruct (originalImage s) as [original |]; [| now repeat split].
  unfold Async.try_catch, Async.bind, loadImage. rewrite Hp, Hv.
  destruct (decodeFile B (id_file original)) as [img |] eqn:El.
  - cbn. repeat split.
  - cbn. split; [reflexivity |]. split; [reflexivity |].
    intros ? ? [= <-] El'. congruence.
Qed.

(** The canvas and quality of the one call [compressImage] makes. *)
Lemma compressImage_run B img preset q dims (w : World State) :
  compressImage B img preset q dims w =
  (logged [{| call_canvas := canvasOf img (resolveSize img preset dims);
              call_type := image_jpeg;
              call_quality := inject_Z q / 100 |}] w,
   match codec B (canvasOf img (resolveSize img preset dims)) image_jpeg
           (inject_Z q / 100) with
   | Some data =>
       Fulfilled
         {| ci_blob := {| blob_type := image_jpeg; blob_data := data |};
            ci_dataUrl :=
              toDataURL B (canvasOf img (resolveSize img preset dims))
                image_jpeg (inject_Z q / 100);
            ci_width := width (resolveSize img preset dims);
            ci_height := height (resolveSize img preset dims);
            ci_size := blob_size {| blob_type := image_jpeg; blob_data := data |} |}
   | None =>
       Rejected (Error "Failed to compress image: canvas.toBlob returned null.")
   end).
Proof.
  unfold compressImage, Async.bind. rewrite toBlob_logged.
  now destruct (codec B _ image_jpeg _).
Qed.

Lemma recompressImage_encode_null B (s : State) (w : World State) original img :
  originalImage s = Some original ->
  decodeFile B (id_file original) = Some img ->
  (selectedPreset s = custom ->
   validateDimensions (customWidth s) (customHeight s) = None) ->
  codec B (canvasOf img (resolveSize img (selectedPreset s) (passedDimensions s)))
    image_jpeg (inject_Z (quality s) / 100) = None ->
  compressedImage (ui (fst (recompressImage B s w))) = compressedImage (ui w) /\
  error (ui (fst (recompressImage B s w)))
    = Some "Failed to reprocess image. Please try again."%string /\
  isProcessing (ui (fst (recompressImage B s w))) = false /\
  snd (recompressImage B s w) = Fulfilled tt.
Proof.
  intros Ho Hl Hv Hc.
  unfold recompressImage, recompressImage_start, recompressImage_resume,
    passedDimensions in *.
  rewrite Ho. unfold Async.try_catch, Async.bind, loadImage. rewrite Hl.
  destruct (Preset_eqb (selectedPreset s) custom) eqn:Ep.
  - rewrite Hv by (now destruct (selectedPreset s)).
    cbn -[compressImage]. rewrite compressImage_run, Hc. now cbn.
  - cbn -[compressImage]. rewrite compressImage_run, Hc. now cbn.
Qed.
(** A call that succeeds publishes its own result over whatever the
    component shows by then: the state it overwrites is not consulted. *)
Lemma recompressImage_publishes B (s : State) (w : World State)
    original img data :
  originalImage s = Some original ->
  decodeFile B (id_file original) = Some img ->
  (selectedPreset s = custom ->
   validateDimensions (customWidth s) (customHeight s) = None) ->
  codec B (canvasOf img (resolveSize img (selectedPreset s) (passedDimensions s)))
    image_jpeg (inject_Z (quality s) / 100) = Some data ->
  compressedImage (ui (fst (recompressImage B s w))) =
  Some {| ci_blob := {| blob_type := image_jpeg; blob_data := data |};
          ci_dataUrl :=
            toDataURL B
              (canvasOf img
                 (resolveSize img (selectedPreset s) (passedDimensions s)))
              image_jpeg (inject_Z (quality s) / 100);
          ci_width :=
            width (resolveSize img (selectedPreset s) (passedDimensions s));
          ci_height :=
            height (resolveSize img (selectedPreset s) (passedDimensions s));
          ci_size := blob_size {| blob_type := image_jpeg; blob_data := data |} |}.
Proof.
  intros Ho Hl Hv Hc.
  unfold recompressImage, recompressImage_start, recompressImage_resume,
    passedDimensions in *.
  rewrite Ho. unfold Async.try_catch, Async.bind, loadImage. rewrite Hl.
  destruct (Preset_eqb (selectedPreset s) custom) eqn:Ep.
  - rewrite Hv by (now destruct (selectedPreset s)).
    cbn -[compressImage]. rewrite compressImage_run, Hc. now cbn.
  - cbn -[compressImage]. rewrite compressImage_run, Hc. now cbn.
Qed.
(** What the resumed part of a call does depends on the call alone: it
    never stays pending, and it writes its outcome over the state it
    finds. *)
Lemma recompressImage_resume_effect B (s : State) (original : ImageData) :
  exists e calls,
    forall w, recompressImage_resume B s original w =
              ({| ui := effect e (ui w); encodeLog := calls ++ encodeLog w |},
               Fulfilled tt).
Proof.
  unfold recompressImage_resume, Async.try_catch, Async.bind, loadImage.
  destruct (decodeFile B (id_file original)) as [img |].
  2:{ exists Failed, []. intros [u l]. reflexivity. }
  destruct (Preset_eqb (selectedPreset s) custom).
  - destruct (validateDimensions (customWidth s) (customHeight s))
      as [msg |].
    + exists (Refused msg), []. intros [u l]. reflexivity.
    + cbn -[compressImage].
      destruct (codec B
                  (canvasOf img
                     (resolveSize img (selectedPreset s)
                        (Some {| width := customWidth s;
                                 height := customHeight s |})))
                  image_jpeg (inject_Z (quality s) / 100)) eqn:Ec.
      * eexists (Published _), [_]. intros w.
        rewrite compressImage_run, Ec. reflexivity.
      * eexists Failed, [_]. intros w.
        rewrite compressImage_run, Ec. reflexivity.
  - cbn -[compressImage].
    destruct (codec B
                (canvasOf img (resolveSize img (selectedPreset s) None))
                image_jpeg (inject_Z (quality s) / 100)) eqn:Ec.
    + eexists (Published _), [_]. intros w.
      rewrite compressImage_run, Ec. reflexivity.
    + eexists Failed, [_]. intros w.
      rewrite compressImage_run, Ec. reflexivity.
Qed.
End Recompress.

(** * Calls in flight *)

Section InFlight.
Import ProcessImageApp.
Import ProcessImageHandlers.

Variable B : Browser.
Variable readAsDataURL : File -> option string.

Lemma existsb_eqb_false (n : nat) (l : list nat) :
  existsb (Nat.eqb n) l = false <-> ~ In n l.
Proof.
  rewrite <- not_true_iff_false, existsb_exists. split.
  - intros H Hin. apply H. exists n. split; [exact Hin | apply Nat.eqb_refl].
  - intros H (m & Hin & E). apply Nat.eqb_eq in E. now subst m.
Qed.

(** A call in flight that comes back with a result has it shown,
    whatever was issued after it. *)
Lemma settle_publishes (p : Page) (n : nat) (r : Request) c log :
  nth_error (Scheduling.issued (calls p)) n = Some r ->
  ~ In n (Scheduling.settled (calls p)) ->
  (forall w, processImage_resume B r w =
             ({| ui := effect (Published c) (ui w);
                 encodeLog := log ++ encodeLog w |}, Fulfilled tt)) ->
  current (dispatch B readAsDataURL p (Settle n)) = Some c.
Proof.
  intros Hn Hs Hr. apply existsb_eqb_false in Hs.
  unfold current, dispatch, fire, Scheduling.settle. cbn [calls].
  now rewrite Hn, Hs, Hr.
Qed.

(** The controls are disabled while the component is processing. *)
Lemma controls_disabled (p : Page) (e : Event) :
  isControl e = true ->
  isProcessing (ui (Scheduling.world (calls p))) = true ->
  dispatch B readAsDataURL p e = p.
Proof.
  intros He Hp. unfold dispatch, fire, controlsEnabled.
  destruct e; try discriminate He; rewrite Hp;
    now destruct (originalImage (ui (Scheduling.world (calls p)))).
Qed.

(** The uploader is not: a file that is accepted and loads leaves a
    call in flight, next to the calls that are in flight already. *)
Lemma fileSelect_issues (p : Page) (file : File) (imageData : ImageData) :
  originalImage (ui (Scheduling.world (calls p))) = None ->
  validateFile file = None ->
  (forall w, loadImage B readAsDataURL file w = (w, Fulfilled imageData)) ->
  let p' := dispatch B readAsDataURL p (FileSelect file) in
  Scheduling.issued (calls p') =
    Scheduling.issued (calls p) ++
    [{| req_imageData := imageData;
        req_preset := selectedPreset (fileSelect p);
        req_qualityValue := quality (fileSelect p);
        req_customW := None; req_customH := None;
        req_closure := fileSelect p |}] /\
  Scheduling.settled (calls p') = Scheduling.settled (calls p) /\
  originalImage (ui (Scheduling.world (calls p'))) = Some imageData.
Proof.
  intros Ho Hv Hl p'. subst p'. unfold dispatch, fire.
  rewrite Ho, Hv, Hl. cbn. repeat split.
Qed.

(** "Upload New Image" clears the page and leaves the calls in flight
    where they are. *)
Lemma uploadNew_clears (p : Page) :
  originalImage (ui (Scheduling.world (calls p))) <> None ->
  let p' := dispatch B readAsDataURL p UploadNew in
  originalImage (ui (Scheduling.world (calls p'))) = None /\
  current p' = None /\
  isProcessing (ui (Scheduling.world (calls p')))
    = isProcessing (ui (Scheduling.world (calls p))) /\
  Scheduling.issued (calls p') = Scheduling.issued (calls p) /\
  Scheduling.settled (calls p') = Scheduling.settled (calls p).
Proof.
  intros Ho p'. subst p'. unfold dispatch, fire.
  destruct (originalImage (ui (Scheduling.world (calls p)))); [| tauto].
  cbn. repeat split.
Qed.

(** A call of [processImage] catches what it throws. *)
Lemma processImage_not_rejected (r : Request) (w : World State) err :
  snd (processImage B r w) <> Rejected err.
Proof.
  destruct (processImage_resume_effect B r) as (e & log & Hrun & _).
  change (snd (processImage B r w))
    with (snd (processImage_resume B r (fst (processImage_start w)))).
  rewrite Hrun. cbn [snd]. destruct e; discriminate.
Qed.

Lemma settle_issue (r : Request) (sc : Scheduler) (n : nat) :
  wellFormed sc ->
  n = List.length (Scheduling.issued sc) ->
  Scheduling.world
    (Scheduling.settle (processImage_resume B) n (issue r sc))
  = fst (processImage B r (Scheduling.world sc)).
Proof.
  intros Hwf ->. unfold issue, Scheduling.call, Scheduling.settle.
  cbn [Scheduling.issued Scheduling.settled Scheduling.world].
  rewrite nth_error_app2 by lia. rewrite Nat.sub_diag. cbn [nth_error].
  assert (E : existsb (Nat.eqb (List.length (Scheduling.issued sc)))
                (Scheduling.settled sc) = false).
  { apply existsb_eqb_false. intros Hin. apply Hwf in Hin. lia. }
  rewrite E. reflexivity.
Qed.

Lemma settle_beyond (sc : Scheduler) (n : nat) :
  (List.length (Scheduling.issued sc) <= n)%nat ->
  Scheduling.settle (processImage_resume B) n sc = sc.
Proof.
  intros Hn. unfold Scheduling.settle.
  assert (E : nth_error (Scheduling.issued sc) n = None)
    by now apply nth_error_None.
  now rewrite E.
Qed.

(** The session agrees with the handlers taken in full: an event
    followed at once by the completion of the call it started leaves
    the component as its handler, run in one piece, does. *)
Lemma fire_then_settle (p : Page) (e : Event) (sc : Scheduler) :
  wellFormed (calls p) ->
  (forall n, e <> Settle n) ->
  fire B readAsDataURL p e = Some sc ->
  Scheduling.world
    (Scheduling.settle (processImage_resume B)
       (List.length (Scheduling.issued (calls p))) sc)
  = fst (handlerOf B readAsDataURL p e (Scheduling.world (calls p))).
Proof.
  intros Hwf Hne. unfold fire, handlerOf.
  set (sc0 := calls p) in *. set (s := ui (Scheduling.world sc0)).
  destruct e as [preset | newQuality | dimension numValue | | file | n].
  - unfold controlsEnabled, handlePresetChange, processImageCall, unawaited.
    destruct (originalImage s) as [o |] eqn:Eo; [| discriminate].
    destruct (isProcessing s); [discriminate |]. cbn [negb].
    intros [= <-].
    rewrite (settle_issue _ (write (setSelectedPreset preset) sc0) (List.length (Scheduling.issued sc0)) Hwf eq_refl).
    reflexivity.
  - unfold controlsEnabled, handleQualityChange, processImageCall, unawaited.
    destruct (originalImage s) as [o |] eqn:Eo; [| discriminate].
    destruct (isProcessing s); [discriminate |]. cbn [negb].
    intros [= <-].
    rewrite (settle_issue _ (write (setQuality newQuality) sc0) (List.length (Scheduling.issued sc0)) Hwf eq_refl).
    reflexivity.
  - unfold controlsEnabled, handleCustomDimensionChange, processImageCall,
      unawaited.
    destruct (originalImage s) as [o |] eqn:Eo; [| discriminate].
    destruct (isProcessing s); [discriminate |]. cbn [negb andb].
    destruct (String.eqb (selectedPreset s) "custom"); [| discriminate].
    destruct dimension;
      (destruct (validateDimensions _ _) as [msg |] eqn:Ev; intros [= <-];
       [ rewrite settle_beyond by (cbn; lia); reflexivity
       | match goal with
         | |- context [issue ?r ?sc'] =>
             rewrite (settle_issue r sc' (List.length (Scheduling.issued sc0)) Hwf eq_refl)
         end;
         reflexivity ]).
  - destruct (originalImage s); [| discriminate]. intros [= <-].
    rewrite settle_beyond by (cbn; lia). reflexivity.
  - unfold handleFileSelect, processImageCall.
    destruct (originalImage s); [discriminate |].
    destruct (validateFile file) as [fileError |].
    { intros [= <-]. rewrite settle_beyond by (cbn; lia). reflexivity. }
    unfold Async.bind at 1 2, set_ui at 1 2, Async.modify. cbn [fst snd].
    unfold Async.try_catch, Async.bind at 1.
    set (w1 := Scheduling.world
                 (write (setCompressedImage None) (write (setError None) sc0))).
    change {| ui := setCompressedImage None
                      (ui {| ui := setError None (ui (Scheduling.world sc0));
                             encodeLog := encodeLog (Scheduling.world sc0) |});
              encodeLog := encodeLog
                      {| ui := setError None (ui (Scheduling.world sc0));
                         encodeLog := encodeLog (Scheduling.world sc0) |} |}
      with w1.
    assert (Hpure : fst (loadImage B readAsDataURL file w1) = w1).
    { unfold loadImage. destruct (readAsDataURL file); [| reflexivity].
      destruct (decodeUrl B _); [| reflexivity].
      now destruct (_ || _). }
    destruct (loadImage B readAsDataURL file w1) as [w2 [imageData | err |]]
      eqn:El; cbn [fst snd] in Hpure |- *; subst w2.
    + intros [= <-].
      match goal with
      | |- context [issue ?r ?sc'] =>
          rewrite (settle_issue r sc' (List.length (Scheduling.issued sc0)) Hwf eq_refl)
      end.
      unfold Async.bind at 1, set_ui at 1, Async.modify. cbn [fst snd].
      match goal with
      | |- _ = fst (match ?m with _ => _ end) =>
          destruct m as [w3 [[] | err |]] eqn:Em
      end.
      * rewrite <- (f_equal fst Em). reflexivity.
      * exfalso. apply (processImage_not_rejected _ _ err (f_equal snd Em)).
      * rewrite <- (f_equal fst Em). reflexivity.
    + intros [= <-]. rewrite settle_beyond by (cbn; lia). reflexivity.
    + intros [= <-]. rewrite settle_beyond by (cbn; lia). reflexivity.
  - exfalso. now apply (Hne n).
Qed.
(** Every page of a session is well formed. *)
Lemma wellFormed_issue (r : Request) (sc : Scheduler) :
  wellFormed sc -> wellFormed (issue r sc).
Proof.
  intros Hwf n Hn. unfold issue, Scheduling.call in *.
  cbn [Scheduling.issued Scheduling.settled] in *.
  rewrite length_app. apply Hwf in Hn. cbn. lia.
Qed.

Lemma wellFormed_dispatch (p : Page) (e : Event) :
  wellFormed (calls p) -> wellFormed (calls (dispatch B readAsDataURL p e)).
Proof.
  intros Hwf. unfold dispatch.
  destruct (fire B readAsDataURL p e) as [sc |] eqn:Ef; [| exact Hwf].
  cbn [calls]. revert Ef. unfold fire.
  set (sc0 := calls p) in *. set (s := ui (Scheduling.world sc0)).
  destruct e as [preset | newQuality | dimension numValue | | file | n].
  - destruct (controlsEnabled s); [| discriminate].
    destruct (originalImage s); intros [= <-];
      [apply wellFormed_issue |]; exact Hwf.
  - destruct (controlsEnabled s); [| discriminate].
    destruct (originalImage s); intros [= <-];
      [apply wellFormed_issue |]; exact Hwf.
  - destruct (controlsEnabled s && _); [| discriminate].
    destruct (validateDimensions _ _); destruct (originalImage s);
      intros [= <-]; try apply wellFormed_issue; exact Hwf.
  - destruct (originalImage s); [| discriminate]. intros [= <-]. exact Hwf.
  - destruct (originalImage s); [discriminate |].
    destruct (validateFile file); [intros [= <-]; exact Hwf |].
    destruct (snd (loadImage B readAsDataURL file _)); intros [= <-];
      try apply wellFormed_issue; exact Hwf.
  - intros [= <-]. unfold Scheduling.settle.
    destruct (nth_error (Scheduling.issued sc0) n) as [r |] eqn:En;
      [| exact Hwf].
    destruct (existsb (Nat.eqb n) (Scheduling.settled sc0)); [exact Hwf |].
    intros m [<- | Hm]; cbn [Scheduling.issued].
    + apply nth_error_Some. congruence.
    + now apply Hwf.
Qed.

Lemma wellFormed_run (es : list Event) (p : Page) :
  wellFormed (calls p) -> wellFormed (calls (run B readAsDataURL p es)).
Proof.
  revert p. induction es as [| e es IH]; intros p Hwf; [exact Hwf |].
  cbn [run fold_left]. apply IH. now apply wellFormed_dispatch.
Qed.
End InFlight.

(** * [src/App.tsx]: the promise that is never settled *)

Section SingleEncode.
Import SingleEncodeApp.

Lemma compressImage_null B img preset q (w : World State) :
  codec B (canvasOf img (resolveSize img preset)) image_jpeg
    (inject_Z q / 100) = None ->
  compressImage B img preset q w =
  (logged [{| call_canvas := canvasOf img (resolveSize img preset);
              call_type := image_jpeg;
              call_quality := (inject_Z q / 100)%Q |}] w, Pending).
Proof.
  intros Hc. unfold compressImage, Async.bind. now rewrite toBlob_logged, Hc.
Qed.
End SingleEncode.

(** * The quality search (claim C1) *)

Section QualitySearch.
Import ProcessImageApp.

(** The specification's scenario: start at 80, step 5, a budget the codec
    first meets at 70. Three calls, and the blob of the last one comes
    back labelled 70. *)
Example descent_80_to_70 :
  compressToTargetSize (Samples.browserWith Samples.photo) Samples.smallCanvas
    (Bytes 700) 80 (Samples.fresh Samples.loaded) =
  (logged [jpegCall Samples.smallCanvas 70; jpegCall Samples.smallCanvas 75;
           jpegCall Samples.smallCanvas 80] (Samples.fresh Samples.loaded),
   Fulfilled {| blob := jpegBlob (Samples.zeros 700); finalQuality := 70 |}).
Proof. vm_compute. reflexivity. Qed.

(** A budget of 520 bytes that the codec meets at 50 (500 bytes) but not
    at 55 (550 bytes): the descent from 80 stops after the attempt at 55
    and returns its blob, over budget, labelled 50. *)
Example descent_80_stops_short_of_the_floor :
  compressToTargetSize (Samples.browserWith Samples.photo) Samples.smallCanvas
    (Bytes 520) 80 (Samples.fresh Samples.loaded) =
  (logged [jpegCall Samples.smallCanvas 55; jpegCall Samples.smallCanvas 60;
           jpegCall Samples.smallCanvas 65; jpegCall Samples.smallCanvas 70;
           jpegCall Samples.smallCanvas 75; jpegCall Samples.smallCanvas 80]
     (Samples.fresh Samples.loaded),
   Fulfilled {| blob := jpegBlob (Samples.zeros 550); finalQuality := 50 |}) /\
  codec (Samples.browserWith Samples.photo) Samples.smallCanvas image_jpeg
    (inject_Z 50 / 100) = Some (Samples.zeros 500).
Proof. split; vm_compute; reflexivity. Qed.

(** When the loop is left through its [break], the blob returned is the
    one encoded at the quality returned. *)
Lemma descent_break_quality B canvas t q data :
  codec B canvas image_jpeg (inject_Z q / 100) = Some data ->
  size_le (blob_size (jpegBlob data)) t || (q <=? 50) = true ->
  forall w : World State,
    compressToTargetSize B canvas t q w =
    (logged [jpegCall canvas q] w,
     Fulfilled {| blob := jpegBlob data; finalQuality := q |}).
Proof.
  intros Hc Hb w. unfold compressToTargetSize.
  rewrite compressToTargetSize_loop_equation_1. unfold Async.bind.
  rewrite toBlob_logged, Hc. cbn [option_map]. fold (jpegBlob data).
  now rewrite Hb.
Qed.

(** C1 (the code departs from the claim). Entered at a quality [q] in
    (50, 55] with a first attempt that overshoots the budget [n],
    [compressToTargetSize] makes that one call and no other, and returns
    the blob it encoded at [q] together with [finalQuality = q - 5]: the
    floor is reported without ever being encoded, so the blob returned
    is not the one encoded at the quality returned. *)
Theorem C1_floor_reported_not_encoded B canvas n q data (w : World State) :
  50 < q <= 55 ->
  codec B canvas image_jpeg (inject_Z q / 100) = Some data ->
  n < blob_size (jpegBlob data) ->
  compressToTargetSize B canvas (Bytes n) q w =
  (logged [jpegCall canvas q] w,
   Fulfilled {| blob := jpegBlob data; finalQuality := q - 5 |}).
Proof.
  intros Hq Hc Hn. unfold compressToTargetSize.
  rewrite compressToTargetSize_loop_equation_1. unfold Async.bind.
  rewrite toBlob_logged, Hc. cbn [option_map]. fold (jpegBlob data).
  assert (Hb : size_le (blob_size (jpegBlob data)) (Bytes n) || (q <=? 50)
               = false).
  { apply orb_false_iff. split; [apply Z.leb_gt | apply Z.leb_gt]; lia. }
  rewrite Hb. destruct (Z_lt_dec 50 (q - 5)); [lia | reflexivity].
Qed.

Lemma C1_floor_reported_not_encoded_witness :
  compressToTargetSize (Samples.browserWith Samples.photo) Samples.smallCanvas
    (Bytes 100) 55 (Samples.fresh Samples.loaded) =
  (logged [jpegCall Samples.smallCanvas 55] (Samples.fresh Samples.loaded),
   Fulfilled {| blob := jpegBlob (Samples.zeros 550); finalQuality := 50 |}).
Proof.
  apply (C1_floor_reported_not_encoded (Samples.browserWith Samples.photo)
           Samples.smallCanvas 100 55 (Samples.zeros 550)).
  - lia.
  - reflexivity.
  - reflexivity.
Defined.
End QualitySearch.

(** * Preset lookup (claim C4) *)

Section PresetLookup.
Import ProcessImageApp.
Local Open Scope string_scope.

(** C4, counterexample. ["tiktok"] is none of the four preset names, and
    [getPresetSettings] answers it with a preset all the same. *)
Lemma C4_unknown_name_is_answered :
  ~ In "tiktok" knownPresets /\
  getPresetSettings Samples.loaded "tiktok" =
  {| maxWidth := 2000; maxHeight := 2000; targetSize := Bytes 512000;
     exactResize := None |}.
Proof.
  split; [| reflexivity].
  cbn. intros [H | [H | [H | [H | []]]]]; discriminate H.
Qed.

(** C4 (as amended). [getPresetSettings] never fails: a name outside
    the four it knows falls into the [default] case and gets the
    settings of [etsy], 2000 by 2000 with a 500 KB budget. *)
Theorem C4_unknown_preset_defaults_to_etsy (s : State) (preset : string) :
  ~ In preset knownPresets ->
  getPresetSettings s preset = getPresetSettings s "etsy" /\
  getPresetSettings s preset =
  {| maxWidth := 2000; maxHeight := 2000; targetSize := Bytes (500 * 1024);
     exactResize := None |}.
Proof.
  intros Hn. unfold getPresetSettings.
  destruct (String.eqb preset "etsy") eqn:E1; [now split |].
  destruct (String.eqb preset "shopee") eqn:E2.
  { apply String.eqb_eq in E2. exfalso. apply Hn. subst. cbn. tauto. }
  destruct (String.eqb preset "linkedin") eqn:E3.
  { apply String.eqb_eq in E3. exfalso. apply Hn. subst. cbn. tauto. }
  destruct (String.eqb preset "custom") eqn:E4.
  { apply String.eqb_eq in E4. exfalso. apply Hn. subst. cbn. tauto. }
  now split.
Qed.

Lemma C4_unknown_preset_defaults_to_etsy_witness :
  getPresetSettings Samples.loaded "tiktok" =
    getPresetSettings Samples.loaded "etsy" /\
  getPresetSettings Samples.loaded "tiktok" =
  {| maxWidth := 2000; maxHeight := 2000; targetSize := Bytes (500 * 1024);
     exactResize := None |}.
Proof.
  apply (C4_unknown_preset_defaults_to_etsy Samples.loaded "tiktok").
  cbn. intros [H | [H | [H | [H | []]]]]; discriminate H.
Defined.
End PresetLookup.

(** * Resolving the output size (claims C2, C5, C6) *)

Section Resolution.
Local Open Scope Q_scope.

(** C5. Under the exact-resize policy the resolved size is the pair of
    bounds, whatever the source: [resizeImage] with [exactResize] set
    returns [(maxWidth, maxHeight)]; with the settings of the banner
    preset that is 1584 by 396; and [compressImage] resolves the banner
    preset to 1584 by 396 as well. *)
Theorem C5_exact_resize_returns_bounds (img : HTMLImageElement) :
  (forall W H : Q,
     snd (ProcessImageApp.resizeImage img W H (Some true)) =
     {| width := W; height := H |}) /\
  (forall s : ProcessImageApp.State,
     let settings := ProcessImageApp.getPresetSettings s "linkedin" in
     snd (ProcessImageApp.resizeImage img
            (ProcessImageApp.maxWidth settings)
            (ProcessImageApp.maxHeight settings)
            (ProcessImageApp.exactResize settings)) =
     {| width := 1584; height := 396 |}) /\
  (forall d : option Size,
     RecompressApp.resolveSize img linkedin d =
     {| width := 1584; height := 396 |}).
Proof.
  split; [| split].
  - intros W H. reflexivity.
  - intros s. reflexivity.
  - intros d. unfold RecompressApp.resolveSize. now destruct d.
Qed.

(** What holds of the bounds of claim C2, for a source with sides below
    2^32. [resizeImage] without [exactResize], within whole bounds
    [(W, H)] below 2^32: the canvas it draws and encodes fits the
    bounds; the pair it returns exceeds them by two roundings at most;
    a source within the bounds is returned unchanged. The size
    [compressImage] resolves under the [etsy], [shopee] and validated
    [custom] bounds fits them, and equals the source within them. *)
Theorem fit_within_bounds_up_to_rounding (img : HTMLImageElement) :
  (0 < img_width img < 2 ^ 32)%Z -> (0 < img_height img < 2 ^ 32)%Z ->
  let source := {| width := inject_Z (img_width img);
                   height := inject_Z (img_height img) |} in
  (forall (W H : Q) (Wz Hz : Z) (e : option bool),
     e = None \/ e = Some false ->
     W == inject_Z Wz -> H == inject_Z Hz ->
     (0 <= Wz < 2 ^ 32)%Z -> (0 <= Hz < 2 ^ 32)%Z ->
     let canvas := fst (ProcessImageApp.resizeImage img W H e) in
     let out := snd (ProcessImageApp.resizeImage img W H e) in
     ((canvas_width canvas <= Wz)%Z /\ (canvas_height canvas <= Hz)%Z) /\
     (width out <= W * (1 + epsilon) * (1 + epsilon) /\
      height out <= H * (1 + epsilon) * (1 + epsilon)) /\
     (width source <= W -> height source <= H -> out = source)) /\
  (forall (p : Preset) (d : option Size) (W H : Q),
     RecompressApp.fitsWithin p d W H ->
     let out := RecompressApp.resolveSize img p d in
     (width out <= W /\ height out <= H) /\
     (width source <= W -> height source <= H -> out = source)).
Proof.
  intros [Hw Bw] [Hh Bh] source. split.
  - intros W H Wz Hz e He HW HH BW BH canvas out. split; [| split].
    + apply (resizeImage_canvas_within img Hw Hh W H Wz Hz e He HW HH BW BH Bw Bh).
    + subst out. rewrite (resizeImage_fit_size img W H e He). cbv zeta.
      assert (PW : 0 <= W) by (rewrite HW, <- (Zle_Qle 0); lia).
      assert (PH : 0 <= H) by (rewrite HH, <- (Zle_Qle 0); lia).
      destruct (resizeImage_scaled_near img Hw Hh W H PW PH) as [Nw Nh].
      pose proof (ratio_ge_1 img Hw Hh W H Wz Hz HW HH) as G.
      destruct (Qltb _ 1) eqn:E; cbn [width height]; [split; assumption |].
      apply Qltb_false in E. destruct G as [Gw Gh]; [lia | lia | exact E |].
      unfold epsilon. split; nra.
    + apply (resizeImage_no_upscale img Hw Hh W H e He).
  - intros p d W H Hf out. subst out. split.
    + apply (resolveSize_within img p d W H Hw Hh Hf).
    + intros Lw Lh. cbn [source width height] in Lw, Lh.
      rewrite (resolveSize_fit img p d W H Hf). cbv zeta.
      now rewrite (scaleDown_no_upscale img W H Lw Lh).
Qed.

(** C2, at the failing input. [resizeImage] fits a source of 2141 by
    1000 within the 2000 by 2000 of the [etsy] preset. The ratio is the
    binary64 quotient 2000 / 2141, and 2141 times it, rounded again,
    is 2000 + 2^-42: the width returned exceeds the bound it was fitted
    to. The bitmap that is encoded is 2000 wide. It is the width
    published when a file holding such an image is selected on the
    page as it mounts, under the preset selected then. *)
Theorem C2_resizeImage_returns_a_width_over_the_bound :
  let fit := ProcessImageApp.resizeImage Samples.panorama 2000 2000 None in
  let w := fst (ProcessImageHandlers.handleFileSelect
                  (Samples.browserWith Samples.panorama) Uploads.reader
                  ProcessImageApp.initialState Samples.jpegFile
                  (Samples.fresh ProcessImageApp.initialState)) in
  width (snd fit) = 2000 + (1 # 4398046511104) /\
  ~ width (snd fit) <= 2000 /\
  height (snd fit) <= 2000 /\
  canvas_width (fst fit) = 2000%Z /\
  ProcessImageApp.selectedPreset (ui w) = "etsy"%string /\
  option_map ci_width (ProcessImageApp.compressedImage (ui w))
    = Some (2000 + (1 # 4398046511104)).
Proof.
  cbv zeta. split; [vm_compute; reflexivity |].
  split; [vm_compute; intros C; apply C; reflexivity |].
  split; [vm_compute; discriminate |].
  split; [vm_compute; reflexivity |].
  split; vm_compute; reflexivity.
Qed.

(** The specification's two scenarios, on both revisions. *)
Example fit_4000x3000_in_2000x2000 :
  snd (ProcessImageApp.resizeImage Samples.photo 2000 2000 None) =
  {| width := 2000; height := 1500 |} /\
  RecompressApp.resolveSize Samples.photo etsy None =
  {| width := 2000; height := 1500 |}.
Proof. split; vm_compute; reflexivity. Qed.

Example fit_800x600_in_2000x2000 :
  snd (ProcessImageApp.resizeImage Samples.thumbnail 2000 2000 None) =
  {| width := 800; height := 600 |} /\
  RecompressApp.resolveSize Samples.thumbnail etsy None =
  {| width := 800; height := 600 |}.
Proof. split; vm_compute; reflexivity. Qed.

(** Sizes that bear the mark of binary64: the quotient 2080 / 1027 is
    rounded up, so that 2000 divided by it falls short of 987.5 and is
    rounded to 987, not to 988; and 49 times the rounded 1 / 98 falls
    short of one half and is rounded to 0. *)
Example sizes_rounded_from_binary64 :
  RecompressApp.resolveSize Samples.poster etsy None =
  {| width := 2000; height := 987 |} /\
  Math_round (2000 / (2080 / 1027)) == 988 /\
  RecompressApp.resolveSize Samples.sliver custom
    (Some {| width := 1920; height := 49 |}) =
  {| width := 0; height := 49 |} /\
  Math_round (49 * (1 / 98)) == 1.
Proof. repeat split; vm_compute; reflexivity. Qed.

(** C6, counterexample. [compressImage] resolves a source of 8000 by 1
    under the 2000 by 2000 bounds of [etsy] to 2000 by 0: the height is
    rounded to zero and nothing lifts it to 1. And [resizeImage] rounds
    nothing: 4000 by 3001 within 2000 by 2000 comes out 1500.5 high. *)
Lemma C6_axis_rounded_to_zero :
  RecompressApp.resolveSize Samples.ribbon etsy None =
    {| width := 2000; height := 0 |} /\
  ~ 1 <= height (RecompressApp.resolveSize Samples.ribbon etsy None) /\
  height (snd (ProcessImageApp.resizeImage Samples.scan 2000 2000 None))
    == 3001 # 2 /\
  Number_isInteger
    (height (snd (ProcessImageApp.resizeImage Samples.scan 2000 2000 None)))
    = false.
Proof.
  split; [vm_compute; reflexivity |].
  split; [| split; vm_compute; reflexivity].
  vm_compute. intros H. apply H. reflexivity.
Qed.

(** C6 (as amended). For a source with positive sides fitted within
    bounds [(W, H)] by [compressImage], every axis that is rescaled is
    the binary64 quotient or product rounded by [Math.round], which on
    a non-negative number rounds half away from zero; so both sides of
    the output are whole and non-negative. No clamp is applied: a side
    rounded to 0 stays 0. Both sides are at least 1 when both exactly
    scaled sides are at least one pixel ([w <= W h] and [h <= H w]).
    [resizeImage] rounds nothing to a whole number: without
    [exactResize] and for positive bounds it returns the source size or
    the two binary64 products, both positive. *)
Theorem C6_rounding_without_clamp (img : HTMLImageElement) :
  (0 < img_width img)%Z -> (0 < img_height img)%Z ->
  let w := inject_Z (img_width img) in
  let h := inject_Z (img_height img) in
  (forall (p : Preset) (d : option Size) (W H : Q),
     RecompressApp.fitsWithin p d W H ->
     let out := RecompressApp.resolveSize img p d in
     let aspectRatio := Number_div w h in
     (out = {| width := w; height := h |} \/
      out = {| width := W;
               height := round_half_away (Number_div W aspectRatio) |} \/
      out = {| width := round_half_away (Number_mul H aspectRatio);
               height := H |}) /\
     (whole (width out) /\ whole (height out)) /\
     (0 <= width out /\ 0 <= height out) /\
     (w <= W * h -> h <= H * w -> 1 <= width out /\ 1 <= height out)) /\
  (forall (W H : Q) (e : option bool),
     e = None \/ e = Some false -> 0 < W -> 0 < H ->
     let out := snd (ProcessImageApp.resizeImage img W H e) in
     let ratio := Math_min (Number_div W w) (Number_div H h) in
     (out = {| width := w; height := h |} \/
      out = {| width := Number_mul w ratio; height := Number_mul h ratio |}) /\
     0 < width out /\ 0 < height out).
Proof.
  intros Hw Hh w h. split.
  - intros p d W H Hf out aspectRatio. subst out.
    rewrite (resolveSize_fit img p d W H Hf). cbv zeta. cbn [width height].
    fold w h. fold aspectRatio.
    destruct (fitsWithin_whole p d W H Hf) as (Wz & Hz & HW & HH & BW & BH).
    assert (NW : 0 <= W) by (rewrite HW, <- (Zle_Qle 0); lia).
    assert (NH : 0 <= H) by (rewrite HH, <- (Zle_Qle 0); lia).
    split; [| split; [| split]].
    + destruct (scaleDown_rounding img Hw Hh W H NW NH) as [E | [E | E]];
        fold w h in E; fold aspectRatio in E; rewrite E; cbn [fst snd]; auto.
    + apply (scaleDown_whole img W H Wz Hz HW HH).
    + apply (scaleDown_nonneg img Hw Hh W H NW NH).
    + apply (scaleDown_positive img Hw Hh W H Wz Hz HW HH); lia.
  - intros W H e He PW PH out ratio. subst out.
    rewrite (resizeImage_fit_size img W H e He). cbv zeta. fold w h ratio.
    pose proof (source_width_pos img Hw) as Pw.
    pose proof (source_height_pos img Hh) as Ph.
    cbv zeta in Pw, Ph. fold w in Pw. fold h in Ph.
    assert (Pr : 0 < ratio).
    { subst ratio. unfold Math_min, Number_div.
      destruct (Qle_bool _ _); apply binary64_pos; apply Qlt_shift_div_l; lra. }
    destruct (Qltb ratio 1); cbn [width height].
    + split; [now right |].
      split; apply binary64_pos; apply Qmult_lt_0_compat; assumption.
    + split; [now left |]. split; assumption.
Qed.

Lemma C6_rounding_without_clamp_witness :
  let w := 8000 in
  let h := 1 in
  (forall (p : Preset) (d : option Size) (W H : Q),
     RecompressApp.fitsWithin p d W H ->
     let out := RecompressApp.resolveSize Samples.ribbon p d in
     let aspectRatio := Number_div w h in
     (out = {| width := w; height := h |} \/
      out = {| width := W;
               height := round_half_away (Number_div W aspectRatio) |} \/
      out = {| width := round_half_away (Number_mul H aspectRatio);
               height := H |}) /\
     (whole (width out) /\ whole (height out)) /\
     (0 <= width out /\ 0 <= height out) /\
     (w <= W * h -> h <= H * w -> 1 <= width out /\ 1 <= height out)) /\
  (forall (W H : Q) (e : option bool),
     e = None \/ e = Some false -> 0 < W -> 0 < H ->
     let out := snd (ProcessImageApp.resizeImage Samples.ribbon W H e) in
     let ratio := Math_min (Number_div W w) (Number_div H h) in
     (out = {| width := w; height := h |} \/
      out = {| width := Number_mul w ratio; height := Number_mul h ratio |}) /\
     0 < width out /\ 0 < height out).
Proof.
  apply (C6_rounding_without_clamp Samples.ribbon); reflexivity.
Defined.
End Resolution.

(** * Overlapping requests (claim C3) *)

Section Overlap.
Import RecompressApp.

(** Whenever a call in flight comes back with a result, that result is
    what the component shows, however many calls were issued after it. *)
Lemma comesBack_publishes B (sc : @Scheduling.Scheduler State Call)
    (n : nat) (s : State) (original : ImageData) c calls :
  nth_error (Scheduling.issued sc) n = Some (s, original) ->
  ~ In n (Scheduling.settled sc) ->
  (forall w, recompressImage_resume B s original w =
             ({| ui := effect (Published c) (ui w);
                 encodeLog := calls ++ encodeLog w |}, Fulfilled tt)) ->
  compressedImage (ui (Scheduling.world (comesBack B n sc))) = Some c.
Proof.
  intros Hn Hs Hr. apply existsb_eqb_false in Hs.
  unfold comesBack, Scheduling.settle. rewrite Hn, Hs. cbn [fst snd].
  now rewrite Hr.
Qed.

(** The timeout works from the render before the edit. After the width
    field is set to 9000 the effect turns the bounds away and nothing is
    encoded; when the timeout fires a second later it recompresses for
    the bounds of before, 1920 by 1080, and clears the message. *)
Example timeout_recompresses_for_the_bounds_of_before :
  let B := Samples.browserWith Samples.photo in
  let p := run B (idle (Samples.customising Samples.photo 1920 1080))
             [CustomDimensionChange Width 9000] in
  let p' := run B p [TimeoutFires; Settle 0] in
  (Scheduling.issued (calls p) = [] /\
   dimensionError (ui (Scheduling.world (calls p)))
     = Some "Width and height must be less than 8000px."%string /\
   current p = Some Samples.earlier) /\
  (customWidth (ui (Scheduling.world (calls p'))) = 9000%Q /\
   dimensionError (ui (Scheduling.world (calls p'))) = None /\
   current p' = Some (Samples.customResult 1440 1080)).
Proof. repeat split. Qed.

(** In the [recompressImage] revision two calls overlap when the
    timeout of an edit fires while the call made by the effect is in
    flight. The height field is set to 500: the effect calls
    [recompressImage] for 1920 by 500 (call 0), and a second later the
    timeout calls it from the closure of the render before the edit,
    for 1920 by 1080 (call 1). The later call comes back first, the
    earlier one after it: the component ends up showing the 667 by 500
    result of the earlier call. *)
Example timeout_call_overtaken_by_the_call_of_the_effect :
  let B := Samples.browserWith Samples.photo in
  let p := run B (idle (Samples.customising Samples.photo 1920 1080))
             [CustomDimensionChange Height 500; TimeoutFires] in
  map (fun c => (customWidth (fst c), customHeight (fst c)))
    (Scheduling.issued (calls p)) = [(1920, 500); (1920, 1080)]%Q /\
  (Scheduling.inFlight (calls p) 0 /\ Scheduling.inFlight (calls p) 1) /\
  current (run B p [Settle 1]) = Some (Samples.customResult 1440 1080) /\
  current (run B p [Settle 1; Settle 0]) = Some (Samples.customResult 667 500).
Proof.
  cbv zeta. split; [reflexivity |]. split.
  - split; (split; [cbn; lia | intros []]).
  - split; vm_compute; reflexivity.
Qed.
End Overlap.

Section OverlapByUpload.
Import ProcessImageApp.
Import ProcessImageHandlers.

(** The controls are disabled while a call is in flight: a change of
    quality during the first call is not an event of the page, and the
    result shown is that of the first call, at the quality of before. *)
Example controls_disabled_while_processing :
  let B := Samples.browserWith Samples.photo in
  let p := run B Uploads.reader mount
             [FileSelect Samples.jpegFile; QualityChange 60; Settle 0] in
  List.length (Scheduling.issued (calls p)) = 1%nat /\
  quality (ui (Scheduling.world (calls p))) = 80 /\
  current p = Some (Samples.processed 2000 1500 80).
Proof. repeat split; vm_compute; reflexivity. Qed.

(** C3, counterexample. The [processImage] revision, from its mount. A
    photo of 4000 by 3000 is uploaded and processed (call 0), the custom
    preset is clicked and the photo processed within its 1920 by 1080
    (call 1). The width field is then set to 500, which starts call 2,
    for 500 by 1080. While it is in flight "Upload New Image" is clicked
    and the same file is selected again: [handleFileSelect] starts call
    3 for the same image, within the 1920 by 1080 of the render it was
    memoised in. Calls 2 and 3 are now both in flight. The later one
    comes back first and its 1440 by 1080 result is shown; then the
    earlier one comes back and its 500 by 375 result replaces it. *)
Lemma C3_earlier_request_overwrites_the_later :
  let B := Samples.browserWith Samples.photo in
  let p := run B Uploads.reader mount
             [FileSelect Samples.jpegFile; Settle 0;
              PresetChange "custom"; Settle 1;
              CustomDimensionChange Width 500;
              UploadNew; FileSelect Samples.jpegFile] in
  (exists r0 r1 r2 r3,
     Scheduling.issued (calls p) = [r0; r1; r2; r3] /\
     req_imageData r2 = req_imageData r3 /\
     (maxWidth (requestSettings r2), maxHeight (requestSettings r2))
       = (500, 1080)%Q /\
     (maxWidth (requestSettings r3), maxHeight (requestSettings r3))
       = (1920, 1080)%Q) /\
  (Scheduling.inFlight (calls p) 2 /\ Scheduling.inFlight (calls p) 3) /\
  current (run B Uploads.reader p [Settle 3])
    = Some (Samples.processed 1440 1080 80) /\
  current (run B Uploads.reader p [Settle 3; Settle 2])
    = Some (Samples.processed 500 375 80).
Proof.
  cbv zeta. split; [| split; [| split]].
  - do 4 eexists. split; [vm_compute; reflexivity |].
    split; [reflexivity |]. split; reflexivity.
  - split; (split; [vm_compute; lia |]); vm_compute;
      intros [C | [C | C]]; solve [discriminate C | destruct C].
  - vm_compute. reflexivity.
  - vm_compute. reflexivity.
Qed.

(** C3 (as amended). No call is tagged and no result is discarded, in
    either revision. In the [recompressImage] revision, of two
    overlapping calls on a component showing nothing, each of which
    publishes a result when made alone, the one that comes back last is
    the one shown. In the [processImage] revision a call in flight that
    comes back with a result has it shown, whatever was issued since.
    The preset buttons, the quality slider and the dimension fields are
    disabled while the component is processing: an event of theirs
    changes nothing then. "Upload New Image" and the uploader are not:
    the button clears the page and leaves the calls in flight where
    they are, and a file that is then selected, accepted and loaded
    starts a call next to them. *)
Theorem C3_no_discard_last_to_come_back_is_shown (B : Browser)
    (readAsDataURL : File -> option string) :
  (forall (s s1 s2 : RecompressApp.State) (c1 c2 : CompressedImage),
     RecompressApp.compressedImage s = None ->
     let w := Scheduling.idle {| ui := s; encodeLog := [] |} in
     RecompressApp.compressedImage (ui (Scheduling.world
       (RecompressApp.comesBack B 0 (RecompressApp.callRecompressImage s1 w))))
       = Some c1 ->
     RecompressApp.compressedImage (ui (Scheduling.world
       (RecompressApp.comesBack B 0 (RecompressApp.callRecompressImage s2 w))))
       = Some c2 ->
     let both :=
       RecompressApp.callRecompressImage s2
         (RecompressApp.callRecompressImage s1 w) in
     RecompressApp.compressedImage (ui (Scheduling.world
       (RecompressApp.comesBack B 1 (RecompressApp.comesBack B 0 both))))
       = Some c2 /\
     RecompressApp.compressedImage (ui (Scheduling.world
       (RecompressApp.comesBack B 0 (RecompressApp.comesBack B 1 both))))
       = Some c1) /\
  (forall (p : Page) (n : nat) (r : Request) (c : CompressedImage)
          (log : list EncodeCall),
     nth_error (Scheduling.issued (calls p)) n = Some r ->
     ~ In n (Scheduling.settled (calls p)) ->
     (forall w, processImage_resume B r w =
                ({| ui := effect (Published c) (ui w);
                    encodeLog := log ++ encodeLog w |}, Fulfilled tt)) ->
     current (dispatch B readAsDataURL p (Settle n)) = Some c) /\
  (forall (p : Page) (e : Event),
     isControl e = true ->
     isProcessing (ui (Scheduling.world (calls p))) = true ->
     dispatch B readAsDataURL p e = p) /\
  (forall p : Page,
     originalImage (ui (Scheduling.world (calls p))) <> None ->
     let p' := dispatch B readAsDataURL p UploadNew in
     originalImage (ui (Scheduling.world (calls p'))) = None /\
     Scheduling.issued (calls p') = Scheduling.issued (calls p) /\
     Scheduling.settled (calls p') = Scheduling.settled (calls p)) /\
  (forall (p : Page) (file : File) (imageData : ImageData),
     originalImage (ui (Scheduling.world (calls p))) = None ->
     validateFile file = None ->
     (forall w, loadImage B readAsDataURL file w = (w, Fulfilled imageData)) ->
     let p' := dispatch B readAsDataURL p (FileSelect file) in
     Scheduling.issued (calls p') =
       Scheduling.issued (calls p) ++
       [{| req_imageData := imageData;
           req_preset := selectedPreset (fileSelect p);
           req_qualityValue := quality (fileSelect p);
           req_customW := None; req_customH := None;
           req_closure := fileSelect p |}] /\
     Scheduling.settled (calls p') = Scheduling.settled (calls p)).
Proof.
  split; [| split; [| split; [| split]]].
  - intros s s1 s2 c1 c2 Hs w. subst w.
    unfold RecompressApp.callRecompressImage, RecompressApp.comesBack,
      Scheduling.call, Scheduling.settle, Scheduling.idle.
    destruct (RecompressApp.originalImage s1) as [o1 |];
      [| cbn; rewrite ?Hs; discriminate].
    destruct (RecompressApp.originalImage s2) as [o2 |];
      [| cbn; rewrite ?Hs; intros _; discriminate].
    destruct (recompressImage_resume_effect B s1 o1) as (e1 & k1 & E1).
    destruct (recompressImage_resume_effect B s2 o2) as (e2 & k2 & E2).
    cbn [Scheduling.world Scheduling.issued Scheduling.settled app nth_error
         existsb Nat.eqb orb fst snd].
    rewrite !E1, !E2. cbn [fst ui].
    destruct e1, e2; cbn; rewrite ?Hs; intros H1 H2;
      try discriminate H1; try discriminate H2; now split.
  - intros p n r c log. apply settle_publishes.
  - apply controls_disabled.
  - intros p Ho p'. destruct (uploadNew_clears B readAsDataURL p Ho)
      as (H1 & _ & _ & H2 & H3). now repeat split.
  - intros p file imageData Ho Hv Hl p'.
    destruct (fileSelect_issues B readAsDataURL p file imageData Ho Hv Hl)
      as (H1 & H2 & _). now split.
Qed.
End OverlapByUpload.

(** * One call of [processImage], from start to end *)

Section WholeCall.
Import ProcessImageApp.

Lemma processImage_effect B r :
  exists e calls,
    (forall w, processImage B r w =
               ({| ui := effect e (setError None (setIsProcessing true (ui w)));
                   encodeLog := calls ++ encodeLog w |}, settles e)) /\
    Forall (fun c => call_type c = requestedType r) calls /\
    match e with
    | Published c =>
        decodeUrl B (id_dataUrl (req_imageData r)) <> None /\
        blob_type (ci_blob c) = requestedType r /\
        exists call rest, calls = call :: rest /\
          handed B call = Some (blob_data (ci_blob c))
    | Failed _ =>
        decodeUrl B (id_dataUrl (req_imageData r)) <> None /\
        exists call rest, calls = call :: rest /\ handed B call = None
    | Suspended =>
        decodeUrl B (id_dataUrl (req_imageData r)) = None /\ calls = []
    end.
Proof.
  destruct (processImage_resume_effect B r) as (e & calls & Hrun & Hty & He).
  exists e, calls. split; [| now split].
  intros w. unfold processImage, processImage_start, Async.bind, set_ui,
    Async.modify. now rewrite Hrun.
Qed.
End WholeCall.

(** * The output format (claim C7) *)

Section OutputFormat.
Import ProcessImageApp.

(** C7, counterexample. A PNG of 800 by 600 under the custom preset
    (1920 by 1080, so the resolved size is the source size) at quality
    100: the codec is asked for [image/png] and the blob published is a
    PNG, not the lossy format. *)
Lemma C7_png_source_stays_png :
  let w := fst (processImage (Samples.browserWith Samples.thumbnail)
                  (Samples.request Samples.pngFile Samples.thumbnail
                     "custom"%string 100)
                  (Samples.fresh Samples.loaded)) in
  option_map (fun c => (blob_type (ci_blob c), ci_width c, ci_height c))
    (compressedImage (ui w)) = Some (image_png, 800%Q, 600%Q) /\
  map call_type (encodeLog w) = [image_png].
Proof. split; reflexivity. Qed.

(** C7 (as amended). A call of [processImage] whose image loads never
    skips the encoder: it makes at least one [toBlob] call, even when
    nothing is resized and the quality is at its maximum. Every call it
    makes, and the blob it publishes when it ends without an error, has
    the type it requests; that type is [image/jpeg], except for a PNG
    source under an unbudgeted ([targetSize] infinite, i.e. custom)
    preset, where it is [image/png]. *)
Theorem C7_encoder_always_runs_type_follows_source B (r : Request)
    (w : World State) (img : HTMLImageElement) :
  decodeUrl B (id_dataUrl (req_imageData r)) = Some img ->
  let w' := fst (processImage B r w) in
  (exists call calls,
     encodeLog w' = (call :: calls) ++ encodeLog w /\
     Forall (fun c => call_type c = requestedType r) (call :: calls)) /\
  (error (ui w') = None ->
   exists c, compressedImage (ui w') = Some c /\
             blob_type (ci_blob c) = requestedType r) /\
  (requestedType r = image_png <->
   targetSize (requestSettings r) = Infinity /\
   file_type (id_file (req_imageData r)) = "image/png"%string).
Proof.
  intros Hl w'. subst w'.
  destruct (processImage_effect B r) as (e & calls & Hrun & Hty & He).
  rewrite Hrun. cbn [fst ui encodeLog]. split; [| split].
  - destruct e as [c | msg |].
    + destruct He as (_ & _ & call & rest & -> & _). now exists call, rest.
    + destruct He as (_ & call & rest & -> & _). now exists call, rest.
    + destruct He as [Hn _]. congruence.
  - destruct e as [c | msg |]; cbn.
    + intros _. exists c. split; [reflexivity | apply He].
    + discriminate.
    + destruct He as [Hn _]. congruence.
  - unfold requestedType, outputType.
    destruct (targetSize (requestSettings r)); cbn [is_Infinity].
    + split; [discriminate | intros [[=] _]].
    + destruct (String.eqb_spec (file_type (id_file (req_imageData r)))
                  "image/png"%string) as [E | E].
      * now split.
      * split; [discriminate | intros [_ E']; contradiction].
Qed.

Lemma C7_encoder_always_runs_type_follows_source_witness :
  let r := Samples.request Samples.pngFile Samples.thumbnail
             "custom"%string 100 in
  let w' := fst (processImage (Samples.browserWith Samples.thumbnail) r
                   (Samples.fresh Samples.loaded)) in
  (exists call calls,
     encodeLog w' = (call :: calls) ++ encodeLog (Samples.fresh Samples.loaded) /\
     Forall (fun c => call_type c = requestedType r) (call :: calls)) /\
  (error (ui w') = None ->
   exists c, compressedImage (ui w') = Some c /\
             blob_type (ci_blob c) = requestedType r) /\
  (requestedType r = image_png <->
   targetSize (requestSettings r) = Infinity /\
   file_type (id_file (req_imageData r)) = "image/png"%string).
Proof.
  apply (C7_encoder_always_runs_type_follows_source
           (Samples.browserWith Samples.thumbnail)
           (Samples.request Samples.pngFile Samples.thumbnail "custom"%string 100)
           (Samples.fresh Samples.loaded) Samples.thumbnail).
  reflexivity.
Defined.
End OutputFormat.

(** * Failures leave the published image alone (claims C8, C9) *)

Section Failures.
Local Open Scope Q_scope.

(** The three inputs the specification names are turned away. *)
Example validateDimensions_examples :
  RecompressApp.validateDimensions 0 1080
    = Some "Width and height must be positive numbers."%string /\
  RecompressApp.validateDimensions 1920 9000
    = Some "Width and height must be less than 8000px."%string /\
  RecompressApp.validateDimensions (25 # 2) 1080
    = Some "Width and height must be whole numbers."%string.
Proof. repeat split. Qed.

(** C8. With the custom preset selected and custom bounds that are
    invalid (on either axis non-positive, not whole, or above 8000),
    [recompressImage] makes no [toBlob] call and leaves the published
    image as it was; once the file has loaded it reports the message of
    [validateDimensions] as the dimension error and stops processing. *)
Theorem C8_invalid_bounds_rejected_before_encoding B
    (s : RecompressApp.State) (w : World RecompressApp.State) :
  RecompressApp.selectedPreset s = custom ->
  RecompressApp.invalidBounds (RecompressApp.customWidth s)
    (RecompressApp.customHeight s) ->
  let w' := fst (RecompressApp.recompressImage B s w) in
  encodeLog w' = encodeLog w /\
  RecompressApp.compressedImage (ui w') = RecompressApp.compressedImage (ui w) /\
  (forall original img,
     RecompressApp.originalImage s = Some original ->
     decodeFile B (id_file original) = Some img ->
     (exists msg,
        RecompressApp.validateDimensions (RecompressApp.customWidth s)
          (RecompressApp.customHeight s) = Some msg /\
        RecompressApp.dimensionError (ui w') = Some msg) /\
     RecompressApp.isProcessing (ui w') = false).
Proof.
  intros Hp Hi w'. subst w'.
  apply validateDimensions_rejects in Hi.
  destruct (RecompressApp.validateDimensions (RecompressApp.customWidth s)
              (RecompressApp.customHeight s)) as [msg |] eqn:Hv;
    [| contradiction].
  destruct (recompressImage_invalid B s w msg Hp Hv) as (Hlog & Hc & Hd).
  split; [exact Hlog |]. split; [exact Hc |].
  intros original img Ho Hl. destruct (Hd original img Ho Hl) as (Hm & Hq & _).
  split; [now exists msg | exact Hq].
Qed.

Lemma C8_invalid_bounds_rejected_before_encoding_witness :
  let s := Samples.customising Samples.photo 0 9000 in
  let w := Samples.fresh s in
  let w' := fst (RecompressApp.recompressImage
                   (Samples.browserWith Samples.photo) s w) in
  encodeLog w' = encodeLog w /\
  RecompressApp.compressedImage (ui w') = RecompressApp.compressedImage (ui w) /\
  (forall original img,
     RecompressApp.originalImage s = Some original ->
     decodeFile (Samples.browserWith Samples.photo) (id_file original)
       = Some img ->
     (exists msg,
        RecompressApp.validateDimensions (RecompressApp.customWidth s)
          (RecompressApp.customHeight s) = Some msg /\
        RecompressApp.dimensionError (ui w') = Some msg) /\
     RecompressApp.isProcessing (ui w') = false).
Proof.
  apply (C8_invalid_bounds_rejected_before_encoding
           (Samples.browserWith Samples.photo)
           (Samples.customising Samples.photo 0 9000)
           (Samples.fresh (Samples.customising Samples.photo 0 9000))).
  - reflexivity.
  - left. left. apply Qle_refl.
Defined.

(** C9. A request whose encode fails surfaces an error and leaves the
    published image as it was. For [processImage]: if the image loads
    and the most recent [toBlob] call of the run came back with [null],
    the published image is unchanged, an error message is set and
    processing has stopped. For [recompressImage]: if the file loads,
    the bounds pass validation and the codec hands [null] for the
    resolved canvas, the same holds with the message "Failed to
    reprocess image. Please try again.". *)
Theorem C9_encode_failure_keeps_published_image B :
  (forall (r : ProcessImageApp.Request) (w : World ProcessImageApp.State) img,
     decodeUrl B (id_dataUrl (ProcessImageApp.req_imageData r)) = Some img ->
     let w' := fst (ProcessImageApp.processImage B r w) in
     lastEncodeNull B w' = true ->
     ProcessImageApp.compressedImage (ui w')
       = ProcessImageApp.compressedImage (ui w) /\
     (exists msg, ProcessImageApp.error (ui w') = Some msg) /\
     ProcessImageApp.isProcessing (ui w') = false) /\
  (forall (s : RecompressApp.State) (w : World RecompressApp.State)
          original img,
     RecompressApp.originalImage s = Some original ->
     decodeFile B (id_file original) = Some img ->
     (RecompressApp.selectedPreset s = custom ->
      RecompressApp.validateDimensions (RecompressApp.customWidth s)
        (RecompressApp.customHeight s) = None) ->
     codec B
       (canvasOf img
          (RecompressApp.resolveSize img (RecompressApp.selectedPreset s)
             (RecompressApp.passedDimensions s)))
       image_jpeg (inject_Z (RecompressApp.quality s) / 100) = None ->
     let w' := fst (RecompressApp.recompressImage B s w) in
     RecompressApp.compressedImage (ui w')
       = RecompressApp.compressedImage (ui w) /\
     RecompressApp.error (ui w')
       = Some "Failed to reprocess image. Please try again."%string /\
     RecompressApp.isProcessing (ui w') = false).
Proof.
  split.
  - intros r w img Hl w'. subst w'.
    destruct (processImage_effect B r) as (e & calls & Hrun & _ & He).
    rewrite Hrun. unfold lastEncodeNull. cbn [fst ui encodeLog].
    destruct e as [c | msg |].
    + destruct He as (_ & _ & call & rest & -> & Hh).
      cbn [app]. rewrite Hh. discriminate.
    + intros _. cbn. split; [reflexivity |]. split; [now exists msg | reflexivity].
    + destruct He as [Hn _]. congruence.
  - intros s w original img Ho Hl Hv Hc w'. subst w'.
    destruct (recompressImage_encode_null B s w original img Ho Hl Hv Hc)
      as (H1 & H2 & H3 & _).
    now repeat split.
Qed.

Lemma C9_encode_failure_keeps_published_image_witness :
  let B := Samples.browserWith Samples.ribbon in
  (let r := Samples.request Samples.jpegFile Samples.ribbon "etsy" 80 in
   let w := Samples.fresh Samples.loaded in
   let w' := fst (ProcessImageApp.processImage B r w) in
   ProcessImageApp.compressedImage (ui w')
     = ProcessImageApp.compressedImage (ui w) /\
   (exists msg, ProcessImageApp.error (ui w') = Some msg) /\
   ProcessImageApp.isProcessing (ui w') = false) /\
  (let s := Samples.customising Samples.ribbon 1920 1080 in
   let w := Samples.fresh s in
   let w' := fst (RecompressApp.recompressImage B s w) in
   RecompressApp.compressedImage (ui w') = Some Samples.earlier /\
   RecompressApp.error (ui w')
     = Some "Failed to reprocess image. Please try again."%string /\
   RecompressApp.isProcessing (ui w') = false).
Proof.
  intros B.
  destruct (C9_encode_failure_keeps_published_image B) as [HP HR]. split.
  - apply (HP (Samples.request Samples.jpegFile Samples.ribbon "etsy" 80)
              (Samples.fresh Samples.loaded) Samples.ribbon);
      reflexivity.
  - apply (HR (Samples.customising Samples.ribbon 1920 1080)
              (Samples.fresh (Samples.customising Samples.ribbon 1920 1080))
              (Samples.dataOf Samples.jpegFile Samples.ribbon) Samples.ribbon);
      reflexivity.
Defined.
End Failures.

(** * The promise that never settles (claim C10) *)

Section NeverSettles.
Import SingleEncodeApp.

(** A source of 8000 by 1 under [etsy] resolves to 2000 by a quarter of
    a pixel: the canvas has no area and the sample codec hands [null]. *)
Example zero_area_canvas :
  canvasOf Samples.ribbon (resolveSize Samples.ribbon etsy) =
  {| canvas_width := 2000; canvas_height := 0; canvas_image := Samples.ribbon |}.
Proof. reflexivity. Qed.

(** Switching that image to [etsy] leaves the handler suspended: the
    spinner stays on, no error is recorded, the earlier result stays. *)
Example preset_change_hangs :
  let s := Samples.showing Samples.ribbon in
  let out := handlePresetChange (Samples.browserWith Samples.ribbon) s etsy
               (Samples.fresh s) in
  snd out = Pending /\
  isProcessing (ui (fst out)) = true /\
  error (ui (fst out)) = None /\
  compressedImage (ui (fst out)) = Some Samples.earlier.
Proof. repeat split. Qed.

(** C10. In [src/App.tsx], when the codec hands [null] for the canvas
    drawn, the promise of [compressImage] stays pending; it is never
    rejected, whatever the codec does. A caller awaiting it
    ([handlePresetChange]) stays pending as well: it is left with
    [isProcessing] set, no error recorded and the published image as it
    was. *)
Theorem C10_null_blob_never_settles B (img : HTMLImageElement)
    (preset : Preset) (q : Z) :
  codec B (canvasOf img (resolveSize img preset)) image_jpeg
    (inject_Z q / 100) = None ->
  (forall w, snd (compressImage B img preset q w) = Pending) /\
  (forall img' preset' q' w e,
     snd (compressImage B img' preset' q' w) <> Rejected e) /\
  (forall (s : State) (w : World State) original,
     originalImage s = Some original ->
     decodeFile B (id_file original) = Some img ->
     quality s = q ->
     snd (handlePresetChange B s preset w) = Pending /\
     isProcessing (ui (fst (handlePresetChange B s preset w))) = true /\
     error (ui (fst (handlePresetChange B s preset w))) = error (ui w) /\
     compressedImage (ui (fst (handlePresetChange B s preset w)))
       = compressedImage (ui w)).
Proof.
  intros Hc. split; [| split].
  - intros w. now rewrite (compressImage_null B img preset q w Hc).
  - intros img' preset' q' w e. unfold compressImage, Async.bind.
    rewrite toBlob_logged.
    destruct (codec B (canvasOf img' (resolveSize img' preset')) image_jpeg
                (inject_Z q' / 100)); cbn; discriminate.
  - intros s w original Ho Hl Hq. subst q.
    unfold handlePresetChange, Async.try_catch, Async.bind, loadImage.
    rewrite Ho, Hl. cbn -[compressImage].
    rewrite (compressImage_null B img preset (quality s) _ Hc).
    now cbn.
Qed.

Lemma C10_null_blob_never_settles_witness :
  let B := Samples.browserWith Samples.ribbon in
  (forall w, snd (compressImage B Samples.ribbon etsy 80 w) = Pending) /\
  (forall img' preset' q' w e,
     snd (compressImage B img' preset' q' w) <> Rejected e) /\
  (forall (s : State) (w : World State) original,
     originalImage s = Some original ->
     decodeFile B (id_file original) = Some Samples.ribbon ->
     quality s = 80 ->
     snd (handlePresetChange B s etsy w) = Pending /\
     isProcessing (ui (fst (handlePresetChange B s etsy w))) = true /\
     error (ui (fst (handlePresetChange B s etsy w))) = error (ui w) /\
     compressedImage (ui (fst (handlePresetChange B s etsy w)))
       = compressedImage (ui w)).
Proof.
  apply (C10_null_blob_never_settles (Samples.browserWith Samples.ribbon)
           Samples.ribbon etsy 80).
  reflexivity.
Defined.
End NeverSettles.

(** * Further properties of the quality descent *)

Section DescentBounds.
Import ProcessImageApp.
Import ProcessImageHandlers.

Lemma attempts_one canvas q : attempts canvas q 1 = [jpegCall canvas q].
Proof.
  unfold attempts. cbn. now replace (q - 0) with q by lia.
Qed.

Lemma attempts_step canvas q n :
  attempts canvas (q - 5) n ++ [jpegCall canvas q] = attempts canvas q (S n).
Proof.
  unfold attempts. cbn [seq map rev]. rewrite <- seq_shift, map_map.
  f_equal.
  - f_equal. apply map_ext. intros k. f_equal. lia.
  - f_equal. f_equal. lia.
Qed.

(** The calls of a descent are the qualities [q], [q - 5], ... in turn,
    and every quality tried after the first is above 50. *)
Lemma descent_attempts B canvas t q calls p :
  descent B canvas t q calls p ->
  exists n : nat,
    calls = attempts canvas q n /\ (1 <= n)%nat /\
    Z.of_nat n <= Z.max 1 ((q - 46) / 5).
Proof.
  induction 1 as [q Hc | q data Hc Hb | q data Hc Hb Hq
                 | q data calls p Hc Hb Hq Hd (n & -> & Hn & Hb')].
  1-3: exists 1%nat; rewrite attempts_one; repeat split; lia.
  exists (S n). rewrite attempts_step. repeat split; [lia |].
  assert (E : (q - 46) / 5 = (q - 5 - 46) / 5 + 1).
  { replace (q - 46) with (q - 5 - 46 + 1 * 5) by lia.
    now rewrite Z.div_add by lia. }
  assert (1 <= (q - 5 - 46) / 5).
  { apply Z.div_le_lower_bound; lia. }
  lia.
Qed.

(** Every attempt but the most recent one came back over budget, and a
    descent that returns above the floor returns a blob within budget. *)
Lemma descent_budget B canvas t q calls p :
  descent B canvas t q calls p ->
  forallb (overBudget B t) (tl calls) = true /\
  match p with
  | Fulfilled r =>
      size_le (blob_size (blob r)) t = true \/ finalQuality r <= 50
  | _ => True
  end.
Proof.
  induction 1 as [q Hc | q data Hc Hb | q data Hc Hb Hq
                 | q data calls p Hc Hb Hq Hd [IHc IHp]].
  - now split.
  - split; [reflexivity |]. cbn.
    apply orb_true_iff in Hb as [Hb | Hb]; [now left | right].
    now apply Z.leb_le.
  - split; [reflexivity |]. cbn. right. lia.
  - split; [| exact IHp].
    destruct (descent_calls _ _ _ _ _ _ Hd) as [Hne _].
    destruct calls as [| c calls]; [contradiction |].
    cbn [tl app] in *. rewrite forallb_app, IHc. cbn.
    unfold overBudget, handed. cbn [jpegCall call_canvas call_type call_quality].
    rewrite Hc. apply orb_false_iff in Hb as [-> _]. reflexivity.
Qed.

(** X1. [compressToTargetSize] entered at quality [q] encodes at [q],
    [q - 5], [q - 10], ... in turn and at nothing else; it makes at
    least one call and at most [max 1 ceil((q - 50) / 5)] calls, nine
    for the top of the slider (95). *)
Theorem X1_descent_tries_every_fifth_quality B canvas t q (w : World State) :
  exists n : nat,
    (1 <= n)%nat /\ Z.of_nat n <= Z.max 1 ((q - 46) / 5) /\
    encodeLog (fst (compressToTargetSize B canvas t q w)) =
    (attempts canvas q n ++ encodeLog w)%list.
Proof.
  unfold compressToTargetSize.
  destruct (compressToTargetSize_loop_descent B canvas t q)
    as (calls & p & Hd & Hrun).
  destruct (descent_attempts _ _ _ _ _ _ Hd) as (n & -> & Hn & Hb).
  exists n. rewrite Hrun. now repeat split.
Qed.

(** X2. Whatever the codec does, every attempt of [compressToTargetSize]
    before the last one came back over budget, and the result is within
    budget unless the quality it reports is 50 or less: an over-budget
    blob is only ever returned labelled with the floor. A rejection
    comes from the last attempt handing over [null]. *)
Theorem X2_descent_within_budget_above_floor B canvas t q (w : World State) :
  exists calls,
    encodeLog (fst (compressToTargetSize B canvas t q w)) =
      (calls ++ encodeLog w)%list /\
    forallb (overBudget B t) (tl calls) = true /\
    match snd (compressToTargetSize B canvas t q w) with
    | Fulfilled r =>
        size_le (blob_size (blob r)) t = true \/ finalQuality r <= 50
    | Rejected _ => exists c rest, calls = c :: rest /\ handed B c = None
    | Pending => False
    end.
Proof.
  unfold compressToTargetSize.
  destruct (compressToTargetSize_loop_descent B canvas t q)
    as (calls & p & Hd & Hrun).
  exists calls. rewrite Hrun. cbn [fst snd].
  destruct (descent_budget _ _ _ _ _ _ Hd) as [Hc Hp].
  pose proof (descent_end _ _ _ _ _ _ Hd) as He.
  split; [reflexivity |]. split; [exact Hc |].
  destruct p as [r | e |]; [exact Hp | exact He | exact He].
Qed.
End DescentBounds.

(** * Further properties of [resizeImage] *)

Section FitShape.
Local Open Scope Q_scope.
Import ProcessImageApp.

Variable img : HTMLImageElement.
Hypothesis Hw : (0 < img_width img)%Z.
Hypothesis Hh : (0 < img_height img)%Z.

Let w : Q := inject_Z (img_width img).
Let h : Q := inject_Z (img_height img).

(** The two products of a scaled size differ from the exact ones by one
    rounding each, so the cross products of the result and the source
    differ by two. *)
Lemma scaled_cross_products (r : Q) :
  0 <= r -> r <= 1 ->
  - (2 * epsilon * w * h) <= Number_mul w r * h - Number_mul h r * w /\
  Number_mul w r * h - Number_mul h r * w <= 2 * epsilon * w * h.
Proof.
  intros Pr Ur.
  pose proof (source_width_pos img Hw) as Pw.
  pose proof (source_height_pos img Hh) as Ph.
  cbv zeta in Pw, Ph. fold w in Pw. fold h in Ph.
  assert (Xw : 0 <= w * r) by nra.
  assert (Xh : 0 <= h * r) by nra.
  destruct (binary64_error _ Xw) as [Lw Uw].
  destruct (binary64_error _ Xh) as [Lh Uh].
  unfold Number_mul. unfold epsilon in *.
  set (x := binary64 (w * r)) in *. set (y := binary64 (h * r)) in *.
  assert (M0 : 0 <= w * h) by nra.
  assert (T : w * r * h <= w * h).
  { setoid_replace (w * r * h) with (w * h * r) by ring.
    rewrite <- (Qmult_1_r (w * h)) at 2.
    destruct (Qle_lt_or_eq _ _ M0) as [L | E].
    - apply Qmult_le_l; [exact L | exact Ur].
    - rewrite <- E. lra. }
  assert (A1 : x * h <= w * r * (1 + (1 # 9007199254740992)) * h).
  { apply Qmult_le_r; [exact Ph | exact Uw]. }
  assert (A2 : w * r * (1 - (1 # 9007199254740992)) * h <= x * h).
  { apply Qmult_le_r; [exact Ph | exact Lw]. }
  assert (B1 : y * w <= h * r * (1 + (1 # 9007199254740992)) * w).
  { apply Qmult_le_r; [exact Pw | exact Uh]. }
  assert (B2 : h * r * (1 - (1 # 9007199254740992)) * w <= y * w).
  { apply Qmult_le_r; [exact Pw | exact Lh]. }
  set (P := w * r * h) in *.
  assert (E1 : w * r * (1 + (1 # 9007199254740992)) * h
               == P * (1 + (1 # 9007199254740992))) by (subst P; ring).
  assert (E2 : w * r * (1 - (1 # 9007199254740992)) * h
               == P * (1 - (1 # 9007199254740992))) by (subst P; ring).
  assert (E3 : h * r * (1 + (1 # 9007199254740992)) * w
               == P * (1 + (1 # 9007199254740992))) by (subst P; ring).
  assert (E4 : h * r * (1 - (1 # 9007199254740992)) * w
               == P * (1 - (1 # 9007199254740992))) by (subst P; ring).
  rewrite E1 in A1. rewrite E2 in A2. rewrite E3 in B1. rewrite E4 in B2.
  assert (P0 : 0 <= P) by (subst P; nra).
  assert (E5 : 2 * (1 # 9007199254740992) * w * h
               == (w * h) * (2 # 9007199254740992)) by ring.
  rewrite E5. set (M := w * h) in *.
  clearbody P M x y. split; lra.
Qed.

(** A quotient and the product that undoes it, each rounded once. *)
Lemma scaled_to_bound (X x : Q) :
  0 <= X -> 0 < x ->
  X * (1 - epsilon) * (1 - epsilon) <= Number_mul x (Number_div X x) /\
  Number_mul x (Number_div X x) <= X * (1 + epsilon) * (1 + epsilon).
Proof.
  intros PX Px. unfold Number_mul, Number_div.
  assert (Q0 : 0 <= X / x) by (apply Qle_shift_div_l; lra).
  destruct (binary64_error _ Q0) as [L1 U1].
  pose proof (binary64_nonneg _ Q0) as N1.
  set (q := binary64 (X / x)) in *.
  assert (C : x * (X / x) == X) by (field; lra).
  assert (P0 : 0 <= x * q) by nra.
  destruct (binary64_error _ P0) as [L2 U2].
  set (y := binary64 (x * q)) in *.
  assert (A1 : x * (X / x * (1 - epsilon)) <= x * q).
  { apply Qmult_le_l; [exact Px | exact L1]. }
  assert (A2 : x * q <= x * (X / x * (1 + epsilon))).
  { apply Qmult_le_l; [exact Px | exact U1]. }
  assert (E1 : x * (X / x * (1 - epsilon)) == X * (1 - epsilon)).
  { rewrite <- C at 2. ring. }
  assert (E2 : x * (X / x * (1 + epsilon)) == X * (1 + epsilon)).
  { rewrite <- C at 2. ring. }
  rewrite E1 in A1. rewrite E2 in A2.
  set (z := x * q) in *. unfold epsilon in *. clearbody z y q. split; nra.
Qed.
End FitShape.

(** X3. When [resizeImage] fits an image with positive sides within
    non-negative bounds, the size it returns keeps the aspect ratio of
    the source up to the rounding of its two products: the cross
    products of the result and the source differ by at most 2^-52 of
    the source's area. The result is either the source size or touches
    one of the two bounds up to two roundings: the image is scaled by
    one factor and no further than the bounds demand. *)
Theorem X3_resizeImage_keeps_aspect_ratio_up_to_rounding
    (img : HTMLImageElement) (W H : Q) (e : option bool) :
  (0 < img_width img)%Z -> (0 < img_height img)%Z ->
  e = None \/ e = Some false ->
  (0 <= W)%Q -> (0 <= H)%Q ->
  let w := inject_Z (img_width img) in
  let h := inject_Z (img_height img) in
  let out := snd (ProcessImageApp.resizeImage img W H e) in
  (- (2 * epsilon * w * h) <= width out * h - height out * w /\
   width out * h - height out * w <= 2 * epsilon * w * h)%Q /\
  (out = {| width := w; height := h |} \/
   (W * (1 - epsilon) * (1 - epsilon) <= width out /\
    width out <= W * (1 + epsilon) * (1 + epsilon))%Q \/
   (H * (1 - epsilon) * (1 - epsilon) <= height out /\
    height out <= H * (1 + epsilon) * (1 + epsilon))%Q).
Proof.
  intros Hw Hh He PW PH w h out. subst out.
  rewrite (resizeImage_fit_size img W H e He). cbv zeta. fold w h.
  pose proof (source_width_pos img Hw) as Pw.
  pose proof (source_height_pos img Hh) as Ph.
  cbv zeta in Pw, Ph. fold w in Pw. fold h in Ph.
  pose proof (ratio_nonneg img Hw Hh W H PW PH) as Pr. fold w h in Pr.
  destruct (Qltb _ 1) eqn:E; cbn [width height].
  - apply Qltb_true in E. split.
    + apply (scaled_cross_products img Hw Hh); [exact Pr | lra].
    + right. unfold Math_min. destruct (Qle_bool _ _).
      * left. apply (scaled_to_bound W w PW Pw).
      * right. apply (scaled_to_bound H h PH Ph).
  - split; [| now left]. unfold epsilon.
    assert (T : (0 <= w * h)%Q) by nra.
    setoid_replace (w * h - h * w)%Q with 0%Q by ring. split; nra.
Qed.

Lemma X3_resizeImage_keeps_aspect_ratio_up_to_rounding_witness :
  let w := inject_Z (img_width Samples.panorama) in
  let h := inject_Z (img_height Samples.panorama) in
  let out := snd (ProcessImageApp.resizeImage Samples.panorama 2000 2000 None) in
  (- (2 * epsilon * w * h) <= width out * h - height out * w /\
   width out * h - height out * w <= 2 * epsilon * w * h)%Q /\
  (out = {| width := w; height := h |} \/
   (2000 * (1 - epsilon) * (1 - epsilon) <= width out /\
    width out <= 2000 * (1 + epsilon) * (1 + epsilon))%Q \/
   (2000 * (1 - epsilon) * (1 - epsilon) <= height out /\
    height out <= 2000 * (1 + epsilon) * (1 + epsilon))%Q).
Proof.
  apply (X3_resizeImage_keeps_aspect_ratio_up_to_rounding
           Samples.panorama 2000 2000 None).
  - reflexivity.
  - reflexivity.
  - left. reflexivity.
  - vm_compute. discriminate.
  - vm_compute. discriminate.
Defined.

(** X4. The bitmap [resizeImage] draws and hands to the encoder has for
    sides the integer parts of the width and height it returns, which
    are the ones published and displayed: the displayed size can exceed
    the encoded one by a fraction of a pixel on each axis, never by a
    whole pixel, and is never smaller. *)
Theorem X4_resizeImage_canvas_is_floor_of_reported_size
    (img : HTMLImageElement) (W H : Q) (e : option bool) :
  (0 < img_width img < 2 ^ 32)%Z -> (0 < img_height img < 2 ^ 32)%Z ->
  e = None \/ e = Some false ->
  (0 <= W)%Q -> (0 <= H)%Q ->
  canvas_width (fst (ProcessImageApp.resizeImage img W H e))
    = Qfloor (width (snd (ProcessImageApp.resizeImage img W H e))) /\
  canvas_height (fst (ProcessImageApp.resizeImage img W H e))
    = Qfloor (height (snd (ProcessImageApp.resizeImage img W H e))).
Proof.
  intros [Hw Bw] [Hh Bh] He PW PH.
  destruct (resizeImage_range img Hw Hh W H e He PW PH)
    as [[Lw Uw] [Lh Uh]]; [lia | lia |].
  rewrite resizeImage_canvas. unfold canvasOf.
  cbn [canvas_width canvas_height].
  assert (Bw' : (inject_Z (img_width img) < inject_Z (2 ^ 32))%Q)
    by now rewrite <- Zlt_Qlt.
  assert (Bh' : (inject_Z (img_height img) < inject_Z (2 ^ 32))%Q)
    by now rewrite <- Zlt_Qlt.
  split; apply ToUnsignedLong_floor; try assumption.
  - eapply Qle_lt_trans; eassumption.
  - eapply Qle_lt_trans; eassumption.
Qed.

Lemma X4_resizeImage_canvas_is_floor_of_reported_size_witness :
  canvas_width (fst (ProcessImageApp.resizeImage Samples.scan 2000 2000 None))
    = Qfloor (width (snd (ProcessImageApp.resizeImage Samples.scan 2000 2000 None))) /\
  canvas_height (fst (ProcessImageApp.resizeImage Samples.scan 2000 2000 None))
    = Qfloor (height (snd (ProcessImageApp.resizeImage Samples.scan 2000 2000 None))).
Proof.
  apply (X4_resizeImage_canvas_is_floor_of_reported_size
           Samples.scan 2000 2000 None).
  - vm_compute. split; reflexivity.
  - vm_compute. split; reflexivity.
  - left. reflexivity.
  - vm_compute. discriminate.
  - vm_compute. discriminate.
Defined.

(** * One call of [processImage], in full *)

Section ProcessOutcome.
Import ProcessImageApp.

(** A call whose image loads: what it writes, the canvas every one of
    its [toBlob] calls is made on, and the size it publishes. *)
Lemma processImage_loaded B (r : Request) (img : HTMLImageElement) :
  decodeUrl B (id_dataUrl (req_imageData r)) = Some img ->
  exists e calls,
    (forall w, processImage B r w =
               ({| ui := effect e (setError None (setIsProcessing true (ui w)));
                   encodeLog := calls ++ encodeLog w |}, Fulfilled tt)) /\
    calls <> [] /\
    Forall (fun c =>
              call_canvas c =
              fst (resizeImage img (maxWidth (requestSettings r))
                     (maxHeight (requestSettings r))
                     (exactResize (requestSettings r)))) calls /\
    match e with
    | Published c =>
        ci_width c =
          width (snd (resizeImage img (maxWidth (requestSettings r))
                        (maxHeight (requestSettings r))
                        (exactResize (requestSettings r)))) /\
        ci_height c =
          height (snd (resizeImage img (maxWidth (requestSettings r))
                         (maxHeight (requestSettings r))
                         (exactResize (requestSettings r)))) /\
        ci_size c = blob_size (ci_blob c)
    | Failed _ => True
    | Suspended => False
    end.
Proof.
  intros El.
  unfold processImage, processImage_start, processImage_resume.
  unfold Async.finally, Async.try_catch, Async.bind, loadDataUrl, set_ui,
    Async.modify.
  rewrite El. cbv beta iota delta [Async.ret].
  destruct (resizeImage img (maxWidth (requestSettings r))
              (maxHeight (requestSettings r)) (exactResize (requestSettings r)))
    as [canvas dimensions].
  cbn [fst snd].
  destruct (is_Infinity (targetSize (requestSettings r))) eqn:Ei.
  - destruct (codec B canvas (outputType (req_imageData r))
                (inject_Z (req_qualityValue r) / 100)) as [data |] eqn:Ec.
    + eexists (Published _), [_]. split; [| split; [| split]].
      * intros w. rewrite toBlob_logged, Ec. reflexivity.
      * discriminate.
      * repeat constructor.
      * cbn. repeat split.
    + eexists (Failed _), [_]. split; [| split; [| split]].
      * intros w. rewrite toBlob_logged, Ec. reflexivity.
      * discriminate.
      * repeat constructor.
      * exact I.
  - unfold compressToTargetSize.
    destruct (compressToTargetSize_loop_descent B canvas
                (targetSize (requestSettings r)) (req_qualityValue r))
      as (calls & p & Hd & Hrun).
    pose proof (descent_calls _ _ _ _ _ _ Hd) as [Hne Hty].
    pose proof (descent_end _ _ _ _ _ _ Hd) as Hend.
    assert (Hcv : Forall (fun c => call_canvas c = canvas) calls).
    { eapply Forall_impl; [| exact Hty]. now intros c [? _]. }
    destruct p as [res | e |]; [| | contradiction].
    + eexists (Published _), calls. split; [| split; [| split]].
      * intros w. rewrite Hrun. cbn. reflexivity.
      * exact Hne.
      * exact Hcv.
      * cbn. repeat split.
    + eexists (Failed _), calls. split; [| split; [| split]].
      * intros w. rewrite Hrun. cbn. reflexivity.
      * exact Hne.
      * exact Hcv.
      * exact I.
Qed.

(** A call whose image never loads stops at its first [await]. *)
Lemma processImage_unloaded B (r : Request) (w : World State) :
  decodeUrl B (id_dataUrl (req_imageData r)) = None ->
  processImage B r w =
  ({| ui := setError None (setIsProcessing true (ui w));
      encodeLog := encodeLog w |}, Pending).
Proof.
  intros El.
  unfold processImage, processImage_start, processImage_resume.
  unfold Async.finally, Async.try_catch, Async.bind, loadDataUrl, set_ui,
    Async.modify.
  rewrite El. reflexivity.
Qed.

Lemma app_nonempty_neq {A} (l1 l2 : list A) : l1 <> [] -> (l1 ++ l2)%list <> l2.
Proof.
  intros Hne E. apply Hne.
  assert (L : List.length (l1 ++ l2)%list = List.length l2) by now rewrite E.
  rewrite length_app in L. destruct l1; [reflexivity | cbn in L; lia].
Qed.

(** X5. [processImage] never rejects, and it ends in one of three
    ways. It publishes a result: the error is cleared, the spinner is
    off, at least one [toBlob] call was made and the size recorded is
    the blob's. Or it fails: an error is shown, the spinner is off and
    the result on display is the one from before. Or the image never
    loads: nothing is encoded or published, no error is shown and the
    spinner stays on for good. *)
Theorem X5_processImage_three_outcomes B (r : Request) (w : World State) :
  let w' := fst (processImage B r w) in
  match snd (processImage B r w) with
  | Fulfilled _ =>
      isProcessing (ui w') = false /\
      ((error (ui w') = None /\ encodeLog w' <> encodeLog w /\
        exists c, compressedImage (ui w') = Some c /\
                  ci_size c = blob_size (ci_blob c)) \/
       (error (ui w') <> None /\ encodeLog w' <> encodeLog w /\
        compressedImage (ui w') = compressedImage (ui w)))
  | Pending =>
      decodeUrl B (id_dataUrl (req_imageData r)) = None /\
      isProcessing (ui w') = true /\ error (ui w') = None /\
      encodeLog w' = encodeLog w /\
      compressedImage (ui w') = compressedImage (ui w)
  | Rejected _ => False
  end.
Proof.
  destruct (decodeUrl B (id_dataUrl (req_imageData r))) as [img |] eqn:El.
  - destruct (processImage_loaded B r img El) as (e & calls & Hrun & Hne & _ & He).
    rewrite Hrun. cbn [fst snd ui encodeLog].
    pose proof (app_nonempty_neq calls (encodeLog w) Hne) as Hlog.
    destruct e as [c | msg |]; [| | contradiction].
    + split; [reflexivity |]. left. split; [reflexivity |].
      split; [exact Hlog |]. exists c. split; [reflexivity | apply He].
    + split; [reflexivity |]. right. split; [discriminate |].
      split; [exact Hlog | reflexivity].
  - rewrite processImage_unloaded by exact El. cbn. now repeat split.
Qed.

(** X6. Every [toBlob] call of a call of [processImage] is made on one
    and the same canvas, the one [resizeImage] drew; for an image with
    sides below 2^32 and bounds that are whole numbers below 2^32, as
    those of the presets and validated custom ones are, that canvas
    fits the bounds. Whatever the call publishes has the size
    [resizeImage] returned, which exceeds the bounds by two roundings
    at most. *)
Theorem X6_processImage_encodes_within_bounds B (r : Request)
    (w : World State) (img : HTMLImageElement) (Wz Hz : Z) :
  decodeUrl B (id_dataUrl (req_imageData r)) = Some img ->
  (0 < img_width img < 2 ^ 32)%Z -> (0 < img_height img < 2 ^ 32)%Z ->
  let settings := requestSettings r in
  (maxWidth settings == inject_Z Wz)%Q ->
  (maxHeight settings == inject_Z Hz)%Q ->
  (0 <= Wz < 2 ^ 32)%Z -> (0 <= Hz < 2 ^ 32)%Z ->
  let w' := fst (processImage B r w) in
  (exists calls,
     encodeLog w' = (calls ++ encodeLog w)%list /\
     Forall (fun c =>
               call_canvas c =
               fst (resizeImage img (maxWidth settings) (maxHeight settings)
                      (exactResize settings)) /\
               (canvas_width (call_canvas c) <= Wz)%Z /\
               (canvas_height (call_canvas c) <= Hz)%Z) calls) /\
  (error (ui w') = None ->
   exists c, compressedImage (ui w') = Some c /\
             (ci_width c
                <= maxWidth settings * (1 + epsilon) * (1 + epsilon))%Q /\
             (ci_height c
                <= maxHeight settings * (1 + epsilon) * (1 + epsilon))%Q).
Proof.
  intros El Hw Hh settings HW HH BW BH w'. subst settings w'.
  destruct (processImage_loaded B r img El) as (e & calls & Hrun & _ & Hcv & He).
  destruct (resizeImage_encoded_within img _ _ Wz Hz
              (exactResize (requestSettings r)) Hw Hh HW HH BW BH)
    as [[Cw Ch] [Nw Nh]].
  rewrite Hrun. cbn [fst ui encodeLog]. split.
  - exists calls. split; [reflexivity |].
    revert Hcv. apply Forall_impl. intros c ->. now repeat split.
  - destruct e as [c | msg |]; cbn; [| discriminate | contradiction].
    intros _. exists c. split; [reflexivity |].
    destruct He as (-> & -> & _). now split.
Qed.

Lemma X6_processImage_encodes_within_bounds_witness :
  let B := Samples.browserWith Samples.photo in
  let r := Samples.request Samples.jpegFile Samples.photo "etsy"%string 80 in
  let w := Samples.fresh Samples.loaded in
  let settings := requestSettings r in
  let w' := fst (processImage B r w) in
  (exists calls,
     encodeLog w' = (calls ++ encodeLog w)%list /\
     Forall (fun c =>
               call_canvas c =
               fst (resizeImage Samples.photo (maxWidth settings)
                      (maxHeight settings) (exactResize settings)) /\
               (canvas_width (call_canvas c) <= 2000)%Z /\
               (canvas_height (call_canvas c) <= 2000)%Z) calls) /\
  (error (ui w') = None ->
   exists c, compressedImage (ui w') = Some c /\
             (ci_width c
                <= maxWidth settings * (1 + epsilon) * (1 + epsilon))%Q /\
             (ci_height c
                <= maxHeight settings * (1 + epsilon) * (1 + epsilon))%Q).
Proof.
  apply (X6_processImage_encodes_within_bounds
           (Samples.browserWith Samples.photo)
           (Samples.request Samples.jpegFile Samples.photo "etsy"%string 80)
           (Samples.fresh Samples.loaded) Samples.photo 2000 2000).
  - reflexivity.
  - vm_compute. split; reflexivity.
  - vm_compute. split; reflexivity.
  - reflexivity.
  - reflexivity.
  - vm_compute. split; [discriminate | reflexivity].
  - vm_compute. split; [discriminate | reflexivity].
Defined.
End ProcessOutcome.

(** * The two [validateDimensions] *)

Section Validators.
Local Open Scope Q_scope.

Lemma whole_pos_ge_1 (x : Q) : whole x -> 0 < x -> 1 <= x.
Proof.
  intros [n Hn] Hx. rewrite Hn in *.
  change 0 with (inject_Z 0) in Hx. rewrite <- Zlt_Qlt in Hx.
  change 1 with (inject_Z 1). rewrite <- Zle_Qle. lia.
Qed.

(** What the [validateDimensions] of the [processImage] revision lets
    through. *)
Lemma validateDimensions_lets_through (W H : Q) :
  ProcessImageApp.validateDimensions W H = None <->
  (whole W /\ whole H) /\ (1 <= W <= 8000) /\ (1 <= H <= 8000).
Proof.
  unfold ProcessImageApp.validateDimensions.
  destruct (Qltb W 1) eqn:E1; cbn [orb].
  { apply Qltb_true in E1. split; [discriminate | intros (_ & ? & _); lra]. }
  destruct (Qltb H 1) eqn:E2; cbn [orb].
  { apply Qltb_true in E2. split; [discriminate | intros (_ & _ & ?); lra]. }
  destruct (Qltb 8000 W) eqn:E3; cbn [orb].
  { apply Qltb_true in E3. split; [discriminate | intros (_ & ? & _); lra]. }
  destruct (Qltb 8000 H) eqn:E4; cbn [orb].
  { apply Qltb_true in E4. split; [discriminate | intros (_ & _ & ?); lra]. }
  apply Qltb_false in E1, E2, E3, E4.
  destruct (Number_isInteger W) eqn:E5; cbn [negb orb].
  2:{ apply Number_isInteger_false in E5.
      split; [discriminate | intros ([? _] & _); contradiction]. }
  destruct (Number_isInteger H) eqn:E6; cbn [negb].
  2:{ apply Number_isInteger_false in E6.
      split; [discriminate | intros ([_ ?] & _); contradiction]. }
  apply Number_isInteger_true in E5, E6.
  split; [intros _ | reflexivity]. repeat split; assumption.
Qed.
End Validators.

(** X7. The [validateDimensions] of the [processImage] revision lets
    through exactly the pairs of whole numbers from 1 to 8000, and so
    does the one of the [recompressImage] revision: the two test in a
    different order and word their messages differently, but no pair of
    bounds is accepted by one and refused by the other. *)
Theorem X7_validators_accept_whole_numbers_1_to_8000 (W H : Q) :
  (ProcessImageApp.validateDimensions W H = None <->
   (whole W /\ whole H) /\ (1 <= W <= 8000)%Q /\ (1 <= H <= 8000)%Q) /\
  (ProcessImageApp.validateDimensions W H = None <->
   RecompressApp.validateDimensions W H = None).
Proof.
  split; [apply validateDimensions_lets_through |].
  rewrite validateDimensions_lets_through, validateDimensions_accepts.
  unfold RecompressApp.MAX_DIMENSIONS. split.
  - intros (Hwhole & [L1 U1] & [L2 U2]). repeat split; try apply Hwhole; lra.
  - intros ([Ww Wh] & [P1 P2] & [U1 U2]).
    pose proof (whole_pos_ge_1 W Ww P1). pose proof (whole_pos_ge_1 H Wh P2).
    repeat split; assumption.
Qed.

(** * Selecting a file ([processImage] revision) *)

Section FileSelect.
Import ProcessImageApp.
Import ProcessImageHandlers.

Variable B : Browser.
Variable readAsDataURL : File -> option string.

(** The state [handleFileSelect] hands over to [processImage]. *)
Let selected (imageData : ImageData) (w : World State) : World State :=
  {| ui := setOriginalImage (Some imageData)
             (setCompressedImage None (setError None (ui w)));
     encodeLog := encodeLog w |}.

(** A file that passes [validateFile], is read, decodes and measures at
    most 8000 on each side: the handler ends as the call of
    [processImage] it awaits. *)
Lemma handleFileSelect_accepted (s : State) (file : File) dataUrl img
    (w : World State) :
  validateFile file = None ->
  readAsDataURL file = Some dataUrl ->
  decodeUrl B dataUrl = Some img ->
  (8000 <? img_width img) || (8000 <? img_height img) = false ->
  handleFileSelect B readAsDataURL s file w =
  processImage B
    {| req_imageData :=
         {| id_file := file; id_dataUrl := dataUrl;
            id_width := img_width img; id_height := img_height img;
            id_size := file_size file |};
       req_preset := selectedPreset s; req_qualityValue := quality s;
       req_customW := None; req_customH := None; req_closure := s |}
    (selected {| id_file := file; id_dataUrl := dataUrl;
                 id_width := img_width img; id_height := img_height img;
                 id_size := file_size file |} w).
Proof.
  intros Hv Hr Hd Hs.
  unfold handleFileSelect, loadImage, processImageCall. rewrite Hv, Hr, Hd, Hs.
  unfold Async.try_catch, Async.bind, set_ui, Async.modify, Async.ret.
  cbn [ui encodeLog].
  match goal with
  | |- context [processImage B ?r ?w0] =>
      destruct (processImage_loaded B r img Hd) as (e & calls & Hrun & _);
      fold (selected (req_imageData r) w)
  end.
  rewrite !Hrun. reflexivity.
Qed.

(** Any other file: the handler shows a message and stops. *)
Lemma handleFileSelect_refused (s : State) (file : File) (w : World State) :
  validateFile file <> None \/
  readAsDataURL file = None \/
  (exists dataUrl, readAsDataURL file = Some dataUrl /\
     (decodeUrl B dataUrl = None \/
      exists img, decodeUrl B dataUrl = Some img /\
        (8000 <? img_width img) || (8000 <? img_height img) = true)) ->
  exists (msg : string) (keep : bool),
    handleFileSelect B readAsDataURL s file w =
    ({| ui := setError (Some msg)
                (if keep then ui w
                 else setCompressedImage None (setError None (ui w)));
        encodeLog := encodeLog w |}, Fulfilled tt) /\
    (keep = true <-> validateFile file <> None).
Proof.
  unfold handleFileSelect, loadImage.
  destruct (validateFile file) as [msg |] eqn:Hv.
  { intros _. exists msg, true. split; [reflexivity |]. now split. }
  intros [Hn | [Hr | (dataUrl & Hr & [Hd | (img & Hd & Hs)])]];
    [contradiction | | |].
  - rewrite Hr. eexists _, false. split; [reflexivity |].
    split; [discriminate | intros H; now contradiction H].
  - rewrite Hr, Hd. eexists _, false. split; [reflexivity |].
    split; [discriminate | intros H; now contradiction H].
  - rewrite Hr, Hd, Hs. eexists _, false. split; [reflexivity |].
    split; [discriminate | intros H; now contradiction H].
Qed.

(** Every file falls under one of the two lemmas above. *)
Lemma accepted_or_refused (file : File) :
  (validateFile file = None /\
   exists dataUrl img,
     readAsDataURL file = Some dataUrl /\ decodeUrl B dataUrl = Some img /\
     (8000 <? img_width img) || (8000 <? img_height img) = false) \/
  (validateFile file <> None \/
   readAsDataURL file = None \/
   (exists dataUrl, readAsDataURL file = Some dataUrl /\
      (decodeUrl B dataUrl = None \/
       exists img, decodeUrl B dataUrl = Some img /\
         (8000 <? img_width img) || (8000 <? img_height img) = true))).
Proof.
  destruct (validateFile file) eqn:Hv; [right; left; discriminate |].
  destruct (readAsDataURL file) as [dataUrl |] eqn:Hr; [| right; right; now left].
  destruct (decodeUrl B dataUrl) as [img |] eqn:Hd.
  2:{ right. right. right. exists dataUrl. split; [reflexivity | now left]. }
  destruct ((8000 <? img_width img) || (8000 <? img_height img)) eqn:Hs.
  - right. right. right. exists dataUrl. split; [reflexivity |].
    right. now exists img.
  - left. split; [reflexivity |]. now exists dataUrl, img.
Qed.

Lemma validateFile_size (file : File) :
  validateFile file = None -> file_size file <= 10 * 1024 * 1024.
Proof.
  unfold validateFile. destruct (negb _); [discriminate |].
  destruct (_ <? _) eqn:E; [discriminate |]. intros _.
  now apply Z.ltb_ge in E.
Qed.
End FileSelect.

(** X8. [handleFileSelect] always settles, and never by a rejection. It
    either refuses the file, showing a message while the image held, the
    spinner and the encoder are left alone; or it stores an image that
    passed [validateFile], weighs at most 10 MB and measures at most
    8000 on each side, runs the encoder at least once and ends with the
    spinner off, a result being on display whenever no error is. *)
Theorem X8_handleFileSelect_refuses_or_processes (B : Browser)
    (readAsDataURL : File -> option string) (s : ProcessImageApp.State)
    (file : File) (w : World ProcessImageApp.State) :
  let w' := fst (ProcessImageHandlers.handleFileSelect B readAsDataURL s file w) in
  snd (ProcessImageHandlers.handleFileSelect B readAsDataURL s file w)
    = Fulfilled tt /\
  ((ProcessImageApp.originalImage (ui w') = ProcessImageApp.originalImage (ui w) /\
    ProcessImageApp.isProcessing (ui w') = ProcessImageApp.isProcessing (ui w) /\
    encodeLog w' = encodeLog w /\
    ProcessImageApp.error (ui w') <> None) \/
   (ProcessImageHandlers.validateFile file = None /\
    (exists d, ProcessImageApp.originalImage (ui w') = Some d /\
               id_file d = file /\ id_size d = file_size file /\
               id_size d <= 10 * 1024 * 1024 /\
               id_width d <= 8000 /\ id_height d <= 8000) /\
    ProcessImageApp.isProcessing (ui w') = false /\
    encodeLog w' <> encodeLog w /\
    (ProcessImageApp.error (ui w') = None ->
     ProcessImageApp.compressedImage (ui w') <> None))).
Proof.
  intros w'. subst w'.
  destruct (accepted_or_refused B readAsDataURL file)
    as [(Hv & dataUrl & img & Hr & Hd & Hs) | Hrefused].
  - rewrite (handleFileSelect_accepted B readAsDataURL s file dataUrl img w
               Hv Hr Hd Hs).
    match goal with
    | |- context [ProcessImageApp.processImage B ?r ?w0] =>
        destruct (processImage_loaded B r img Hd)
          as (e & calls & Hrun & Hne & _ & He); rewrite !Hrun
    end.
    cbn [fst snd ui encodeLog]. split; [reflexivity |]. right.
    apply orb_false_iff in Hs as [Hsw Hsh].
    apply Z.ltb_ge in Hsw, Hsh.
    pose proof (validateFile_size file Hv) as Hsize.
    split; [exact Hv |].
    destruct e as [c | msg |]; [| | contradiction].
    + split; [eexists; split; [reflexivity | now cbn] |].
      split; [reflexivity |].
      split; [now apply app_nonempty_neq | discriminate].
    + split; [eexists; split; [reflexivity | now cbn] |].
      split; [reflexivity |].
      split; [now apply app_nonempty_neq | discriminate].
  - destruct (handleFileSelect_refused B readAsDataURL s file w Hrefused)
      as (msg & keep & -> & _).
    cbn [fst snd ui encodeLog]. split; [reflexivity |]. left.
    destruct keep; cbn; repeat split; discriminate.
Qed.

(** X9. [handleFileSelect] takes the custom bounds from the render that
    memoised it (the last one in which the preset or the quality
    changed), not from the current state: with the custom preset
    selected, a newly selected file is encoded on the canvas
    [resizeImage] draws for the width and height of that render,
    whatever the two fields hold by now. *)
Theorem X9_handleFileSelect_uses_bounds_of_memoised_render (B : Browser)
    (readAsDataURL : File -> option string) (s : ProcessImageApp.State)
    (file : File) (w : World ProcessImageApp.State)
    (dataUrl : string) (img : HTMLImageElement) :
  ProcessImageHandlers.validateFile file = None ->
  readAsDataURL file = Some dataUrl ->
  decodeUrl B dataUrl = Some img ->
  img_width img <= 8000 -> img_height img <= 8000 ->
  ProcessImageApp.selectedPreset s = "custom"%string ->
  exists calls,
    calls <> [] /\
    encodeLog (fst (ProcessImageHandlers.handleFileSelect B readAsDataURL s file w))
      = (calls ++ encodeLog w)%list /\
    Forall (fun c =>
              call_canvas c =
              fst (ProcessImageApp.resizeImage img
                     (ProcessImageApp.customWidth s)
                     (ProcessImageApp.customHeight s) None)) calls.
Proof.
  intros Hv Hr Hd Hsw Hsh Hp.
  assert (Hs : (8000 <? img_width img) || (8000 <? img_height img) = false).
  { apply orb_false_iff. split; apply Z.ltb_ge; assumption. }
  rewrite (handleFileSelect_accepted B readAsDataURL s file dataUrl img w
             Hv Hr Hd Hs).
  match goal with
  | |- context [ProcessImageApp.processImage B ?r ?w0] =>
      destruct (processImage_loaded B r img Hd)
        as (e & calls & Hrun & Hne & Hcv & _); rewrite !Hrun
  end.
  exists calls. split; [exact Hne |]. split; [reflexivity |].
  unfold ProcessImageApp.requestSettings in Hcv.
  cbn [ProcessImageApp.req_preset ProcessImageApp.req_customW
       ProcessImageApp.req_customH ProcessImageApp.req_closure
       ProcessImageApp.truthy_arg andb] in Hcv.
  rewrite Hp in Hcv. exact Hcv.
Qed.

(** The scenario of the witness: the preset and the quality have not
    changed since the click on the custom preset, so the
    [handleFileSelect] of that render is still the one in use; the width
    field holds 500 by now, and the new upload is drawn 1440 by 1080,
    within the 1920 by 1080 of that render, not 500 by 375. *)
Lemma X9_handleFileSelect_uses_bounds_of_memoised_render_witness :
  (ProcessImageHandlers.memoised Uploads.customClicked
     (ui Uploads.editedThenCleared) = Uploads.customClicked /\
   ProcessImageApp.customWidth (ui Uploads.editedThenCleared) = 500%Q /\
   fst (ProcessImageApp.resizeImage Samples.photo
          (ProcessImageApp.customWidth Uploads.customClicked)
          (ProcessImageApp.customHeight Uploads.customClicked) None)
     = {| canvas_width := 1440; canvas_height := 1080;
          canvas_image := Samples.photo |}) /\
  exists calls,
    calls <> [] /\
    encodeLog (fst (ProcessImageHandlers.handleFileSelect
                      (Samples.browserWith Samples.photo) Uploads.reader
                      Uploads.customClicked Samples.jpegFile
                      Uploads.editedThenCleared))
      = (calls ++ encodeLog Uploads.editedThenCleared)%list /\
    Forall (fun c =>
              call_canvas c =
              fst (ProcessImageApp.resizeImage Samples.photo
                     (ProcessImageApp.customWidth Uploads.customClicked)
                     (ProcessImageApp.customHeight Uploads.customClicked) None))
      calls.
Proof.
  split; [repeat split |].
  apply (X9_handleFileSelect_uses_bounds_of_memoised_render
           (Samples.browserWith Samples.photo) Uploads.reader
           Uploads.customClicked Samples.jpegFile Uploads.editedThenCleared
           "data:image/jpeg;base64,"%string Samples.photo).
  - reflexivity.
  - reflexivity.
  - reflexivity.
  - vm_compute. discriminate.
  - vm_compute. discriminate.
  - reflexivity.
Defined.

(** * Editing the custom dimensions ([processImage] revision) *)

Section CustomEdit.
Import ProcessImageApp.
Import ProcessImageHandlers.
Local Open Scope Q_scope.

Lemma truthy_ge_1 (x : Q) : 1 <= x -> truthy x = true.
Proof.
  intros Hx. unfold truthy. apply negb_true_iff.
  destruct (Qeq_bool x 0) eqn:E; [| reflexivity].
  apply Qeq_bool_iff in E. lra.
Qed.

Lemma ToUnsignedLong_zero (x : Q) : x == 0 -> ToUnsignedLong x = 0%Z.
Proof.
  intros Hx. rewrite ToUnsignedLong_floor.
  - now rewrite Hx.
  - rewrite Hx. apply Qle_refl.
  - rewrite Hx. reflexivity.
Qed.

(** A bound of zero leaves no canvas: fitting within zero by anything
    non-negative scales both sides to zero. *)
Lemma resizeImage_zero_width (img : HTMLImageElement) (H : Q) :
  (0 < img_width img)%Z -> (0 < img_height img)%Z -> 0 <= H ->
  canvas_width (fst (resizeImage img 0 H None)) = 0%Z /\
  canvas_height (fst (resizeImage img 0 H None)) = 0%Z.
Proof.
  intros Hw Hh PH. rewrite resizeImage_canvas.
  rewrite (resizeImage_fit_size img 0 H None) by now left.
  cbv zeta.
  pose proof (source_width_pos img Hw) as Pw.
  pose proof (source_height_pos img Hh) as Ph.
  cbv zeta in Pw, Ph.
  set (w := inject_Z (img_width img)) in *.
  set (h := inject_Z (img_height img)) in *.
  assert (Z0 : Number_div 0 w = 0).
  { apply binary64_zero_eq. unfold Qdiv. ring. }
  assert (Pq : 0 <= Number_div H h).
  { apply binary64_nonneg. apply Qle_shift_div_l; lra. }
  assert (Hm : Math_min (Number_div 0 w) (Number_div H h) == 0).
  { apply Qle_antisym.
    - rewrite <- Z0 at 2. apply Math_min_le_l.
    - apply Math_min_glb; [rewrite Z0; apply Qle_refl | exact Pq]. }
  assert (E : Qltb (Math_min (Number_div 0 w) (Number_div H h)) 1 = true).
  { apply Qltb_true. rewrite Hm. reflexivity. }
  rewrite E. unfold canvasOf. cbn [canvas_width canvas_height width height].
  unfold Number_mul.
  rewrite (binary64_zero_eq (w * _)) by (rewrite Hm; ring).
  rewrite (binary64_zero_eq (h * _)) by (rewrite Hm; ring).
  split; reflexivity.
Qed.
End CustomEdit.

(** X10. A dimension edit that validates, made with the custom preset
    selected and an image loaded, clears the dimension error and
    re-processes the image at once for the bounds as edited (the typed
    value on the edited axis, the stored one on the other): every
    [toBlob] call it makes is on a canvas within them, and what it
    publishes exceeds them by two roundings at most. *)
Theorem X10_valid_edit_reprocesses_for_typed_bounds (B : Browser)
    (s : ProcessImageApp.State) (dimension : ProcessImageHandlers.Dimension)
    (v : Z) (w : World ProcessImageApp.State)
    (d : ImageData) (img : HTMLImageElement) :
  ProcessImageApp.originalImage s = Some d ->
  decodeUrl B (id_dataUrl d) = Some img ->
  0 < img_width img < 2 ^ 32 -> 0 < img_height img < 2 ^ 32 ->
  ProcessImageApp.selectedPreset s = "custom"%string ->
  let newWidth :=
    match dimension with
    | ProcessImageHandlers.Width => inject_Z v
    | ProcessImageHandlers.Height => ProcessImageApp.customWidth s
    end in
  let newHeight :=
    match dimension with
    | ProcessImageHandlers.Height => inject_Z v
    | ProcessImageHandlers.Width => ProcessImageApp.customHeight s
    end in
  ProcessImageApp.validateDimensions newWidth newHeight = None ->
  let w' := fst (ProcessImageHandlers.handleCustomDimensionChange B s
                   dimension v w) in
  ProcessImageApp.dimensionError (ui w') = None /\
  encodeLog w' <> encodeLog w /\
  (exists calls,
     encodeLog w' = (calls ++ encodeLog w)%list /\
     Forall (fun c =>
               (inject_Z (canvas_width (call_canvas c)) <= newWidth)%Q /\
               (inject_Z (canvas_height (call_canvas c)) <= newHeight)%Q)
       calls) /\
  (ProcessImageApp.error (ui w') = None ->
   exists c, ProcessImageApp.compressedImage (ui w') = Some c /\
             (ci_width c <= newWidth * (1 + epsilon) * (1 + epsilon))%Q /\
             (ci_height c <= newHeight * (1 + epsilon) * (1 + epsilon))%Q).
Proof.
  intros Ho Hd Hw Hh Hp newWidth newHeight Hv w'. subst w'.
  unfold ProcessImageHandlers.handleCustomDimensionChange.
  fold newWidth newHeight. rewrite Hv, Ho.
  unfold ProcessImageHandlers.processImageCall, unawaited, Async.bind.
  pose proof Hv as Hv'. apply validateDimensions_lets_through in Hv'.
  destruct Hv' as ([[Wz HW] [Hz HH]] & [Lw Uw] & [Lh Uh]).
  assert (BW : 0 <= Wz < 2 ^ 32).
  { rewrite HW in Lw, Uw. change 1%Q with (inject_Z 1) in Lw.
    change 8000%Q with (inject_Z 8000) in Uw.
    rewrite <- Zle_Qle in Lw, Uw. lia. }
  assert (BH : 0 <= Hz < 2 ^ 32).
  { rewrite HH in Lh, Uh. change 1%Q with (inject_Z 1) in Lh.
    change 8000%Q with (inject_Z 8000) in Uh.
    rewrite <- Zle_Qle in Lh, Uh. lia. }
  match goal with
  | |- context [ProcessImageApp.processImage B ?r _] =>
      destruct (processImage_loaded B r img Hd)
        as (e & calls & Hrun & Hne & Hcv & He);
      assert (Hset : ProcessImageApp.requestSettings r =
                     {| ProcessImageApp.maxWidth := newWidth;
                        ProcessImageApp.maxHeight := newHeight;
                        ProcessImageApp.targetSize := Infinity;
                        ProcessImageApp.exactResize := None |})
  end.
  { unfold ProcessImageApp.requestSettings.
    cbn [ProcessImageApp.req_preset ProcessImageApp.req_customW
         ProcessImageApp.req_customH ProcessImageApp.truthy_arg
         ProcessImageApp.arg_or].
    now rewrite Hp, !truthy_ge_1. }
  rewrite Hset in He, Hcv.
  cbn [ProcessImageApp.maxWidth ProcessImageApp.maxHeight
       ProcessImageApp.exactResize] in He, Hcv.
  destruct (resizeImage_encoded_within img newWidth newHeight Wz Hz None
              Hw Hh HW HH BW BH) as [[Cw Ch] Hfit].
  assert (Hcan : Forall
            (fun c =>
               (inject_Z (canvas_width (call_canvas c)) <= newWidth)%Q /\
               (inject_Z (canvas_height (call_canvas c)) <= newHeight)%Q)
            calls).
  { revert Hcv. apply Forall_impl. intros c ->.
    rewrite Zle_Qle in Cw, Ch. split; lra. }
  destruct dimension; unfold set_ui, Async.modify; cbn [fst snd ui encodeLog];
    rewrite Hrun; cbn [fst snd ui encodeLog].
  all: destruct e as [c | msg |]; [| | contradiction].
  all: split; [reflexivity |].
  all: split; [now apply app_nonempty_neq |].
  all: split; [now exists calls |].
  all: cbn; try discriminate.
  all: intros _; exists c; split; [reflexivity |].
  all: destruct He as (-> & -> & _); exact Hfit.
Qed.

Lemma X10_valid_edit_reprocesses_for_typed_bounds_witness :
  let s := ProcessImageApp.setOriginalImage
             (Some (Samples.dataOf Samples.jpegFile Samples.panorama))
             Uploads.customSelected in
  let w' := fst (ProcessImageHandlers.handleCustomDimensionChange
                   (Samples.browserWith Samples.panorama) s
                   ProcessImageHandlers.Width 2000 (Samples.fresh s)) in
  ProcessImageApp.dimensionError (ui w') = None /\
  encodeLog w' <> encodeLog (Samples.fresh s) /\
  (exists calls,
     encodeLog w' = (calls ++ encodeLog (Samples.fresh s))%list /\
     Forall (fun c =>
               (inject_Z (canvas_width (call_canvas c)) <= inject_Z 2000)%Q /\
               (inject_Z (canvas_height (call_canvas c))
                  <= ProcessImageApp.customHeight s)%Q)
       calls) /\
  (ProcessImageApp.error (ui w') = None ->
   exists c, ProcessImageApp.compressedImage (ui w') = Some c /\
             (ci_width c <= inject_Z 2000 * (1 + epsilon) * (1 + epsilon))%Q /\
             (ci_height c
                <= ProcessImageApp.customHeight s
                   * (1 + epsilon) * (1 + epsilon))%Q).
Proof.
  apply (X10_valid_edit_reprocesses_for_typed_bounds
           (Samples.browserWith Samples.panorama)
           (ProcessImageApp.setOriginalImage
              (Some (Samples.dataOf Samples.jpegFile Samples.panorama))
              Uploads.customSelected)
           ProcessImageHandlers.Width 2000
           (Samples.fresh
              (ProcessImageApp.setOriginalImage
                 (Some (Samples.dataOf Samples.jpegFile Samples.panorama))
                 Uploads.customSelected))
           (Samples.dataOf Samples.jpegFile Samples.panorama)
           Samples.panorama).
  - reflexivity.
  - reflexivity.
  - vm_compute. split; reflexivity.
  - vm_compute. split; reflexivity.
  - reflexivity.
  - reflexivity.
Defined.

(** X11. The dimension check guards the two fields only. Emptying the
    width field (or typing 0) with the custom preset selected stores 0,
    shows the message and encodes nothing; but the quality slider stays
    enabled, and moving it processes the image with the stored bound
    unchecked: every [toBlob] call it makes is on a canvas of 0 by 0,
    while the message of the field is still on display. *)
Theorem X11_rejected_bound_reaches_the_encoder (B : Browser)
    (s : ProcessImageApp.State) (q : Z) (log : list EncodeCall)
    (d : ImageData) (img : HTMLImageElement) :
  ProcessImageApp.originalImage s = Some d ->
  decodeUrl B (id_dataUrl d) = Some img ->
  0 < img_width img -> 0 < img_height img ->
  ProcessImageApp.selectedPreset s = "custom"%string ->
  (0 <= ProcessImageApp.customHeight s)%Q ->
  let w1 := fst (ProcessImageHandlers.handleCustomDimensionChange B s
                   ProcessImageHandlers.Width 0
                   {| ui := s; encodeLog := log |}) in
  let w2 := fst (ProcessImageHandlers.handleQualityChange B (ui w1) q w1) in
  (ProcessImageApp.customWidth (ui w1) = 0%Q /\
   ProcessImageApp.dimensionError (ui w1)
     = Some "Width and height must be at least 1 pixel"%string /\
   encodeLog w1 = log) /\
  (exists calls,
     calls <> [] /\ encodeLog w2 = (calls ++ log)%list /\
     Forall (fun c => canvas_width (call_canvas c) = 0 /\
                      canvas_height (call_canvas c) = 0) calls) /\
  ProcessImageApp.dimensionError (ui w2)
    = Some "Width and height must be at least 1 pixel"%string.
Proof.
  intros Ho Hd Hw Hh Hp PH w1 w2.
  assert (E1 : w1 = {| ui := ProcessImageHandlers.setDimensionError
                               (Some "Width and height must be at least 1 pixel"%string)
                               (ProcessImageHandlers.setCustomWidth 0%Q s);
                       encodeLog := log |}).
  { subst w1. unfold ProcessImageHandlers.handleCustomDimensionChange.
    unfold ProcessImageApp.validateDimensions.
    change (Qltb (inject_Z 0) 1) with true. cbn [orb].
    destruct (ProcessImageApp.originalImage s); reflexivity. }
  subst w2. rewrite E1. clear E1 w1. cbn [ui].
  split; [now repeat split |].
  unfold ProcessImageHandlers.handleQualityChange.
  cbn [ProcessImageApp.originalImage ProcessImageHandlers.setDimensionError
       ProcessImageHandlers.setCustomWidth].
  rewrite Ho.
  unfold ProcessImageHandlers.processImageCall, unawaited, Async.bind,
    set_ui, Async.modify.
  cbn [fst snd ui encodeLog].
  match goal with
  | |- context [ProcessImageApp.processImage B ?r _] =>
      destruct (processImage_loaded B r img Hd)
        as (e & calls & Hrun & Hne & Hcv & _);
      assert (Hset : ProcessImageApp.requestSettings r =
                     {| ProcessImageApp.maxWidth := 0%Q;
                        ProcessImageApp.maxHeight :=
                          ProcessImageApp.customHeight s;
                        ProcessImageApp.targetSize := Infinity;
                        ProcessImageApp.exactResize := None |})
  end.
  { unfold ProcessImageApp.requestSettings.
    cbn [ProcessImageApp.req_preset ProcessImageApp.req_customW
         ProcessImageApp.req_customH ProcessImageApp.truthy_arg
         ProcessImageApp.req_closure andb
         ProcessImageApp.selectedPreset
         ProcessImageHandlers.setDimensionError
         ProcessImageHandlers.setCustomWidth ProcessImageHandlers.setQuality].
    rewrite Hp. reflexivity. }
  rewrite Hset in Hcv.
  cbn [ProcessImageApp.maxWidth ProcessImageApp.maxHeight
       ProcessImageApp.exactResize] in Hcv.
  rewrite Hrun. cbn [fst ui encodeLog]. split.
  - exists calls. split; [exact Hne |]. split; [reflexivity |].
    eapply Forall_impl; [| exact Hcv]. intros c ->.
    now apply resizeImage_zero_width.
  - now destruct e.
Qed.

Lemma X11_rejected_bound_reaches_the_encoder_witness :
  let B := Samples.browserWith Samples.photo in
  let w1 := fst (ProcessImageHandlers.handleCustomDimensionChange B
                   Uploads.customSelected ProcessImageHandlers.Width 0
                   {| ui := Uploads.customSelected; encodeLog := [] |}) in
  let w2 := fst (ProcessImageHandlers.handleQualityChange B (ui w1) 70 w1) in
  (ProcessImageApp.customWidth (ui w1) = 0%Q /\
   ProcessImageApp.dimensionError (ui w1)
     = Some "Width and height must be at least 1 pixel"%string /\
   encodeLog w1 = []) /\
  (exists calls,
     calls <> [] /\ encodeLog w2 = (calls ++ [])%list /\
     Forall (fun c => canvas_width (call_canvas c) = 0 /\
                      canvas_height (call_canvas c) = 0) calls) /\
  ProcessImageApp.dimensionError (ui w2)
    = Some "Width and height must be at least 1 pixel"%string.
Proof.
  apply (X11_rejected_bound_reaches_the_encoder
           (Samples.browserWith Samples.photo) Uploads.customSelected 70 []
           (Samples.dataOf Samples.jpegFile Samples.photo) Samples.photo).
  - reflexivity.
  - reflexivity.
  - reflexivity.
  - reflexivity.
  - reflexivity.
  - vm_compute. discriminate.
Defined.

(** * Further properties of the [recompressImage] revision *)

Section EncodedSize.
Import RecompressApp.
Import RecompressHandlers.
Local Open Scope Q_scope.

Lemma ToUnsignedLong_whole (x : Q) :
  whole x -> 0 <= x -> x < inject_Z (2 ^ 32) ->
  inject_Z (ToUnsignedLong x) == x.
Proof.
  intros [n Hn] Hx Hlt. rewrite ToUnsignedLong_floor by assumption.
  rewrite Hn at 1. rewrite Qfloor_Z. now symmetry.
Qed.

(** Validated or absent custom dimensions make a request one of those
    [compressImage] resolves by fitting, unless it is the banner. *)
Lemma validated_fitsWithin (p : Preset) (d : option Size) :
  validated d -> p = linkedin \/ exists W H, fitsWithin p d W H.
Proof.
  intros Hv. destruct p; [right | right | now left | right].
  - exists 2000, 2000. constructor.
  - exists 3000, 3000. constructor.
  - destruct d as [[W H] |].
    + exists W, H. now constructor.
    + exists 1920, 1080. constructor.
Qed.

Lemma fitsWithin_max p d W H : fitsWithin p d W H -> W <= 8000 /\ H <= 8000.
Proof.
  destruct 1 as [d | d | W H Hv |]; try (split; discriminate).
  apply validateDimensions_accepts in Hv. apply Hv.
Qed.

(** The size [compressImage] resolves is a pair of whole numbers between
    0 and 8000. *)
Lemma resolveSize_encodable (img : HTMLImageElement) (p : Preset)
    (d : option Size) :
  (0 < img_width img)%Z -> (0 < img_height img)%Z -> validated d ->
  (whole (width (resolveSize img p d)) /\
   0 <= width (resolveSize img p d) <= 8000) /\
  (whole (height (resolveSize img p d)) /\
   0 <= height (resolveSize img p d) <= 8000).
Proof.
  intros Hw Hh Hv. destruct (validated_fitsWithin p d Hv) as [-> | (W & H & Hf)].
  - cbn. split; (split; [eexists; reflexivity | split; discriminate]).
  - destruct (resolveSize_within img p d W H Hw Hh Hf) as [Iw Ih].
    revert Iw Ih. rewrite (resolveSize_fit img p d W H Hf). cbv zeta.
    cbn [width height]. intros Iw Ih.
    destruct (fitsWithin_bounds p d W H Hf) as ((Wz & Hz & HW & HH) & LW & LH).
    destruct (fitsWithin_max p d W H Hf) as [UW UH].
    destruct (scaleDown_whole img W H Wz Hz HW HH) as [Ww Wh].
    destruct (scaleDown_nonneg img Hw Hh W H) as [Nw Nh]; [lra | lra |].
    repeat split; try assumption; lra.
Qed.

(** Under a condition that lets [recompressImage] reach [compressImage],
    it makes one [toBlob] call, at the quality of the render it was
    created in, and leaves the stored quality alone. *)
Lemma recompressImage_encodes_once B (s : State) (w : World State)
    original img :
  originalImage s = Some original ->
  decodeFile B (id_file original) = Some img ->
  (selectedPreset s = custom ->
   validateDimensions (customWidth s) (customHeight s) = None) ->
  encodeLog (fst (recompressImage B s w)) =
    {| call_canvas :=
         canvasOf img (resolveSize img (selectedPreset s) (passedDimensions s));
       call_type := image_jpeg;
       call_quality := inject_Z (quality s) / 100 |} :: encodeLog w /\
  quality (ui (fst (recompressImage B s w))) = quality (ui w).
Proof.
  intros Ho Hl Hv.
  unfold recompressImage, recompressImage_start, recompressImage_resume,
    passedDimensions in *.
  rewrite Ho. unfold Async.try_catch, Async.bind, loadImage. rewrite Hl.
  destruct (Preset_eqb (selectedPreset s) custom) eqn:Ep.
  - rewrite Hv by (now destruct (selectedPreset s)).
    cbn -[compressImage]. rewrite compressImage_run.
    now destruct (codec B _ image_jpeg _).
  - cbn -[compressImage]. rewrite compressImage_run.
    now destruct (codec B _ image_jpeg _).
Qed.
End EncodedSize.

(** X12. [compressImage] of the [recompressImage] revision makes exactly
    one [toBlob] call, for a JPEG at the quality it is given, whatever
    the size of the blob that comes back; and the width and height it
    reports are the sides of the bitmap it encoded, since the size it
    resolves is a pair of whole numbers. *)
Theorem X12_compressImage_reports_the_encoded_size (B : Browser)
    (img : HTMLImageElement) (p : Preset) (q : Z) (d : option Size)
    (w : World RecompressApp.State) :
  0 < img_width img -> 0 < img_height img ->
  RecompressHandlers.validated d ->
  exists call,
    encodeLog (fst (RecompressApp.compressImage B img p q d w))
      = call :: encodeLog w /\
    call_type call = image_jpeg /\
    call_quality call = (inject_Z q / 100)%Q /\
    match snd (RecompressApp.compressImage B img p q d w) with
    | Fulfilled c =>
        (ci_width c == inject_Z (canvas_width (call_canvas call)))%Q /\
        (ci_height c == inject_Z (canvas_height (call_canvas call)))%Q
    | Rejected _ => handed B call = None
    | Pending => False
    end.
Proof.
  intros Hw Hh Hv. rewrite compressImage_run. cbn [fst snd logged encodeLog app].
  eexists. split; [reflexivity |]. split; [reflexivity |].
  split; [reflexivity |]. unfold handed. cbn [call_canvas call_type call_quality].
  destruct (codec B _ image_jpeg _) eqn:Ec; [| reflexivity].
  cbn [ci_width ci_height canvasOf canvas_width canvas_height].
  destruct (resolveSize_encodable img p d Hw Hh Hv)
    as [(Ww & Lw & Uw) (Wh & Lh & Uh)].
  assert (T : (8000 < inject_Z (2 ^ 32))%Q) by reflexivity.
  split; symmetry; apply ToUnsignedLong_whole; try assumption.
  - eapply Qle_lt_trans; eassumption.
  - eapply Qle_lt_trans; eassumption.
Qed.

Lemma X12_compressImage_reports_the_encoded_size_witness :
  exists call,
    encodeLog (fst (RecompressApp.compressImage
                      (Samples.browserWith Samples.scan) Samples.scan etsy 80
                      None (Samples.fresh Uploads.recompressing)))
      = call :: encodeLog (Samples.fresh Uploads.recompressing) /\
    call_type call = image_jpeg /\
    call_quality call = (inject_Z 80 / 100)%Q /\
    match snd (RecompressApp.compressImage
                 (Samples.browserWith Samples.scan) Samples.scan etsy 80
                 None (Samples.fresh Uploads.recompressing)) with
    | Fulfilled c =>
        (ci_width c == inject_Z (canvas_width (call_canvas call)))%Q /\
        (ci_height c == inject_Z (canvas_height (call_canvas call)))%Q
    | Rejected _ => handed (Samples.browserWith Samples.scan) call = None
    | Pending => False
    end.
Proof.
  apply (X12_compressImage_reports_the_encoded_size
           (Samples.browserWith Samples.scan) Samples.scan etsy 80 None
           (Samples.fresh Uploads.recompressing)).
  - reflexivity.
  - reflexivity.
  - exact I.
Defined.

(** X13. [handleQualityChange] of the [recompressImage] revision stores
    the new quality and then awaits the [recompressImage] of its own
    render, which reads the quality of that render: the one [toBlob]
    call is made at the quality the slider had before the change, and
    the new value plays no part in what is encoded. *)
Theorem X13_quality_change_encodes_at_the_previous_quality (B : Browser)
    (s : RecompressApp.State) (newQuality : Z)
    (w : World RecompressApp.State)
    (original : ImageData) (img : HTMLImageElement) :
  RecompressApp.originalImage s = Some original ->
  decodeFile B (id_file original) = Some img ->
  (RecompressApp.selectedPreset s = custom ->
   RecompressApp.validateDimensions (RecompressApp.customWidth s)
     (RecompressApp.customHeight s) = None) ->
  let w' := fst (RecompressHandlers.handleQualityChange B s newQuality w) in
  RecompressApp.quality (ui w') = newQuality /\
  exists call,
    encodeLog w' = call :: encodeLog w /\
    call_quality call = (inject_Z (RecompressApp.quality s) / 100)%Q.
Proof.
  intros Ho Hl Hv w'. subst w'.
  unfold RecompressHandlers.handleQualityChange, Async.bind, set_ui,
    Async.modify.
  rewrite Ho.
  match goal with
  | |- context [RecompressApp.recompressImage B s ?w0] =>
      destruct (recompressImage_encodes_once B s w0 original img Ho Hl Hv)
        as [Hlog Hq]
  end.
  rewrite Hq, Hlog. cbn [ui encodeLog RecompressApp.quality
                         RecompressHandlers.setQuality].
  split; [reflexivity |]. eexists. split; reflexivity.
Qed.

(** The slider moved from 80 to 60: the state says 60, the one call was
    made at 80. *)
Lemma X13_quality_change_encodes_at_the_previous_quality_witness :
  let w' := fst (RecompressHandlers.handleQualityChange
                   (Samples.browserWith Samples.photo)
                   Uploads.recompressing 60
                   (Samples.fresh Uploads.recompressing)) in
  RecompressApp.quality Uploads.recompressing = 80 /\
  (RecompressApp.quality (ui w') = 60 /\
   exists call,
     encodeLog w' = call :: encodeLog (Samples.fresh Uploads.recompressing) /\
     call_quality call
       = (inject_Z (RecompressApp.quality Uploads.recompressing) / 100)%Q).
Proof.
  split; [reflexivity |].
  apply (X13_quality_change_encodes_at_the_previous_quality
           (Samples.browserWith Samples.photo) Uploads.recompressing 60
           (Samples.fresh Uploads.recompressing)
           (Samples.dataOf Samples.jpegFile Samples.photo) Samples.photo).
  - reflexivity.
  - reflexivity.
  - discriminate.
Defined.

(** X14. [handlePresetChange] of the [recompressImage] revision
    overwrites the two custom fields with the bounds of the preset
    chosen (1920 by 1080 for the custom preset itself), whatever had
    been typed into them, clears both messages and cancels the pending
    timeout; the fields it leaves always validate, so the effect that
    runs next calls [recompressImage] unless a call is in progress. *)
Theorem X14_preset_change_resets_the_custom_fields (B : Browser)
    (preset : Preset) (p : RecompressApp.Page) :
  let p' := RecompressHandlers.handlePresetChange preset p in
  let s' := ui (Scheduling.world (RecompressApp.calls p')) in
  (RecompressApp.selectedPreset s' = preset /\
   RecompressApp.customWidth s' = maxWidth (RecompressApp.PRESETS preset) /\
   RecompressApp.customHeight s' = maxHeight (RecompressApp.PRESETS preset)) /\
  (RecompressApp.validateDimensions (RecompressApp.customWidth s')
     (RecompressApp.customHeight s') = None /\
   RecompressApp.dimensionError s' = None /\ RecompressApp.error s' = None) /\
  RecompressApp.dispatch B p' RecompressApp.TimeoutFires = p' /\
  RecompressApp.recompressEffect s' (RecompressApp.calls p') =
    if RecompressApp.isProcessing s' then RecompressApp.calls p'
    else RecompressApp.callRecompressImage s' (RecompressApp.calls p').
Proof.
  intros p' s'. subst s' p'.
  unfold RecompressHandlers.handlePresetChange,
    RecompressHandlers.presetChanged.
  cbn [RecompressApp.calls Scheduling.world ui RecompressApp.dispatch
       RecompressApp.timeout].
  unfold RecompressApp.recompressEffect, RecompressApp.callRecompressImage.
  destruct preset; cbn;
    (split; [now repeat split |]); (split; [now repeat split |]);
    (split; [reflexivity |]);
    destruct (RecompressApp.originalImage _);
    destruct (RecompressApp.isProcessing _); reflexivity.
Qed.

(** * Calls in flight in the [recompressImage] revision *)

Section TimerFree.
Import RecompressApp.
Import RecompressHandlers.

Variable B : Browser.

Lemma editState_isProcessing (s : State) dimension numValue (now : State) :
  isProcessing (editState s dimension numValue now) = isProcessing now.
Proof.
  unfold editState. now destruct dimension, (dimensionError s).
Qed.

(** A call made while nothing is processing keeps the calls serialised. *)
Lemma serialised_callRecompressImage (s : State) (p : Page) :
  serialised p ->
  isProcessing (ui (Scheduling.world (calls p))) = false ->
  serialised {| calls := callRecompressImage s (calls p);
                timeout := timeout p |}.
Proof.
  intros [Hidle Hlast] Hp. unfold serialised, callRecompressImage.
  cbn [calls]. destruct (originalImage s) as [original |]; [| now split].
  split; cbn.
  - discriminate.
  - intros n Hn. rewrite length_app in Hn. cbn in Hn.
    rewrite Nat.add_1_r in Hn.
    apply Hidle; [exact Hp | apply Nat.succ_lt_mono; exact Hn].
Qed.

Lemma serialised_dispatch_edit (p : Page) (e : Event) :
  isTimeout e = false -> serialised p -> serialised (dispatch B p e).
Proof.
  intros He Hs. destruct e as [dimension numValue | | n];
    [| discriminate |]; cbn [dispatch].
  - destruct (isProcessing (ui (Scheduling.world (calls p)))) eqn:Ep;
      [exact Hs |].
    set (s := ui (Scheduling.world (calls p))) in *.
    set (s' := editState s dimension numValue s).
    set (sc := {| Scheduling.world :=
                    {| ui := s';
                       encodeLog := encodeLog (Scheduling.world (calls p)) |};
                  Scheduling.issued := Scheduling.issued (calls p);
                  Scheduling.settled := Scheduling.settled (calls p) |}).
    set (t := match originalImage s with
              | Some _ =>
                  if Preset_eqb (selectedPreset s) custom && (0 <? numValue)
                  then Some s else None
              | None => None
              end).
    assert (Ep' : isProcessing s' = false).
    { subst s'. now rewrite editState_isProcessing. }
    assert (Hsc : serialised {| calls := sc; timeout := t |}).
    { destruct Hs as [Hidle Hlast]. split; cbn; [| exact Hlast].
      intros _. now apply Hidle. }
    assert (Hcall : serialised {| calls := callRecompressImage s' sc;
                                  timeout := t |}).
    { apply (serialised_callRecompressImage s' {| calls := sc; timeout := t |});
        [exact Hsc | exact Ep']. }
    destruct (sameDimensions s s'); [exact Hsc |].
    unfold recompressEffect. destruct (originalImage s'); [| exact Hsc].
    rewrite Ep'. destruct (Preset_eqb (selectedPreset s') custom);
      [| exact Hcall].
    destruct (validateDimensions (customWidth s') (customHeight s'));
      [| exact Hcall].
    destruct Hsc as [Hidle Hlast]. split; cbn; [| exact Hlast].
    intros _. now apply Hidle.
  - destruct Hs as [Hidle Hlast].
    unfold serialised, comesBack, Scheduling.settle. cbn [calls].
    destruct (nth_error (Scheduling.issued (calls p)) n) as [c |] eqn:En;
      [| now split].
    destruct (existsb (Nat.eqb n) (Scheduling.settled (calls p))) eqn:Es;
      [now split |].
    apply existsb_eqb_false in Es.
    assert (Hn : (n < List.length (Scheduling.issued (calls p)))%nat).
    { apply nth_error_Some. congruence. }
    assert (Hl : S n = List.length (Scheduling.issued (calls p))).
    { destruct (Nat.eq_dec (S n) (List.length (Scheduling.issued (calls p))))
        as [E | E]; [exact E |].
      exfalso. apply Es, Hlast. lia. }
    split; cbn [Scheduling.issued Scheduling.settled].
    + intros _ m Hm.
      destruct (Nat.eq_dec m n) as [-> | E]; [now left |].
      right. apply Hlast. lia.
    + intros m Hm. right. now apply Hlast.
Qed.
End TimerFree.

(** X15. In the [recompressImage] revision, in every run made of edits
    of the dimension fields and of completions of calls in which no
    timeout fires, a call of [recompressImage] is issued only once all
    earlier calls have come back: the fields are disabled and the
    effect returns early while a call is in progress. The runs hold no
    other event: a reset, an upload and a change of preset or quality
    are outside them. *)
Theorem X15_edits_without_timeout_do_not_overlap (B : Browser)
    (es : list RecompressApp.Event) (p : RecompressApp.Page) :
  existsb RecompressHandlers.isTimeout es = false ->
  RecompressHandlers.serialised p ->
  RecompressHandlers.serialised (RecompressApp.run B p es).
Proof.
  revert p. induction es as [| e es IH]; intros p He Hs; [exact Hs |].
  cbn [existsb] in He. apply orb_false_iff in He as [He Hes].
  unfold RecompressApp.run. cbn [fold_left]. apply IH; [exact Hes |].
  now apply serialised_dispatch_edit.
Qed.

Lemma X15_edits_without_timeout_do_not_overlap_witness :
  RecompressHandlers.serialised
    (RecompressApp.run (Samples.browserWith Samples.photo)
       (RecompressApp.idle (Samples.customising Samples.photo 1920 1080))
       [RecompressApp.CustomDimensionChange RecompressApp.Width 500;
        RecompressApp.CustomDimensionChange RecompressApp.Height 300;
        RecompressApp.Settle 0;
        RecompressApp.CustomDimensionChange RecompressApp.Height 300]).
Proof.
  apply (X15_edits_without_timeout_do_not_overlap
           (Samples.browserWith Samples.photo)).
  - reflexivity.
  - split; simpl; intros; lia.
Defined.

(** * Selecting a file ([recompressImage] revision) *)

Section HandleFile.
Import RecompressApp.
Import RecompressHandlers.
Local Open Scope Q_scope.

Lemma validateFile_max toFixed1 (file : File) :
  validateFile toFixed1 file = None -> (file_size file <= 10 * 1024 * 1024)%Z.
Proof.
  unfold validateFile, MAX_FILE_SIZE. destruct (negb _); [discriminate |].
  destruct (_ <? _)%Z eqn:E; [discriminate |]. intros _.
  now apply Z.ltb_ge in E.
Qed.

Lemma within_MAX_DIMENSIONS (n : Z) :
  Qltb MAX_DIMENSIONS (inject_Z n) = false -> (n <= 8000)%Z.
Proof.
  intros E. apply Qltb_false in E. unfold MAX_DIMENSIONS in E.
  change 8000 with (inject_Z 8000) in E. now rewrite <- Zle_Qle in E.
Qed.
End HandleFile.

(** X16. [handleFile] of the [recompressImage] revision blanks the
    result on display before it looks at the file, and always settles
    without a rejection. It either refuses the file (wrong type, over
    10 MB, not decodable, or over 8000 on a side), leaving the image
    held and the encoder alone and showing a message; or it stores an
    image within those limits and ends with the spinner off, having
    either stopped at custom bounds that do not validate, with a
    dimension error and no [toBlob] call, or made exactly one [toBlob]
    call at the quality of its render, after which a result or an error
    is on display. *)
Theorem X16_handleFile_refuses_or_encodes_once (B : Browser)
    (fileObjectURL : File -> string) (toFixed1 : Q -> string)
    (numeral : Z -> string) (s : RecompressApp.State) (file : File)
    (w : World RecompressApp.State) :
  let w' := fst (RecompressHandlers.handleFile B fileObjectURL toFixed1
                   numeral s file w) in
  snd (RecompressHandlers.handleFile B fileObjectURL toFixed1 numeral s file w)
    = Fulfilled tt /\
  ((RecompressApp.originalImage (ui w') = RecompressApp.originalImage (ui w) /\
    RecompressApp.compressedImage (ui w') = None /\
    encodeLog w' = encodeLog w /\
    RecompressApp.error (ui w') <> None) \/
   ((exists d, RecompressApp.originalImage (ui w') = Some d /\
               id_file d = file /\ id_size d = file_size file /\
               id_size d <= 10 * 1024 * 1024 /\
               id_width d <= 8000 /\ id_height d <= 8000) /\
    RecompressApp.isProcessing (ui w') = false /\
    ((encodeLog w' = encodeLog w /\
      RecompressApp.compressedImage (ui w') = None /\
      RecompressApp.dimensionError (ui w') <> None) \/
     (exists call,
        encodeLog w' = call :: encodeLog w /\
        call_quality call = (inject_Z (RecompressApp.quality s) / 100)%Q /\
        (RecompressApp.compressedImage (ui w') = None ->
         RecompressApp.error (ui w') <> None))))).
Proof.
  intros w'. subst w'.
  destruct (RecompressHandlers.handleFile B fileObjectURL toFixed1 numeral
              s file w) as [w' p] eqn:E.
  cbn [fst snd]. revert E.
  unfold RecompressHandlers.handleFile.
  unfold Async.bind at 1 2 3. unfold set_ui at 1 2 3. unfold Async.modify.
  cbn [ui encodeLog].
  destruct (RecompressHandlers.validateFile toFixed1 file) as [msg |] eqn:Hv.
  { cbn. intros [= <- <-]. split; [reflexivity |]. left.
    repeat split; try reflexivity; discriminate. }
  pose proof (validateFile_max toFixed1 file Hv) as Hsize.
  unfold Async.try_catch, Async.bind at 1, RecompressApp.loadImage.
  destruct (decodeFile B file) as [img |] eqn:Hl.
  2:{ cbn. intros [= <- <-]. split; [reflexivity |]. left.
      repeat split; try reflexivity; discriminate. }
  unfold Async.ret at 1. cbv beta.
  destruct (Qltb RecompressApp.MAX_DIMENSIONS (inject_Z (img_width img)))
    eqn:Ew; cbn [orb].
  { cbn -[append]. intros [= <- <-]. split; [reflexivity |]. left.
    repeat split; try reflexivity; discriminate. }
  destruct (Qltb RecompressApp.MAX_DIMENSIONS (inject_Z (img_height img)))
    eqn:Eh.
  { cbn -[append]. intros [= <- <-]. split; [reflexivity |]. left.
    repeat split; try reflexivity; discriminate. }
  apply within_MAX_DIMENSIONS in Ew, Eh.
  assert (Hd : forall x : RecompressApp.State,
             exists d,
               RecompressApp.originalImage
                 (RecompressApp.setOriginalImage
                    (Some {| id_file := file;
                             id_dataUrl := fileObjectURL file;
                             id_width := img_width img;
                             id_height := img_height img;
                             id_size := file_size file |}) x) = Some d /\
               id_file d = file /\ id_size d = file_size file /\
               id_size d <= 10 * 1024 * 1024 /\
               id_width d <= 8000 /\ id_height d <= 8000).
  { intros x. eexists. split; [reflexivity |]. now cbn. }
  unfold Async.bind, set_ui, Async.modify. cbn [ui encodeLog].
  destruct (Preset_eqb (RecompressApp.selectedPreset s) custom).
  - destruct (RecompressApp.validateDimensions (RecompressApp.customWidth s)
                (RecompressApp.customHeight s)) as [msg |].
    + cbn. intros [= <- <-]. split; [reflexivity |]. right.
      split; [apply Hd |].
      split; [reflexivity |]. left.
      repeat split; try reflexivity; discriminate.
    + unfold Async.ret at 1. rewrite compressImage_run.
      destruct (codec B _ image_jpeg _); cbn; intros [= <- <-].
      * split; [reflexivity |]. right.
        split; [apply Hd |].
        split; [reflexivity |]. right. eexists. split; [reflexivity |].
        split; [reflexivity | discriminate].
      * split; [reflexivity |]. right.
        split; [apply Hd |].
        split; [reflexivity |]. right. eexists. split; [reflexivity |].
        split; [reflexivity | discriminate].
  - unfold Async.ret at 1. rewrite compressImage_run.
    destruct (codec B _ image_jpeg _); cbn; intros [= <- <-].
    + split; [reflexivity |]. right.
      split; [apply Hd |].
      split; [reflexivity |]. right. eexists. split; [reflexivity |].
      split; [reflexivity | discriminate].
    + split; [reflexivity |]. right.
      split; [apply Hd |].
      split; [reflexivity |]. right. eexists. split; [reflexivity |].
      split; [reflexivity | discriminate].
Qed.

(** * The size [src/App.tsx] resolves *)

Section UnroundedFit.
Import SingleEncodeApp.
Local Open Scope Q_scope.

(** The two caps of [compressImage] in [src/App.tsx], on a source of [w]
    by [h] within whole bounds [W] by [H], all below 2^53. *)
Lemma cap_twice (w h W H : Z) :
  (0 < w < 2 ^ 53)%Z -> (0 < h < 2 ^ 53)%Z ->
  (0 <= W < 2 ^ 53)%Z -> (0 <= H < 2 ^ 53)%Z ->
  let aspectRatio := Number_div (inject_Z w) (inject_Z h) in
  let first :=
    if Qltb (inject_Z W) (inject_Z w)
    then (inject_Z W, Number_div (inject_Z W) aspectRatio)
    else (inject_Z w, inject_Z h) in
  let out :=
    if Qltb (inject_Z H) (snd first)
    then (Number_mul (inject_Z H) aspectRatio, inject_Z H)
    else first in
  (fst out <= inject_Z W /\ snd out <= inject_Z H) /\
  (fst out <= inject_Z w /\ snd out <= inject_Z h) /\
  (inject_Z w <= inject_Z W -> inject_Z h <= inject_Z H ->
   out = (inject_Z w, inject_Z h)).
Proof.
  intros [Pw Bw] [Ph Bh] [PW BW] [PH BH]. cbv zeta.
  set (a := Number_div (inject_Z w) (inject_Z h)).
  assert (Pw' : 0 < inject_Z w) by (rewrite <- (Zlt_Qlt 0); exact Pw).
  assert (Ph' : 0 < inject_Z h) by (rewrite <- (Zlt_Qlt 0); exact Ph).
  assert (PW' : 0 <= inject_Z W) by (rewrite <- (Zle_Qle 0); exact PW).
  assert (PH' : 0 <= inject_Z H) by (rewrite <- (Zle_Qle 0); exact PH).
  assert (Bw' : inject_Z w <= 9007199254740992).
  { change 9007199254740992 with (inject_Z (2 ^ 53)). rewrite <- Zle_Qle. lia. }
  assert (Bh' : inject_Z h <= 9007199254740992).
  { change 9007199254740992 with (inject_Z (2 ^ 53)). rewrite <- Zle_Qle. lia. }
  assert (Ew : binary64 (inject_Z w) == inject_Z w) by (apply binary64_Z; lia).
  assert (Eh : binary64 (inject_Z h) == inject_Z h) by (apply binary64_Z; lia).
  assert (EW : binary64 (inject_Z W) == inject_Z W) by (apply binary64_Z; lia).
  assert (EH : binary64 (inject_Z H) == inject_Z H) by (apply binary64_Z; lia).
  assert (Pa : 0 < a).
  { apply binary64_pos. apply Qlt_shift_div_l; lra. }
  assert (Q0 : 0 <= inject_Z w / inject_Z h) by (apply Qle_shift_div_l; lra).
  destruct (binary64_error _ Q0) as [A1 A2].
  fold (Number_div (inject_Z w) (inject_Z h)) in A1, A2. fold a in A1, A2.
  assert (C : inject_Z w / inject_Z h * inject_Z h == inject_Z w) by (field; lra).
  assert (A1' : inject_Z w * (1 - epsilon) <= a * inject_Z h).
  { unfold epsilon in *. nra. }
  assert (A2' : a * inject_Z h <= inject_Z w * (1 + epsilon)).
  { unfold epsilon in *. nra. }
  set (x := inject_Z w) in *. set (y := inject_Z h) in *.
  set (X := inject_Z W) in *. set (Y := inject_Z H) in *.
  destruct (Qltb X x) eqn:E1; cbn [fst snd].
  - apply Qltb_true in E1.
    assert (E1' : X + 1 <= x).
    { subst X x. change 1 with (inject_Z 1).
      rewrite <- inject_Z_plus, <- Zle_Qle.
      rewrite <- Zlt_Qlt in E1. lia. }
    assert (Hq : Number_div X a <= y).
    { unfold Number_div. rewrite <- Eh. apply binary64_le.
      apply Qle_shift_div_r; [exact Pa |].
      unfold epsilon in A1'. nra. }
    destruct (Qltb Y (Number_div X a)) eqn:E2; cbn [fst snd].
    + apply Qltb_true in E2.
      assert (L : Y * a <= X).
      { apply Qnot_lt_le. intros K.
        assert (D : X / a <= Y) by (apply Qle_shift_div_r; lra).
        apply binary64_le in D. unfold Number_div in E2. lra. }
      apply binary64_le in L. unfold Number_mul.
      repeat split; first [lra | intros; lra].
    + apply Qltb_false in E2. repeat split; first [lra | intros; lra].
  - apply Qltb_false in E1.
    destruct (Qltb Y y) eqn:E2; cbn [fst snd].
    + apply Qltb_true in E2.
      assert (E2' : Y + 1 <= y).
      { subst Y y. change 1 with (inject_Z 1).
        rewrite <- inject_Z_plus, <- Zle_Qle.
        rewrite <- Zlt_Qlt in E2. lia. }
      assert (L : Y * a <= x).
      { assert (T : Y * (a * y) <= Y * (x * (1 + epsilon))).
        { destruct (Qle_lt_or_eq _ _ PH') as [P | P].
          - apply Qmult_le_l; [exact P | exact A2'].
          - rewrite <- P. lra. }
        assert (U : Y * (x * (1 + epsilon)) <= x * y).
        { unfold epsilon. nra. }
        assert (V : Y * a * y <= x * y) by lra.
        apply Qmult_le_r in V; [exact V | exact Ph']. }
      apply binary64_le in L. unfold Number_mul.
      repeat split; first [lra | intros; lra].
    + apply Qltb_false in E2.
      repeat split; first [lra | intros; reflexivity].
Qed.
End UnroundedFit.

(** X17. The size [compressImage] of [src/App.tsx] resolves for an
    image with positive sides below 2^53: the banner preset gives 1584
    by 396 whatever the source; every other preset gives a size within
    the preset's bounds that is no larger than the source on either
    axis, and is the source size when the source already fits. The
    side that is rescaled is a binary64 quotient or product, not
    rounded to a whole number: a source of 1206 by 2400 comes out
    under [etsy] as 1004.9999999999999 by 2000. *)
Theorem X17_single_encode_size_fits_without_upscaling (img : HTMLImageElement)
    (p : Preset) :
  0 < img_width img < 2 ^ 53 -> 0 < img_height img < 2 ^ 53 ->
  let w := inject_Z (img_width img) in
  let h := inject_Z (img_height img) in
  let W := maxWidth (SingleEncodeApp.PRESETS p) in
  let H := maxHeight (SingleEncodeApp.PRESETS p) in
  let out := SingleEncodeApp.resolveSize img p in
  (p = linkedin -> out = {| width := 1584; height := 396 |}) /\
  (p <> linkedin ->
   ((width out <= W)%Q /\ (height out <= H)%Q) /\
   ((width out <= w)%Q /\ (height out <= h)%Q) /\
   ((w <= W)%Q -> (h <= H)%Q -> out = {| width := w; height := h |})) /\
  SingleEncodeApp.resolveSize Samples.portrait etsy
    = {| width := 1005 - (1 # 8796093022208); height := 2000 |}.
Proof.
  intros Hw Hh w h W H out. subst out. split; [| split].
  - intros ->. reflexivity.
  - intros Hp.
    assert (HWH : exists Wz Hz,
               W = inject_Z Wz /\ H = inject_Z Hz /\
               0 <= Wz < 2 ^ 53 /\ 0 <= Hz < 2 ^ 53).
    { subst W H. destruct p; [| | contradiction |]; cbn.
      - exists 2000, 2000. repeat split; (reflexivity || lia).
      - exists 3000, 3000. repeat split; (reflexivity || lia).
      - exists 1920, 1080. repeat split; (reflexivity || lia). }
    destruct HWH as (Wz & Hz & HW & HH & BW & BH).
    pose proof (cap_twice (img_width img) (img_height img) Wz Hz Hw Hh BW BH)
      as C.
    cbv zeta in C. unfold SingleEncodeApp.resolveSize. fold w h W H.
    fold w h in C. rewrite <- HW, <- HH in C.
    assert (El : Preset_eqb p linkedin = false) by now destruct p.
    rewrite El.
    destruct (Qltb W w); cbn [fst snd] in C |- *;
      destruct (Qltb H _); cbn [fst snd width height] in C |- *;
      destruct C as (C1 & C3 & C4);
      (split; [exact C1 |]); (split; [exact C3 |]);
      intros L1 L2;
      exact (f_equal (fun pr => {| width := fst pr; height := snd pr |})
               (C4 L1 L2)).
  - vm_compute. reflexivity.
Qed.

Lemma X17_single_encode_size_fits_without_upscaling_witness :
  let w := inject_Z (img_width Samples.portrait) in
  let h := inject_Z (img_height Samples.portrait) in
  let W := maxWidth (SingleEncodeApp.PRESETS etsy) in
  let H := maxHeight (SingleEncodeApp.PRESETS etsy) in
  let out := SingleEncodeApp.resolveSize Samples.portrait etsy in
  (etsy = linkedin -> out = {| width := 1584; height := 396 |}) /\
  (etsy <> linkedin ->
   ((width out <= W)%Q /\ (height out <= H)%Q) /\
   ((width out <= w)%Q /\ (height out <= h)%Q) /\
   ((w <= W)%Q -> (h <= H)%Q -> out = {| width := w; height := h |})) /\
  SingleEncodeApp.resolveSize Samples.portrait etsy
    = {| width := 1005 - (1 # 8796093022208); height := 2000 |}.
Proof.
  apply (X17_single_encode_size_fits_without_upscaling Samples.portrait etsy).
  - vm_compute. split; reflexivity.
  - vm_compute. split; reflexivity.
Defined.

(** * The figure [ImagePreview] shows *)

Section Ratio.
Local Open Scope Q_scope.


End Ratio.



(** * The quality slider of the [processImage] revision *)

Section SliderCeiling.
Import ProcessImageApp.
Import ProcessImageHandlers.

(** The canvas and quality of [toBlob] calls, whatever their type. *)
Let drawn (c : EncodeCall) : Canvas * Q := (call_canvas c, call_quality c).

(** The calls of [processImage] on an image that loads: on one canvas,
    at the quality asked for and then, under a budget, in steps of five
    below it. *)
Lemma processImage_attempts B (r : Request) (img : HTMLImageElement) :
  decodeUrl B (id_dataUrl (req_imageData r)) = Some img ->
  exists (calls : list EncodeCall) (canvas : Canvas) (n : nat),
    (1 <= n)%nat /\
    map drawn calls = map drawn (attempts canvas (req_qualityValue r) n) /\
    forall w, encodeLog (fst (processImage B r w)) = (calls ++ encodeLog w)%list.
Proof.
  intros El.
  unfold processImage, processImage_start, processImage_resume.
  unfold Async.finally, Async.try_catch, Async.bind, loadDataUrl, set_ui,
    Async.modify.
  rewrite El. cbv beta iota delta [Async.ret].
  destruct (resizeImage img (maxWidth (requestSettings r))
              (maxHeight (requestSettings r)) (exactResize (requestSettings r)))
    as [canvas dimensions].
  destruct (is_Infinity (targetSize (requestSettings r))) eqn:Ei.
  - exists [{| call_canvas := canvas;
                call_type := outputType (req_imageData r);
                call_quality := (inject_Z (req_qualityValue r) / 100)%Q |}],
      canvas, 1%nat.
    split; [lia |]. split.
    + rewrite attempts_one. unfold drawn, jpegCall. cbn. reflexivity.
    + intros w. rewrite toBlob_logged.
      now destruct (codec B canvas _ _).
  - unfold compressToTargetSize.
    destruct (compressToTargetSize_loop_descent B canvas
                (targetSize (requestSettings r)) (req_qualityValue r))
      as (calls & p & Hd & Hrun).
    destruct (descent_attempts _ _ _ _ _ _ Hd) as (n & -> & Hn & _).
    pose proof (descent_end _ _ _ _ _ _ Hd) as Hend.
    exists (attempts canvas (req_qualityValue r) n), canvas, n.
    split; [exact Hn |]. split; [reflexivity |].
    intros w. rewrite Hrun.
    destruct p as [res | e |]; [| | contradiction]; reflexivity.
Qed.
End SliderCeiling.

(** X19. [handleQualityChange] of the [processImage] revision passes
    the new value on: it is stored, and the request it starts encodes
    first at that quality and then, under a budgeted preset, at
    qualities five points apart below it, all on one canvas. The
    slider sets the ceiling of the quality used, never less than what
    is tried first. *)
Theorem X19_slider_value_is_the_first_quality_tried (B : Browser)
    (s : ProcessImageApp.State) (newQuality : Z)
    (w : World ProcessImageApp.State)
    (d : ImageData) (img : HTMLImageElement) :
  ProcessImageApp.originalImage s = Some d ->
  decodeUrl B (id_dataUrl d) = Some img ->
  let w' := fst (ProcessImageHandlers.handleQualityChange B s newQuality w) in
  ProcessImageApp.quality (ui w') = newQuality /\
  exists (calls : list EncodeCall) (canvas : Canvas) (n : nat),
    (1 <= n)%nat /\
    encodeLog w' = (calls ++ encodeLog w)%list /\
    map (fun c => (call_canvas c, call_quality c)) calls =
    map (fun c => (call_canvas c, call_quality c))
      (ProcessImageHandlers.attempts canvas newQuality n).
Proof.
  intros Ho Hd w'. subst w'.
  unfold ProcessImageHandlers.handleQualityChange,
    ProcessImageHandlers.processImageCall, unawaited, Async.bind, set_ui,
    Async.modify.
  rewrite Ho. cbn [fst snd].
  match goal with
  | |- context [ProcessImageApp.processImage B ?r ?w0] =>
      destruct (processImage_attempts B r img Hd)
        as (calls & canvas & n & Hn & Hq & Hlog);
      destruct (processImage_loaded B r img Hd) as (e & calls' & Hrun & _)
  end.
  split.
  - rewrite Hrun. cbn [fst ui]. now destruct e.
  - exists calls, canvas, n. split; [exact Hn |].
    split; [now rewrite Hlog | exact Hq].
Qed.

Lemma X19_slider_value_is_the_first_quality_tried_witness :
  let w' := fst (ProcessImageHandlers.handleQualityChange
                   (Samples.browserWith Samples.photo) Samples.loaded 70
                   (Samples.fresh Samples.loaded)) in
  ProcessImageApp.quality (ui w') = 70 /\
  exists (calls : list EncodeCall) (canvas : Canvas) (n : nat),
    (1 <= n)%nat /\
    encodeLog w' = (calls ++ encodeLog (Samples.fresh Samples.loaded))%list /\
    map (fun c => (call_canvas c, call_quality c)) calls =
    map (fun c => (call_canvas c, call_quality c))
      (ProcessImageHandlers.attempts canvas 70 n).
Proof.
  apply (X19_slider_value_is_the_first_quality_tried
           (Samples.browserWith Samples.photo) Samples.loaded 70
           (Samples.fresh Samples.loaded)
           (Samples.dataOf Samples.jpegFile Samples.photo) Samples.photo).
  - reflexivity.
  - reflexivity.
Defined.

(** * Downloading ([recompressImage] revision) *)

(** X20. What [downloadImage] offers after a call of [recompressImage]
    that ended without an error: the blob that call published, which is
    a JPEG whatever the source was, under the name of the source file
    with [compressed_] in front, extension included. *)
Theorem X20_download_is_a_jpeg_under_the_source_name (B : Browser)
    (s : RecompressApp.State) (w : World RecompressApp.State)
    (original : ImageData) :
  RecompressApp.originalImage s = Some original ->
  RecompressApp.originalImage (ui w) = Some original ->
  let w' := fst (RecompressApp.recompressImage B s w) in
  RecompressApp.error (ui w') = None ->
  RecompressApp.dimensionError (ui w') = None ->
  exists c,
    RecompressApp.compressedImage (ui w') = Some c /\
    blob_type (ci_blob c) = image_jpeg /\
    RecompressHandlers.downloadImage B (ui w') =
    Some {| href := createObjectURL B (ci_blob c);
            download := ("compressed_" ++ file_name (id_file original))%string |}.
Proof.
  intros Ho Hw w'. subst w'.
  unfold RecompressApp.recompressImage, RecompressApp.recompressImage_start,
    RecompressApp.recompressImage_resume.
  rewrite Ho. unfold Async.try_catch, Async.bind, RecompressApp.loadImage.
  destruct (decodeFile B (id_file original)) as [img |];
    [| cbn; discriminate].
  destruct (Preset_eqb (RecompressApp.selectedPreset s) custom).
  - destruct (RecompressApp.validateDimensions (RecompressApp.customWidth s)
                (RecompressApp.customHeight s)) as [msg |].
    + cbn. discriminate.
    + cbn -[RecompressApp.compressImage]. rewrite compressImage_run.
      destruct (codec B _ image_jpeg _); cbn; [| discriminate].
      intros _ _. eexists. split; [reflexivity |]. split; [reflexivity |].
      unfold RecompressHandlers.downloadImage. cbn. now rewrite Hw.
  - cbn -[RecompressApp.compressImage]. rewrite compressImage_run.
    destruct (codec B _ image_jpeg _); cbn; [| discriminate].
    intros _ _. eexists. split; [reflexivity |]. split; [reflexivity |].
    unfold RecompressHandlers.downloadImage. cbn. now rewrite Hw.
Qed.

(** A PNG upload: the download is a JPEG called [compressed_photo.png]. *)
Lemma X20_download_is_a_jpeg_under_the_source_name_witness :
  let B := Samples.browserWith Samples.photo in
  let original := Samples.dataOf Samples.pngFile Samples.photo in
  let s := RecompressApp.setOriginalImage (Some original)
             RecompressApp.initialState in
  let w' := fst (RecompressApp.recompressImage B s (Samples.fresh s)) in
  file_name (id_file original) = "photo.png"%string /\
  exists c,
    RecompressApp.compressedImage (ui w') = Some c /\
    blob_type (ci_blob c) = image_jpeg /\
    RecompressHandlers.downloadImage B (ui w') =
    Some {| href := createObjectURL B (ci_blob c);
            download := ("compressed_" ++ file_name (id_file original))%string |}.
Proof.
  split; [reflexivity |].
  apply (X20_download_is_a_jpeg_under_the_source_name
           (Samples.browserWith Samples.photo)
           (RecompressApp.setOriginalImage
              (Some (Samples.dataOf Samples.pngFile Samples.photo))
              RecompressApp.initialState)
           (Samples.fresh
              (RecompressApp.setOriginalImage
                 (Some (Samples.dataOf Samples.pngFile Samples.photo))
                 RecompressApp.initialState))
           (Samples.dataOf Samples.pngFile Samples.photo)).
  - reflexivity.
  - reflexivity.
  - reflexivity.
  - reflexivity.
Defined.

(** * Overlapping quality changes in [src/App.tsx] *)

Section Ungated.
Import SingleEncodeApp.
Import SingleEncodeHandlers.

Variable B : Browser.

(** The resumed part of a call whose image loads and whose blob is not
    [null] publishes the image encoded at the quality of the call. *)
Lemma handleQualityChange_resume_publishes (s : State) (q : Z)
    original img data (w : World State) :
  originalImage s = Some original ->
  decodeFile B (id_file original) = Some img ->
  codec B (canvasOf img (resolveSize img (selectedPreset s))) image_jpeg
    (inject_Z q / 100) = Some data ->
  handleQualityChange_resume B (s, q) w =
  ({| ui := setIsProcessing false
              (setCompressedImage
                 (Some (encoded B img (selectedPreset s) q data)) (ui w));
      encodeLog :=
        {| call_canvas := canvasOf img (resolveSize img (selectedPreset s));
           call_type := image_jpeg;
           call_quality := (inject_Z q / 100)%Q |} :: encodeLog w |},
   Fulfilled tt).
Proof.
  intros Ho Hl Hc. unfold handleQualityChange_resume. cbn [fst snd].
  rewrite Ho. unfold Async.try_catch, Async.bind, loadImage.
  rewrite Hl. unfold Async.ret at 1. cbv beta iota.
  unfold compressImage, Async.bind. rewrite toBlob_logged, Hc. reflexivity.
Qed.

(** No resumed part writes the quality. *)
Lemma handleQualityChange_resume_quality (c : Call) (w : World State) :
  quality (ui (fst (handleQualityChange_resume B c w))) = quality (ui w).
Proof.
  unfold handleQualityChange_resume.
  destruct (originalImage (fst c)) as [original |]; [| reflexivity].
  unfold Async.try_catch, Async.bind, loadImage.
  destruct (decodeFile B (id_file original)) as [img |]; [| reflexivity].
  unfold Async.ret at 1. cbv beta iota.
  unfold compressImage, Async.bind. rewrite toBlob_logged.
  now destruct (codec B _ image_jpeg _).
Qed.
End Ungated.

(** X21. In [src/App.tsx] the slider is never disabled, so a second
    quality change can be issued while the first is in flight, and
    nothing discards a result: when the second call comes back before
    the first, the image left on display is the one encoded at the
    first, superseded quality, while the state holds the second. *)
Theorem X21_ungated_slider_shows_the_call_that_settles_last (B : Browser)
    (w : World SingleEncodeApp.State) (q1 q2 : Z)
    (original : ImageData) (img : HTMLImageElement) (data : list byte) :
  SingleEncodeApp.originalImage (ui w) = Some original ->
  decodeFile B (id_file original) = Some img ->
  codec B (canvasOf img
             (SingleEncodeApp.resolveSize img
                (SingleEncodeApp.selectedPreset (ui w))))
    image_jpeg (inject_Z q1 / 100)%Q = Some data ->
  let sc := SingleEncodeHandlers.run B (Scheduling.idle w)
              [SingleEncodeHandlers.QualityChange q1;
               SingleEncodeHandlers.QualityChange q2;
               SingleEncodeHandlers.Settle 1;
               SingleEncodeHandlers.Settle 0] in
  List.length (Scheduling.issued sc) = 2%nat /\
  SingleEncodeHandlers.current sc =
    Some (SingleEncodeHandlers.encoded B img
            (SingleEncodeApp.selectedPreset (ui w)) q1 data) /\
  SingleEncodeApp.quality (ui (Scheduling.world sc)) = q2.
Proof.
  intros Ho Hl Hc sc. subst sc.
  unfold SingleEncodeHandlers.run. cbn [fold_left].
  set (sc1 := SingleEncodeHandlers.dispatch B (Scheduling.idle w)
                (SingleEncodeHandlers.QualityChange q1)).
  set (sc2 := SingleEncodeHandlers.dispatch B sc1
                (SingleEncodeHandlers.QualityChange q2)).
  set (sc3 := SingleEncodeHandlers.dispatch B sc2
                (SingleEncodeHandlers.Settle 1)).
  assert (I2 : Scheduling.issued sc2 =
               [(ui w, q1); (ui (Scheduling.world sc1), q2)]) by reflexivity.
  assert (Q2 : SingleEncodeApp.quality (ui (Scheduling.world sc2)) = q2).
  { subst sc2 sc1. cbn. rewrite Ho. cbn. rewrite Ho. reflexivity. }
  assert (S2 : Scheduling.settled sc2 = []) by reflexivity.
  assert (I3 : Scheduling.issued sc3 = Scheduling.issued sc2 /\
               Scheduling.settled sc3 = [1%nat] /\
               SingleEncodeApp.quality (ui (Scheduling.world sc3)) = q2).
  { subst sc3. unfold SingleEncodeHandlers.dispatch, Scheduling.settle.
    rewrite I2, S2. cbn [nth_error existsb Scheduling.issued
                         Scheduling.settled Scheduling.world].
    split; [exact I2 |]. split; [reflexivity |].
    now rewrite handleQualityChange_resume_quality. }
  destruct I3 as (I3 & S3 & Q3).
  change (SingleEncodeHandlers.dispatch B sc3 (SingleEncodeHandlers.Settle 0))
    with (Scheduling.settle (SingleEncodeHandlers.handleQualityChange_resume B)
            0 sc3).
  unfold Scheduling.settle. rewrite I3, I2, S3.
  cbn [nth_error existsb Nat.eqb orb Scheduling.issued Scheduling.settled
       Scheduling.world].
  rewrite (handleQualityChange_resume_publishes B (ui w) q1 original img data
             _ Ho Hl Hc).
  cbn [fst]. unfold SingleEncodeHandlers.current.
  cbn [Scheduling.world ui Scheduling.issued].
  split; [reflexivity |]. split; [reflexivity | exact Q3].
Qed.

Lemma X21_ungated_slider_shows_the_call_that_settles_last_witness :
  let B := Samples.browserWith Samples.photo in
  let w := Samples.fresh (Samples.showing Samples.photo) in
  let sc := SingleEncodeHandlers.run B (Scheduling.idle w)
              [SingleEncodeHandlers.QualityChange 60;
               SingleEncodeHandlers.QualityChange 80;
               SingleEncodeHandlers.Settle 1;
               SingleEncodeHandlers.Settle 0] in
  List.length (Scheduling.issued sc) = 2%nat /\
  SingleEncodeHandlers.current sc =
    Some (SingleEncodeHandlers.encoded B Samples.photo
            (SingleEncodeApp.selectedPreset (ui w)) 60 (Samples.zeros 600)) /\
  SingleEncodeApp.quality (ui (Scheduling.world sc)) = 80.
Proof.
  apply (X21_ungated_slider_shows_the_call_that_settles_last
           (Samples.browserWith Samples.photo)
           (Samples.fresh (Samples.showing Samples.photo)) 60 80
           (Samples.dataOf Samples.jpegFile Samples.photo) Samples.photo
           (Samples.zeros 600)).
  - reflexivity.
  - reflexivity.
  - vm_compute. reflexivity.
Defined.

(** * Selecting a file in [src/App.tsx] *)

(** X22. [handleFile] of [src/App.tsx] blanks the result on display,
    never rejects, and ends in one of three ways. It refuses the file
    (wrong type, over 10 MB, not decodable, or over 8000 on a side): an
    error is set and the image held and the encoder are left alone. Or
    it stores the image, makes exactly one [toBlob] call at the quality
    of its render and publishes the result with the spinner off and no
    error. Or, when that one call hands over [null], it never settles:
    the image is stored, nothing is published, no error is set and the
    spinner stays on. *)
Theorem X22_single_encode_handleFile_outcomes (B : Browser)
    (fileObjectURL : File -> string) (formatFileSize : Z -> string)
    (s : SingleEncodeApp.State) (file : File)
    (w : World SingleEncodeApp.State) :
  let w' := fst (SingleEncodeHandlers.handleFile B fileObjectURL
                   formatFileSize s file w) in
  let stored :=
    exists d, SingleEncodeApp.originalImage (ui w') = Some d /\
              id_file d = file /\ id_size d <= 10 * 1024 * 1024 /\
              id_width d <= 8000 /\ id_height d <= 8000 in
  let encodedOnce :=
    exists call, encodeLog w' = call :: encodeLog w /\
                 call_quality call
                   = (inject_Z (SingleEncodeApp.quality s) / 100)%Q /\
                 (handed B call = None <->
                  SingleEncodeApp.compressedImage (ui w') = None) in
  match snd (SingleEncodeHandlers.handleFile B fileObjectURL formatFileSize
               s file w) with
  | Fulfilled _ =>
      (SingleEncodeApp.originalImage (ui w')
         = SingleEncodeApp.originalImage (ui w) /\
       SingleEncodeApp.compressedImage (ui w') = None /\
       encodeLog w' = encodeLog w /\
       SingleEncodeApp.error (ui w') <> None) \/
      (stored /\ encodedOnce /\
       SingleEncodeApp.compressedImage (ui w') <> None /\
       SingleEncodeApp.isProcessing (ui w') = false /\
       SingleEncodeApp.error (ui w') = None)
  | Pending =>
      stored /\ encodedOnce /\
      SingleEncodeApp.compressedImage (ui w') = None /\
      SingleEncodeApp.isProcessing (ui w') = true /\
      SingleEncodeApp.error (ui w') = None
  | Rejected _ => False
  end.
Proof.
  intros w' stored encodedOnce. subst stored encodedOnce w'.
  destruct (SingleEncodeHandlers.handleFile B fileObjectURL formatFileSize
              s file w) as [w' p] eqn:E.
  cbn [fst snd]. revert E.
  unfold SingleEncodeHandlers.handleFile.
  unfold Async.bind at 1 2. unfold set_ui at 1 2. unfold Async.modify.
  cbn [ui encodeLog].
  destruct (SingleEncodeHandlers.validateFile formatFileSize file)
    as [msg |] eqn:Hv.
  { cbn -[append]. intros [= <- <-]. left.
    repeat split; try reflexivity; discriminate. }
  assert (Hsize : file_size file <= 10 * 1024 * 1024).
  { revert Hv. unfold SingleEncodeHandlers.validateFile,
      SingleEncodeHandlers.MAX_FILE_SIZE.
    destruct (negb _); [discriminate |].
    destruct (_ <? _) eqn:El; [discriminate |]. intros _.
    now apply Z.ltb_ge in El. }
  unfold Async.try_catch, Async.bind at 1, SingleEncodeApp.loadImage.
  destruct (decodeFile B file) as [img |] eqn:Hl.
  2:{ cbn. intros [= <- <-]. left.
      repeat split; try reflexivity; discriminate. }
  unfold Async.ret at 1. cbv beta.
  unfold SingleEncodeHandlers.MAX_DIMENSIONS.
  destruct (8000 <? img_width img) eqn:Ew; cbn [orb].
  { cbn. intros [= <- <-]. left.
    repeat split; try reflexivity; discriminate. }
  destruct (8000 <? img_height img) eqn:Eh.
  { cbn. intros [= <- <-]. left.
    repeat split; try reflexivity; discriminate. }
  apply Z.ltb_ge in Ew, Eh.
  unfold Async.bind, set_ui, Async.modify. cbn [ui encodeLog].
  unfold SingleEncodeApp.compressImage, Async.bind. rewrite toBlob_logged.
  unfold handed.
  destruct (codec B _ image_jpeg _) eqn:Ec; cbn; intros [= <- <-]; cbn.
  - right. split; [eexists; split; [reflexivity | now cbn] |].
    split.
    + eexists. split; [reflexivity |]. split; [reflexivity |].
      cbn. rewrite Ec. split; discriminate.
    + repeat split. discriminate.
  - split; [eexists; split; [reflexivity | now cbn] |].
    split.
    + eexists. split; [reflexivity |]. split; [reflexivity |].
      cbn. rewrite Ec. now split.
    + now repeat split.
Qed.

(** * One call of [recompressImage], in full *)

(** X23. [recompressImage] always settles, and never by a rejection;
    without an image it does nothing at all. With one, it ends with the
    spinner off and has either made no [toBlob] call, leaving the image
    on display as it was and an error or a dimension error set; or made
    exactly one, at the quality of its render, after which either its
    result is on display with no error or an error is set and the image
    on display is the one from before. It never writes the stored
    image, preset, quality or custom dimensions. *)
Theorem X23_recompressImage_outcomes (B : Browser) (s : RecompressApp.State)
    (w : World RecompressApp.State) :
  let w' := fst (RecompressApp.recompressImage B s w) in
  snd (RecompressApp.recompressImage B s w) = Fulfilled tt /\
  (RecompressApp.originalImage s = None -> w' = w) /\
  (RecompressApp.originalImage s <> None ->
   RecompressApp.isProcessing (ui w') = false /\
   ((encodeLog w' = encodeLog w /\
     RecompressApp.compressedImage (ui w')
       = RecompressApp.compressedImage (ui w) /\
     (RecompressApp.error (ui w') <> None \/
      RecompressApp.dimensionError (ui w') <> None)) \/
    (exists call,
       encodeLog w' = call :: encodeLog w /\
       call_quality call = (inject_Z (RecompressApp.quality s) / 100)%Q /\
       RecompressApp.dimensionError (ui w') = None /\
       ((RecompressApp.error (ui w') = None /\
         RecompressApp.compressedImage (ui w') <> None) \/
        (RecompressApp.error (ui w') <> None /\
         RecompressApp.compressedImage (ui w')
           = RecompressApp.compressedImage (ui w)))))) /\
  (RecompressApp.originalImage (ui w') = RecompressApp.originalImage (ui w) /\
   RecompressApp.selectedPreset (ui w') = RecompressApp.selectedPreset (ui w) /\
   RecompressApp.quality (ui w') = RecompressApp.quality (ui w) /\
   RecompressApp.customWidth (ui w') = RecompressApp.customWidth (ui w) /\
   RecompressApp.customHeight (ui w') = RecompressApp.customHeight (ui w)).
Proof.
  intros w'. subst w'.
  destruct (RecompressApp.recompressImage B s w) as [w' p] eqn:E.
  cbn [fst snd]. revert E.
  unfold RecompressApp.recompressImage, RecompressApp.recompressImage_start,
    RecompressApp.recompressImage_resume.
  destruct (RecompressApp.originalImage s) as [original |].
  2:{ cbn. intros [= <- <-]. split; [reflexivity |].
      split; [reflexivity |]. split; [intros H; now contradiction H |].
      now repeat split. }
  unfold Async.try_catch, Async.bind, RecompressApp.loadImage.
  destruct (decodeFile B (id_file original)) as [img |].
  2:{ cbn. intros [= <- <-]. split; [reflexivity |].
      split; [discriminate |]. split; [| now repeat split].
      intros _. split; [reflexivity |]. left.
      split; [reflexivity |]. split; [reflexivity |]. left. discriminate. }
  destruct (Preset_eqb (RecompressApp.selectedPreset s) custom).
  - destruct (RecompressApp.validateDimensions (RecompressApp.customWidth s)
                (RecompressApp.customHeight s)) as [msg |].
    + cbn. intros [= <- <-]. split; [reflexivity |].
      split; [discriminate |]. split; [| now repeat split].
      intros _. split; [reflexivity |]. left.
      split; [reflexivity |]. split; [reflexivity |]. right. discriminate.
    + cbn -[RecompressApp.compressImage]. rewrite compressImage_run.
      destruct (codec B _ image_jpeg _); cbn; intros [= <- <-]; cbn;
        (split; [reflexivity |]); (split; [discriminate |]);
        (split; [| now repeat split]); intros _; (split; [reflexivity |]);
        right; eexists; (split; [reflexivity |]); (split; [reflexivity |]);
        (split; [reflexivity |]).
      * left. split; [reflexivity | discriminate].
      * right. split; [discriminate | reflexivity].
  - cbn -[RecompressApp.compressImage]. rewrite compressImage_run.
    destruct (codec B _ image_jpeg _); cbn; intros [= <- <-]; cbn;
      (split; [reflexivity |]); (split; [discriminate |]);
      (split; [| now repeat split]); intros _; (split; [reflexivity |]);
      right; eexists; (split; [reflexivity |]); (split; [reflexivity |]);
      (split; [reflexivity |]).
    + left. split; [reflexivity | discriminate].
    + right. split; [discriminate | reflexivity].
Qed.
